(** * Dashclim: the normalisation and classification pipeline, verified

    A shallow embedding of the data-munging core of [Dashclim.py]:
    the duration parser [parse_delta_to_hours], the record classifier
    [derive_status] (inside [normalize_monthly_df]), the month-cell
    normalisers [norm_cell] and [norm_status_cell], the coordinate- and
    month-column detection loops, the percentage computations and the
    marker colour decision [color_hex].

    Modelling conventions.
    - A Python [str] is a [string]: the UTF-8 bytes of the text.  The
      character classes ([\s], [\d], [str.strip]) and the case mappings
      ([str.lower], [str.upper], [re.I]) are those of the ASCII range; a
      byte above 127 is an ordinary caseless character.
    - A Python [int] is a [Z]; [int(s)] raises [ValueError] on a string of
      more than 4300 digits, CPython's default limit.  A Python [float] is
      the rational it stands for ([Qc]); rounding is left out, the range
      is not: converting an [int] of magnitude [2^1024 - 2^970] or more to
      [float] raises [OverflowError], as CPython does.  Where the control
      flow looks at them, [nan] and the infinities are values of
      [pyfloat].
    - A pandas cell is a [cell]: missing ([pd.isna]) or a text. *)

From Stdlib Require Import ZArith QArith Qcanon List String Ascii Bool Lia.
From Stdlib Require Import Qround.
From Stdlib Require Import DecimalString DecimalZ DecimalN DecimalPos.
Import ListNotations.

Local Open Scope string_scope.
Local Open Scope Z_scope.

(** ** Python strings *)

Module PyStr.

Definition code (c : ascii) : nat := nat_of_ascii c.

Definition in_range (lo hi : nat) (c : ascii) : bool :=
  (Nat.leb lo (code c) && Nat.leb (code c) hi)%bool.

(** [str.isspace] on the ASCII range: TAB, LF, VT, FF, CR, FS, GS, RS, US
    and the space; also what [\s] matches. *)
Definition is_space (c : ascii) : bool :=
  (in_range 9 13 c || in_range 28 32 c)%bool.

(** [\d] on the ASCII range. *)
Definition is_digit (c : ascii) : bool := in_range 48 57 c.

Definition lower_char (c : ascii) : ascii :=
  if in_range 65 90 c then ascii_of_nat (code c + 32) else c.

Definition upper_char (c : ascii) : ascii :=
  if in_range 97 122 c then ascii_of_nat (code c - 32) else c.

Fixpoint map_str (f : ascii -> ascii) (s : string) : string :=
  match s with
  | EmptyString => EmptyString
  | String c r => String (f c) (map_str f r)
  end.

Definition lower : string -> string := map_str lower_char.
Definition upper : string -> string := map_str upper_char.

Fixpoint filter_str (p : ascii -> bool) (s : string) : string :=
  match s with
  | EmptyString => EmptyString
  | String c r => if p c then String c (filter_str p r) else filter_str p r
  end.

(** The longest prefix of characters satisfying [p], and the rest. *)
Fixpoint span (p : ascii -> bool) (s : string) : string * string :=
  match s with
  | EmptyString => (EmptyString, EmptyString)
  | String c r =>
      if p c then let (a, b) := span p r in (String c a, b)
      else (EmptyString, s)
  end.

Definition lstrip (s : string) : string := snd (span is_space s).

Fixpoint rstrip (s : string) : string :=
  match s with
  | EmptyString => EmptyString
  | String c r =>
      match rstrip r with
      | EmptyString => if is_space c then EmptyString else String c EmptyString
      | r' => String c r'
      end
  end.

(** [s.strip()] *)
Definition strip (s : string) : string := rstrip (lstrip s).

(** [s.startswith(p)] *)
Definition startswith (p s : string) : bool := prefix p s.

(** [sub in s] *)
Fixpoint contains (sub s : string) : bool :=
  (prefix sub s ||
   match s with
   | EmptyString => false
   | String _ r => contains sub r
   end)%bool.

(** [s[:n]] *)
Fixpoint take (n : nat) (s : string) : string :=
  match n, s with
  | S k, String c r => String c (take k r)
  | _, _ => EmptyString
  end.

(** [s.replace(old, new)] for a non-empty [old]: the occurrences are
    replaced from left to right and do not overlap.  [skip] counts the
    characters of an occurrence of [old] still to be passed over. *)
Fixpoint replace_from (old new : string) (skip : nat) (s : string) : string :=
  match s with
  | EmptyString => EmptyString
  | String c r =>
      match skip with
      | S k => replace_from old new k r
      | O =>
          if prefix old s
          then new ++ replace_from old new (String.length old - 1) r
          else String c (replace_from old new 0 r)
      end
  end.

Definition replace (old new s : string) : string := replace_from old new 0 s.

(** [x in xs] for a list of strings. *)
Definition mem (x : string) (xs : list string) : bool :=
  existsb (String.eqb x) xs.

End PyStr.

Import PyStr.

(** ** Python numbers and exceptions *)

Inductive exn : Set := OverflowError.

Inductive result (A : Type) : Type :=
| Ret (a : A)
| Raise (e : exn).
Arguments Ret {A} a.
Arguments Raise {A} e.

Definition bind {A B : Type} (m : result A) (k : A -> result B) : result B :=
  match m with
  | Ret a => k a
  | Raise e => Raise e
  end.

Notation "x <- m ;; k" := (bind m (fun x => k))
  (at level 61, m at next level, right associativity).

(** The least magnitude of an [int] that no longer rounds to a finite
    double: [DBL_MAX] plus half a unit in its last place. *)
Definition FLOAT_LIMIT : Z := 2 ^ 1024 - 2 ^ 970.

(** The rational an integer stands for. *)
Definition z2q (z : Z) : Qc := Q2Qc (inject_Z z).

(** The conversion of an [int] operand in mixed [int]/[float] arithmetic. *)
Definition float_of_int (z : Z) : result Qc :=
  if Z.abs z <? FLOAT_LIMIT then Ret (z2q z)
  else Raise OverflowError.

(** A [float] where [nan] and the infinities matter. *)
Inductive pyfloat : Set :=
| Finite (q : Qc)
| PosInf
| NegInf
| NaN.

Definition Qc_ltb (x y : Qc) : bool :=
  match (x ?= y)%Qc with Lt => true | _ => false end.

Definition Qc_leb (x y : Qc) : bool :=
  match (x ?= y)%Qc with Gt => false | _ => true end.

Definition Qc_eqb (x y : Qc) : bool := Qeq_bool x y.

(** [x > c], [x >= c] and [x < c] for a finite constant [c]; every
    comparison with [nan] is false. *)
Definition gt_const (x : pyfloat) (c : Qc) : bool :=
  match x with
  | Finite q => Qc_ltb c q
  | PosInf => true
  | NegInf | NaN => false
  end.

Definition ge_const (x : pyfloat) (c : Qc) : bool :=
  match x with
  | Finite q => Qc_leb c q
  | PosInf => true
  | NegInf | NaN => false
  end.

Definition lt_const (x : pyfloat) (c : Qc) : bool :=
  match x with
  | Finite q => Qc_ltb q c
  | NegInf => true
  | PosInf | NaN => false
  end.


(** A pandas cell: missing, or the text [str(x)] of its value. *)
Inductive cell : Set :=
| NA
| Text (s : string).

(** ** The duration parser *)

Module Delta.

Definition EN_DASH : string :=
  String (ascii_of_nat 226) (String (ascii_of_nat 128)
    (String (ascii_of_nat 147) EmptyString)).

Definition EM_DASH : string :=
  String (ascii_of_nat 226) (String (ascii_of_nat 128)
    (String (ascii_of_nat 148) EmptyString)).

(** The attempt to match [(-?\s*\d+)\s*(t1|...|tn)] with flag [re.I] at
    the head of [s]; the result is group 1.  Every quantifier is greedy
    and none can give a character back with profit: a character that ends
    a run of [\s] or of [\d] is not of that class, and no unit token starts
    with a digit, a space or a dash.  So the backtracking matcher finds a
    match exactly when this single pass does, and the same group. *)
Definition match_here (toks : list string) (s : string) : option string :=
  let '(dash, s1) :=
    match s with
    | String c r => if Ascii.eqb c "-" then ("-", r) else ("", s)
    | EmptyString => ("", s)
    end in
  let '(ws, s2) := span is_space s1 in
  let '(ds, s3) := span is_digit s2 in
  match ds with
  | EmptyString => None
  | _ =>
      if existsb (fun t => prefix t (lower (lstrip s3))) toks
      then Some (dash ++ ws ++ ds)
      else None
  end.

(** [re.search]: the match at the leftmost position that has one. *)
Fixpoint re_search (toks : list string) (s : string) : option string :=
  match match_here toks s with
  | Some g => Some g
  | None =>
      match s with
      | EmptyString => None
      | String _ r => re_search toks r
      end
  end.

(** [re.sub(r"\D", "", g)] *)
Definition re_sub_nondigit (g : string) : string := filter_str is_digit g.

(** The longest decimal string CPython converts to an [int]
    ([sys.int_info.default_max_str_digits]). *)
Definition MAX_STR_DIGITS : nat := 4300.

(** [int(s)] of a string of decimal digits; [None] is [ValueError]: the
    string is empty, or longer than the limit. *)
Definition int_py (s : string) : option Z :=
  if Nat.ltb MAX_STR_DIGITS (String.length s) then None
  else option_map Z.of_uint (NilZero.uint_of_string s).

(** One unit's block:
    [m = re.search(...); if m: try: v = int(re.sub(...)) except: v = 0]. *)
Definition magnitude (toks : list string) (s : string) : Z :=
  match re_search toks s with
  | Some g =>
      match int_py (re_sub_nondigit g) with
      | Some v => v
      | None => 0
      end
  | None => 0
  end.

(** The four replacements applied to the stripped text, in the order of
    the chained calls. *)
Definition normalise (s : string) : string :=
  replace "hr" "hari"
    (replace "hrs" "jam" (replace EM_DASH "-" (replace EN_DASH "-" s))).

Definition sign_of (s : string) : Z :=
  if startswith "-" s then -1
  else if startswith "+" s then 1
  else 1.

Definition days_of (s : string) : Z := magnitude ["hari"] s.
Definition hours_of (s : string) : Z := magnitude ["jam"] s.
Definition mins_of (s : string) : Z := magnitude ["mnt"; "min"] s.
Definition secs_of (s : string) : Z := magnitude ["dtk"; "sec"; "s"] s.

(** [days*24 + hours + mins/60.0 + secs/3600.0], then
    [sign * float(total_hours)]. *)
Definition total_hours (sign days hours mins secs : Z) : result Qc :=
  m <- float_of_int mins ;;
  a <- float_of_int (days * 24 + hours) ;;
  s <- float_of_int secs ;;
  sg <- float_of_int sign ;;
  Ret (sg * (a + m / z2q 60 + s / z2q 3600))%Qc.

Definition parse_delta_to_hours (text : cell) : result (option Qc) :=
  match text with
  | NA => Ret None
  | Text x =>
      let s := strip x in
      if String.eqb s "" then Ret None
      else
        let s := normalise s in
        h <- total_hours (sign_of s) (days_of s) (hours_of s)
               (mins_of s) (secs_of s) ;;
        Ret (Some h)
  end.

End Delta.

Import Delta.

(** ** The three statuses *)

(** The texts the classifiers return; the specification calls them
    [ON_TIME], [LATE] and [NOT_SENT]. *)
Definition ON_TIME : string := "TEPAT WAKTU".
Definition LATE : string := "TERLAMBAT".
Definition NOT_SENT : string := "TIDAK MENGIRIM".

(** ** The record classifier: [normalize_monthly_df] *)

Module Monthly.

(** What [derive_status] observes of the value under
    [time_diff_hours_num]: [pd.isna(v)], and [float(v)], which is [None]
    when the conversion raises. *)
Record pyobj : Set := mk_obj {
  isna : bool;
  to_float : option pyfloat
}.

(** A row of the monthly sheet; [None] is a column the sheet lacks. *)
Record monthly_row : Set := mk_monthly {
  terkirim : option cell;
  tepat_waktu : option cell;
  time_diff_hours_num : option pyobj
}.

(** The row [derive_status] is applied to. *)
Record status_row : Set := mk_status {
  terkirim_bool : bool;
  tepat_bool : bool;
  delta : option pyobj
}.

Definition to_bool (v : cell) : bool :=
  match v with
  | NA => false
  | Text t => mem (upper (strip t)) ["YA"; "Y"; "YES"; "TRUE"; "T"; "1"; "OK"]
  end.

Definition derive_status (row : status_row) : string :=
  if negb (terkirim_bool row) then "TIDAK MENGIRIM"
  else if (terkirim_bool row && tepat_bool row)%bool then "TEPAT WAKTU"
  else
    match delta row with
    | Some v =>
        if negb (isna v) then
          match to_float v with
          | Some val =>
              if gt_const val (z2q 0) then "TEPAT WAKTU" else "TERLAMBAT"
          | None => "TEPAT WAKTU"
          end
        else "TEPAT WAKTU"
    | None => "TEPAT WAKTU"
    end.

(** The two boolean columns, [False] throughout when the source column is
    absent, and the status of the row. *)
Definition with_bools (r : monthly_row) : status_row :=
  {| terkirim_bool := match terkirim r with Some v => to_bool v | None => false end;
     tepat_bool := match tepat_waktu r with Some v => to_bool v | None => false end;
     delta := time_diff_hours_num r |}.

Definition status_of (r : monthly_row) : string := derive_status (with_bools r).

End Monthly.

(** ** The yearly pages *)

Module Yearly.

Definition MONTH_ABBR : list string :=
  ["Jan"; "Feb"; "Mar"; "Apr"; "Mei"; "Jun";
   "Jul"; "Agt"; "Sep"; "Okt"; "Nov"; "Des"].

(** *** Coordinate columns (Monitoring Tahunan) *)

Definition is_lat (c : string) : bool :=
  let cl := lower (strip c) in
  (mem cl ["lat"; "latitude"; "coord_lat"; "y"] || String.eqb "lat" (take 3 cl))%bool.

Definition is_lon (c : string) : bool :=
  let cl := lower (strip c) in
  (mem cl ["lon"; "lng"; "longitude"; "coord_lon"; "x"]
   || mem (take 3 cl) ["lon"; "lng"])%bool.

(** One turn of the loop over the columns: no [break], a later column
    overwrites an earlier one. *)
Definition coord_step (st : option string * option string) (c : string)
  : option string * option string :=
  (if is_lat c then Some c else fst st, if is_lon c then Some c else snd st).

(** [a or b] on optional strings: [None] and the empty string are false. *)
Definition py_or (a b : option string) : option string :=
  match a with
  | Some EmptyString | None => b
  | Some _ => a
  end.

Definition detect_coords (cols : list string) : option string * option string :=
  let st := fold_left coord_step cols (None, None) in
  (py_or (fst st) (if mem "LAT" cols then Some "LAT" else None),
   py_or (snd st) (if mem "LON" cols then Some "LON" else None)).

(** *** Month columns *)

(** [str(c).strip()[:3].lower() == m[:3].lower()] *)
Definition month_prefix (m c : string) : bool :=
  String.eqb (lower (take 3 (strip c))) (lower (take 3 m)).

(** [m[:3].lower() in str(c).lower()] *)
Definition month_inside (m c : string) : bool :=
  contains (lower (take 3 m)) (lower c).

(** The inner loop of [detect_month_columns] for the month [m]: the first
    column with the prefix that is not yet in [res] is appended, and the
    loop is left. *)
Fixpoint scan_month (m : string) (cols res : list string) : list string :=
  match cols with
  | [] => res
  | c :: cs =>
      if month_prefix m c then
        if negb (mem c res) then (res ++ [c])%list else scan_month m cs res
      else scan_month m cs res
  end.

Definition detect_month_columns (cols : list string) : list string :=
  fold_left (fun res m => scan_month m cols res) MONTH_ABBR [].

(** The fallback of both pages: the columns with a month code anywhere
    inside, month by month; here the inner loop has no [break]. *)
Definition fallback_step (possible : list string) (ordered : list string)
  (m : string) : list string :=
  fold_left
    (fun ord c =>
       if (negb (mem c ord) && month_inside m c)%bool then (ord ++ [c])%list else ord)
    possible ordered.

Definition fallback_month_columns (cols : list string) : list string :=
  let possible :=
    filter (fun c => existsb (fun m => month_inside m c) MONTH_ABBR) cols in
  fold_left (fallback_step possible) MONTH_ABBR [].

(** Monitoring Tahunan: [bulan_cols]. *)
Definition bulan_cols (cols : list string) : list string :=
  match detect_month_columns cols with
  | [] => fallback_month_columns cols
  | res => res
  end.

(** Performa Stasiun: [next((c for c in columns if ...), None)], kept when
    it is true as a condition. *)
Definition next_month (m : string) (cols : list string) : list string :=
  match find (month_prefix m) cols with
  | Some EmptyString | None => []
  | Some c => [c]
  end.

Definition month_cols (cols : list string) : list string :=
  match flat_map (fun m => next_month m cols) MONTH_ABBR with
  | [] => fallback_month_columns cols
  | res => res
  end.

(** *** Month cells *)

(** Monitoring Tahunan. *)
Definition norm_cell (x : cell) : string :=
  match x with
  | NA => ""
  | Text t =>
      let s := upper (strip t) in
      if contains "TEPAT" s then "TEPAT WAKTU"
      else if contains "TERLAMBAT" s then "TERLAMBAT"
      else if (contains "TIDAK" s || contains "TIDAK MENGIRIM" s
               || negb (contains "MENGIRIM" s)
                  && (contains "-" s || String.eqb s ""))%bool
      then
        if (contains "TIDAK MENGIRIM" s || contains "TIDAK" s)%bool
        then "TIDAK MENGIRIM"
        else s
      else s
  end.

(** Performa Stasiun. *)
Definition norm_status_cell (x : cell) : string :=
  match x with
  | NA => ""
  | Text t =>
      let s := upper (strip t) in
      if contains "TEPAT" s then "TEPAT WAKTU"
      else if contains "TERLAMBAT" s then "TERLAMBAT"
      else if (contains "TIDAK" s || contains "TIDAK MENGIRIM" s)%bool
      then "TIDAK MENGIRIM"
      else if mem s [""; "-"; "N/A"; "NA"] then "TIDAK MENGIRIM"
      else s
  end.

(** *** Counts and percentages *)

(** Monitoring Tahunan: [hitung(row, kata)] over the normalised cells of
    the month columns. *)
Definition hitung (row : list string) (kata : string) : nat :=
  List.length (filter (fun v => String.eqb (upper (strip v)) kata) row).

(** Performa Stasiun: [(col == kata).sum(axis=1)]. *)
Definition count_eq (row : list string) (kata : string) : nat :=
  List.length (filter (fun v => String.eqb v kata) row).

Definition float_of_count (n : nat) : pyfloat :=
  Finite (z2q (Z.of_nat n)).

(** [.replace(0, np.nan)] and [.fillna(0)] on a numeric column. *)
Definition replace_zero_nan (x : pyfloat) : pyfloat :=
  match x with
  | Finite q => if Qc_eqb q (z2q 0) then NaN else x
  | _ => x
  end.

Definition fillna_zero (x : pyfloat) : pyfloat :=
  match x with
  | NaN => Finite (z2q 0)
  | _ => x
  end.

(** Division of two numeric columns, element by element: no exception, a
    zero divisor gives an infinity, or [nan] for [0/0]. *)
Definition column_div (x y : pyfloat) : pyfloat :=
  match x, y with
  | NaN, _ | _, NaN => NaN
  | Finite a, Finite b =>
      if Qc_eqb b (z2q 0) then
        if Qc_eqb a (z2q 0) then NaN
        else if Qc_ltb (z2q 0) a then PosInf else NegInf
      else Finite (a / b)%Qc
  | Finite _, (PosInf | NegInf) => Finite (z2q 0)
  | (PosInf | NegInf), (PosInf | NegInf) => NaN
  | PosInf, Finite b => if Qc_ltb b (z2q 0) then NegInf else PosInf
  | NegInf, Finite b => if Qc_ltb b (z2q 0) then PosInf else NegInf
  end.

(** Monitoring Tahunan: [TOTAL] and [pct_tepat]. *)
Definition total_tahunan (tepat terlambat tidak : nat) : pyfloat :=
  fillna_zero (replace_zero_nan (float_of_count (tepat + terlambat + tidak))).

Definition pct_tepat_tahunan (tepat terlambat tidak : nat) : pyfloat :=
  fillna_zero
    (column_div (float_of_count tepat) (total_tahunan tepat terlambat tidak)).

(** Performa Stasiun: [pct_tepat]. *)
Definition pct_tepat_performa (tepat terlambat tidak : nat) : pyfloat :=
  fillna_zero
    (column_div (float_of_count tepat)
       (replace_zero_nan (float_of_count (tepat + terlambat + tidak)))).

(** *** Marker colour *)

Definition GREEN : string := "#2ecc71".
Definition YELLOW : string := "#f1c40f".
Definition RED : string := "#e74c3c".
Definition BLACK : string := "#000000".

Definition color_hex (pct : pyfloat) (terl tdk : Z) : string :=
  if ge_const pct (Q2Qc (8 # 10)) then "#2ecc71"
  else if ge_const pct (Q2Qc (3 # 10)) then "#f1c40f"
  else if (lt_const pct (Q2Qc (3 # 10)) && (terl >? tdk))%bool then "#e74c3c"
  else "#000000".

End Yearly.

Import Monthly Yearly.

(** ** Vocabulary of the statements *)


(** The lower-cased three-letter code of a month name. *)
Definition month_code (m : string) : string := lower (take 3 m).

(** The first header, from the left, that starts with the code of [m]. *)
Definition first_with_prefix (m : string) (cols : list string) : list string :=
  match find (month_prefix m) cols with
  | Some c => [c]
  | None => []
  end.

(** Python's [str(n)] for an integer. *)
Definition str_of_int (n : Z) : string := NilZero.string_of_int (Z.to_int n).

(** [k] zeros. *)
Fixpoint zeros (k : nat) : string :=
  match k with
  | O => EmptyString
  | S k' => String "0" (zeros k')
  end.

(** A one followed by four hundred zeros, and a unit. *)
Definition huge_with (unit : string) : string := "1" ++ zeros 400 ++ unit.

(** The hours of the formula, in exact arithmetic. *)
Definition hours_formula (sign days hours mins secs : Z) : Qc :=
  (z2q sign * (z2q days * z2q 24 + z2q hours
               + z2q mins / z2q 60 + z2q secs / z2q 3600))%Qc.

(** Every character of [s] satisfies [p]. *)
Fixpoint all_chars (p : ascii -> bool) (s : string) : bool :=
  match s with
  | EmptyString => true
  | String c r => (p c && all_chars p r)%bool
  end.

(** The unit test of [match_here] on what follows the digits. *)
Definition unit_follows (toks : list string) (r : string) : bool :=
  existsb (fun t => prefix t (lower (lstrip r))) toks.

(** The optional dash of a printed integer, and the characters of one. *)
Definition dash_of (neg : bool) : string := if neg then "-" else "".

Definition sign_char (c : ascii) : bool := (is_digit c || Ascii.eqb c "-")%bool.

(** * Further parts of the program

    The models below keep the conventions of the head of the file.  In
    addition: [len] and the slices [s[:n]] count the bytes of a text, which
    are its characters on ASCII text; a data frame is seen through its
    header (the list of its column names from left to right, repetitions
    included) and, where the cells matter, through the cells of a column;
    what the network answers ([requests.get], [read_csv]) is an argument of
    the model. *)

(** ** The sheet address: [extract_sheet_id_and_gid] and the export URL *)

Module Sheets.

(** [s[n:]] *)
Fixpoint drop (n : nat) (s : string) : string :=
  match n, s with
  | S k, String _ r => drop k r
  | _, _ => s
  end.

(** The class [[a-zA-Z0-9-_]]: after the range [0-9] the dash is a
    literal. *)
Definition is_id_char (c : ascii) : bool :=
  (in_range 97 122 c || in_range 65 90 c || in_range 48 57 c
   || Ascii.eqb c "-" || Ascii.eqb c "_")%bool.

(** The attempt to match [lit(cls+)] at the head of [s]; the result is
    group 1.  The run is greedy and nothing follows it in the pattern, so
    the longest run is the match. *)
Definition group_here (lit : string) (cls : ascii -> bool) (s : string)
  : option string :=
  if prefix lit s then
    match fst (span cls (drop (String.length lit) s)) with
    | EmptyString => None
    | g => Some g
    end
  else None.

(** [re.search(lit + "(cls+)", s)]: group 1 of the leftmost match. *)
Fixpoint re_search_group (lit : string) (cls : ascii -> bool) (s : string)
  : option string :=
  match group_here lit cls s with
  | Some g => Some g
  | None =>
      match s with
      | EmptyString => None
      | String _ r => re_search_group lit cls r
      end
  end.

(** [s.split(sep)] for a separator of one character. *)
Fixpoint split_on (sep : ascii) (s : string) : list string :=
  match s with
  | EmptyString => [EmptyString]
  | String c r =>
      if Ascii.eqb c sep then EmptyString :: split_on sep r
      else
        match split_on sep r with
        | p :: ps => String c p :: ps
        | [] => [String c EmptyString]
        end
  end.

(** The pair [(sheet_id, gid)]; [(None, None)] for an empty argument. *)
Definition extract_sheet_id_and_gid (url_or_id : string)
  : option string * option string :=
  if String.eqb url_or_id "" then (None, None)
  else
    let '(sheet_id, gid) :=
      match re_search_group "/d/" is_id_char url_or_id with
      | Some g =>
          (Some g,
           match re_search_group "gid=" is_digit url_or_id with
           | Some d => Some d
           | None => re_search_group "#gid=" is_digit url_or_id
           end)
      | None =>
          if contains "," url_or_id then
            let parts := split_on "," url_or_id in
            (Some (strip (nth 0 parts "")), Some (strip (nth 1 parts "")))
          else (Some (strip url_or_id), None)
      end in
    (sheet_id, py_or gid (Some "0")).

Definition gsheet_csv_export_url (sheet_id gid : string) : string :=
  "https://docs.google.com/spreadsheets/d/" ++ sheet_id
  ++ "/export?format=csv&gid=" ++ gid.

(** [load_sheet_csv_url] up to the download: the address it reads, [None]
    when it raises [ValueError] for want of a sheet id. *)
Definition csv_url_of (url_or_id : string) : option string :=
  match extract_sheet_id_and_gid url_or_id with
  | (Some (String c r), Some gid) => Some (gsheet_csv_export_url (String c r) gid)
  | _ => None
  end.

End Sheets.

Import Sheets.

(** ** Performa Stasiun: pages, chart grid and chart titles *)

Module Performa.

(** [s.split()]: the maximal runs of characters that are not white space;
    [cur] is the run being read. *)
Fixpoint words_from (cur : string) (s : string) : list string :=
  match s with
  | EmptyString => if String.eqb cur "" then [] else [cur]
  | String c r =>
      if is_space c then
        if String.eqb cur "" then words_from "" r else cur :: words_from "" r
      else words_from (cur ++ String c "") r
  end.

Definition split_ws (s : string) : list string := words_from "" s.

(** [len(s)] as a Python [int]. *)
Definition len (s : string) : Z := Z.of_nat (String.length s).

(** One turn of the loop of [wrap_text_for_title] on the state
    [(parts, current)]. *)
Definition wrap_step (max_chars : Z) (st : list string * string) (w : string)
  : list string * string :=
  let '(parts, current) := st in
  if String.eqb current "" then (parts, w)
  else if len current + 1 + len w <=? max_chars
       then (parts, current ++ " " ++ w)
       else ((parts ++ [current])%list, w).

(** The lines the loop produces, before they are joined. *)
Definition wrap_lines (max_chars : Z) (words : list string) : list string :=
  let '(parts, current) := fold_left (wrap_step max_chars) words ([], "") in
  if String.eqb current "" then parts else (parts ++ [current])%list.

Definition wrap_text_for_title (s : string) (max_chars : Z) : string :=
  let s := strip s in
  if len s <=? max_chars then s
  else String.concat "<br>" (wrap_lines max_chars (split_ws s)).

(** [math.ceil(a / b)] for two integers, [b] not zero. *)
Definition ceil_div (a b : Z) : Z := Qceiling (inject_Z a / inject_Z b).

(** The page arithmetic. *)
Definition total_pages (total_items per_page : Z) : Z :=
  Z.max 1 (ceil_div total_items per_page).

Definition start_idx (page per_page : Z) : Z := (page - 1) * per_page.

Definition end_idx (page per_page total_items : Z) : Z :=
  Z.min (start_idx page per_page + per_page) total_items.

(** [items[a:b]] for [0 <= a]; the page never computes a negative bound. *)
Definition slice {A : Type} (items : list A) (a b : Z) : list A :=
  firstn (Z.to_nat (b - a)) (skipn (Z.to_nat a) items).

(** [subset]: the rows of the page. *)
Definition subset {A : Type} (items : list A) (page per_page : Z) : list A :=
  slice items (start_idx page per_page)
    (end_idx page per_page (Z.of_nat (List.length items))).

(** [range(n)] *)
Definition range (n : Z) : list Z := map Z.of_nat (seq 0 (Z.to_nat n)).

(** The indices of [subset] the chart grid draws, in the order of the two
    loops; a cell whose index is past the end stays empty. *)
Definition grid_indices (n : Z) : list Z :=
  let ncols := 3 in
  let rows := ceil_div n ncols in
  flat_map
    (fun r =>
       flat_map (fun ci => let idx := r * ncols + ci in
                           if idx >=? n then [] else [idx])
         (range ncols))
    (range rows).

End Performa.

Import Performa.

(** A line of a wrapped title: words joined by single spaces, within the
    width unless it is one word. *)
Definition line_ok (max_chars : Z) (g : list string) : Prop :=
  g <> [] /\ (len (String.concat " " g) <= max_chars \/ exists w, g = [w]).

(** The lines are filled greedily: the first word of a line did not fit
    at the end of the line before it. *)
Fixpoint greedy_after (max_chars : Z) (prev : list string)
  (gs : list (list string)) : Prop :=
  match gs with
  | [] => True
  | g :: r =>
      max_chars < len (String.concat " " prev) + 1 + len (hd "" g) /\
      greedy_after max_chars g r
  end.

Definition greedy (max_chars : Z) (gs : list (list string)) : Prop :=
  match gs with
  | [] => True
  | g :: r => greedy_after max_chars g r
  end.

(** The pages [1 .. n]. *)
Definition pages (n : Z) : list Z := map (fun i => i + 1) (range n).

(** ** Bulanan: the page header and the KPI cards *)

Module Bulanan.

(** The dictionary of month names; the keys are the month numbers without
    a leading zero. *)
Definition MONTH_NAMES : list (string * string) :=
  [("1", "Januari"); ("2", "Februari"); ("3", "Maret"); ("4", "April");
   ("5", "Mei"); ("6", "Juni"); ("7", "Juli"); ("8", "Agustus");
   ("9", "September"); ("10", "Oktober"); ("11", "November");
   ("12", "Desember")].

(** [d.get(key, default)] *)
Definition dict_get (d : list (string * string)) (key default : string)
  : string :=
  match find (fun kv => String.eqb (fst kv) key) d with
  | Some kv => snd kv
  | None => default
  end.

Definition bulan_nama (bulan_num : string) : string :=
  dict_get MONTH_NAMES bulan_num bulan_num.

(** The header of the page for the first [report_month] of the sheet;
    [None] is the [ValueError] of [tahun, bulan_num = report_month.split("-")]
    when the split does not give two parts. *)
Definition header_bulanan (report_month : string) : option string :=
  match Sheets.split_on "-" report_month with
  | [tahun; bulan_num] =>
      Some ("Monitoring CLIMAT " ++ bulan_nama bulan_num ++ " " ++ tahun)
  | _ => None
  end.

(** [(col != kata).sum()] *)
Definition count_ne (col : list string) (kata : string) : nat :=
  List.length (filter (fun v => negb (String.eqb v kata)) col).

(** The column [status] of the normalised monthly sheet. *)
Definition status_column (rows : list monthly_row) : list string :=
  map status_of rows.

(** The counts behind the cards: [sent_count], [tepat], [terlambat],
    [tidak]. *)
Definition sent_count (rows : list monthly_row) : nat :=
  count_ne (status_column rows) "TIDAK MENGIRIM".
Definition tepat (rows : list monthly_row) : nat :=
  count_eq (status_column rows) "TEPAT WAKTU".
Definition terlambat (rows : list monthly_row) : nat :=
  count_eq (status_column rows) "TERLAMBAT".
Definition tidak (rows : list monthly_row) : nat :=
  count_eq (status_column rows) "TIDAK MENGIRIM".

(** [detect_status_column]: [None] for an empty frame (no column or no
    row) and when no name qualifies. *)
Definition detect_status_column (cols : list string) (nrows : nat)
  : option string :=
  match cols, nrows with
  | [], _ | _, O => None
  | _, _ =>
      let candidates :=
        flat_map
          (fun col =>
             let c := lower col in
             ((if contains "status" c then [col] else [])
              ++ (if (contains "tepat" c || contains "ketepatan" c)%bool
                  then [col] else [])
              ++ (if contains "terkirim" c then [col] else []))%list)
          cols in
      hd_error candidates
  end.

End Bulanan.

Import Bulanan.

(** ** Monitoring Tahunan: the bars per month *)

Module Bars.

(** A row of [df_bulan]. *)
Record bar_row : Set := mk_bar {
  Bulan : string;
  Tepat_Waktu : Qc;
  Terlambat : Qc;
  Tidak_Mengirim : Qc
}.

(** The column read for the month [m]: [m] itself when it is a month
    column, else the first month column with the prefix of [m]. *)
Definition bar_col (m : string) (bulan_cols : list string) : option string :=
  if mem m bulan_cols then Some m else find (month_prefix m) bulan_cols.

(** [100*x/total if total>0 else 0] *)
Definition bar_percent (x total : nat) : Qc :=
  if Nat.ltb 0 total
  then (z2q 100 * z2q (Z.of_nat x) / z2q (Z.of_nat total))%Qc
  else z2q 0.

(** One turn of the loop; [df c] is the column [c] of the sheet as read,
    normalised by [norm_cell] before it is counted. *)
Definition df_bulan_row (df : string -> list cell) (bulan_cols : list string)
  (m : string) : bar_row :=
  match bar_col m bulan_cols with
  | Some (String a r) =>
      let col := map upper (map norm_cell (df (String a r))) in
      let tepat := count_eq col "TEPAT WAKTU" in
      let terlambat := count_eq col "TERLAMBAT" in
      let tidak := count_eq col "TIDAK MENGIRIM" in
      let total := (tepat + terlambat + tidak)%nat in
      mk_bar m (bar_percent tepat total) (bar_percent terlambat total)
        (bar_percent tidak total)
  | _ => mk_bar m (z2q 0) (z2q 0) (z2q 0)
  end.

Definition df_bulan (df : string -> list cell) (bulan_cols : list string)
  : list bar_row :=
  map (df_bulan_row df bulan_cols) MONTH_ABBR.

End Bars.

Import Bars.

(** ** More vocabulary *)

(** The result of the parser with the sign of its number changed. *)
Definition negate_result (r : result (option Qc)) : result (option Qc) :=
  match r with
  | Ret (Some h) => Ret (Some (- h)%Qc)
  | other => other
  end.

(** The text "D hari H jam M mnt S dtk". *)
Definition four_units (days hours mins secs : Z) : string :=
  str_of_int days ++ " hari " ++ str_of_int hours ++ " jam "
  ++ str_of_int mins ++ " mnt " ++ str_of_int secs ++ " dtk".

(** A character that is neither a digit nor the dash. *)
Definition word_char (c : ascii) : bool := negb (sign_char c).

(** A text of ASCII characters only.  On such a text the character
    classes and case mappings of Python are those of the model, and the
    characters of the text are its bytes. *)
Definition is_ascii (s : string) : bool :=
  all_chars (fun c => Nat.ltb (code c) 128) s.

(** ** Bulanan: the marker colour of the map *)

Module PetaBulanan.

Definition color_map_hex : list (string * string) :=
  [("TEPAT WAKTU", "#09ba53"); ("TERLAMBAT", "#ff8c00");
   ("TIDAK MENGIRIM", "#000000")].

(** [color_map_hex.get(status, "#999999")] for the status of a row of the
    normalised sheet. *)
Definition marker_color (r : monthly_row) : string :=
  dict_get color_map_hex (status_of r) "#999999".

End PetaBulanan.

Import PetaBulanan.

(** ** Rincian Data Tahunan: the hours of a month column *)

Module Rincian.

(** [df[orig].apply(parse_delta_to_hours)]: the cells are parsed from the
    first to the last, and the first exception ends the call. *)
Fixpoint apply_parse (cells : list cell) : result (list (option Qc)) :=
  match cells with
  | [] => Ret []
  | c :: cs =>
      h <- parse_delta_to_hours c ;;
      hs <- apply_parse cs ;;
      Ret (h :: hs)
  end.

(** The column [<orig>_hrs]:
    [try: df[col_hrs] = df[orig].apply(...) except Exception: df[col_hrs] = np.nan].
    [None] is a missing value, [None] or [nan]. *)
Definition hrs_column (cells : list cell) : list (option Qc) :=
  match apply_parse cells with
  | Ret hs => hs
  | Raise _ => map (fun _ => None) cells
  end.

(** Letters of the ASCII range: the cased characters. *)
Definition is_letter (c : ascii) : bool :=
  (in_range 65 90 c || in_range 97 122 c)%bool.

(** [s.title()]: a cased character is upper-cased when the character
    before it is not cased, and lower-cased when it is. *)
Fixpoint title_from (cased : bool) (s : string) : string :=
  match s with
  | EmptyString => EmptyString
  | String c r =>
      String (if cased then lower_char c else upper_char c)
        (title_from (is_letter c) r)
  end.

Definition title (s : string) : string := title_from false s.

(** The byte order mark, U+FEFF. *)
Definition BOM : string :=
  String (ascii_of_nat 239) (String (ascii_of_nat 187)
    (String (ascii_of_nat 191) EmptyString)).

(** [clean_columns], on the header. *)
Definition clean_columns (cols : list string) : list string :=
  map (fun c => replace BOM "" (strip c)) cols.

(** [df.drop(columns=c)]: every column of that name goes. *)
Definition drop_column (c : string) (cols : list string) : list string :=
  filter (fun x => negb (String.eqb x c)) cols.

(** [str(c).strip()[:3].title()] *)
Definition month_base (c : string) : string := title (take 3 (strip c)).

Definition month_like_cols (cols : list string) : list string :=
  match filter (fun c => mem (month_base c) MONTH_ABBR) cols with
  | [] => filter (fun c => existsb (fun m => month_inside m c) MONTH_ABBR) cols
  | l => l
  end.

(** A [dict] with string keys and values, in insertion order. *)
Definition dict : Set := list (string * string).

Definition dict_find (d : dict) (k : string) : option string :=
  option_map snd (find (fun kv => String.eqb (fst kv) k) d).

(** [d[k] = v] *)
Definition dict_set (d : dict) (k v : string) : dict :=
  match dict_find d k with
  | Some _ => map (fun kv => if String.eqb (fst kv) k then (k, v) else kv) d
  | None => (d ++ [(k, v)])%list
  end.

(** [month_map]: each base with the first month-like column that has it. *)
Definition month_map (cols : list string) : dict :=
  fold_left
    (fun d orig =>
       match dict_find d (month_base orig) with
       | Some _ => d
       | None => dict_set d (month_base orig) orig
       end)
    (month_like_cols cols) [].

(** [df[keys]] on the header: key by key, every column of that name. *)
Definition select (cols keys : list string) : list string :=
  flat_map (fun k => filter (String.eqb k) cols) keys.

(** [df.rename(columns=d)] on the header. *)
Definition rename (cols : list string) (d : dict) : list string :=
  map (fun c => match dict_find d c with Some v => v | None => c end) cols.

(** [df.loc[:, ~df.columns.duplicated(keep='first')]] on the header;
    [seen] holds the names met so far. *)
Fixpoint unique_from (seen : list string) (cols : list string) : list string :=
  match cols with
  | [] => []
  | c :: r =>
      if mem c seen then unique_from seen r else c :: unique_from (c :: seen) r
  end.

(** The source column kept for the month [m], if the dictionary has one
    and the sheet has it. *)
Definition keep_month (mm : dict) (cols : list string) (m : string)
  : list string :=
  match dict_find mm m with
  | Some src => if mem src cols then [src] else []
  | None => []
  end.

(** One turn of the loop that fills [rename_map] with the months. *)
Definition rename_step (mm : dict) (res : list string) (rm : dict)
  (m : string) : dict :=
  match dict_find mm m with
  | Some src => if mem src res then dict_set rm src m else rm
  | None => rm
  end.

(** The header of the table [_prepare_status_display_local] returns for a
    sheet that is not empty. *)
Definition status_display_header (src_cols : list string) : list string :=
  let cols := drop_column "LON" (drop_column "LAT" (clean_columns src_cols)) in
  let mm := month_map cols in
  let cols_keep :=
    ((if mem "station_name" cols then ["station_name"] else [])
     ++ (if mem "wmoid" cols then ["wmoid"] else [])
     ++ flat_map (keep_month mm cols) MONTH_ABBR)%list in
  let res := select cols cols_keep in
  let rm0 :=
    if mem "station_name" res then dict_set [] "station_name" "Nama Stasiun"
    else [] in
  let rm1 := if mem "wmoid" res then dict_set rm0 "wmoid" "WMO ID" else rm0 in
  let rename_map := fold_left (rename_step mm res) MONTH_ABBR rm1 in
  let res := rename res rename_map in
  let cols_order :=
    ((if mem "Nama Stasiun" res then ["Nama Stasiun"] else [])
     ++ (if mem "WMO ID" res then ["WMO ID"] else [])
     ++ filter (fun m => mem m res) MONTH_ABBR)%list in
  let remaining := filter (fun c => negb (mem c cols_order)) res in
  unique_from [] (select res (cols_order ++ remaining)%list).

End Rincian.

Import Rincian.

(** The names of the status table, in the order of its columns. *)
Definition STATUS_HEADER : list string :=
  "Nama Stasiun" :: "WMO ID" :: MONTH_ABBR.

(** ** The worksheets of a spreadsheet: [discover_gids_for_sheet] *)

Module Discover.

(** The text ["sheetId"], with its quotes. *)
Definition SHEET_ID_KEY : string :=
  String (ascii_of_nat 34) ("sheetId" ++ String (ascii_of_nat 34) "").

(** A match of [gid=([0-9]+)] at the head of [s]: group 1 and the length
    of the match. *)
Definition gid_here (s : string) : option (string * nat) :=
  match group_here "gid=" is_digit s with
  | Some g => Some (g, (4 + String.length g)%nat)
  | None => None
  end.

(** A match of ["sheetId"\s*:\s*([0-9]+)] at the head of [s].  Each run
    of white space ends at a character that is not white space, so no
    shorter run can lead to a match. *)
Definition sheet_id_here (s : string) : option (string * nat) :=
  if prefix SHEET_ID_KEY s then
    let '(ws1, r1) := span is_space (drop (String.length SHEET_ID_KEY) s) in
    match r1 with
    | String c r2 =>
        if Ascii.eqb c ":" then
          let '(ws2, r3) := span is_space r2 in
          match fst (span is_digit r3) with
          | EmptyString => None
          | g =>
              Some (g, (String.length SHEET_ID_KEY + String.length ws1 + 1
                        + String.length ws2 + String.length g)%nat)
          end
        else None
    | EmptyString => None
    end
  else None.

(** [re.findall]: the groups of the matches from left to right, the
    search going on after the end of each match.  [skip] counts the
    characters of the last match still to be passed over. *)
Fixpoint findall_from (here : string -> option (string * nat)) (skip : nat)
  (s : string) : list string :=
  match s with
  | EmptyString => []
  | String _ r =>
      match skip with
      | S k => findall_from here k r
      | O =>
          match here s with
          | Some (g, n) => g :: findall_from here (n - 1) r
          | None => findall_from here 0 r
          end
      end
  end.

Definition findall (here : string -> option (string * nat)) (s : string)
  : list string :=
  findall_from here 0 s.

(** [gids.add(x)] on a set kept as a list without repetition. *)
Definition set_add (x : string) (gids : list string) : list string :=
  if mem x gids then gids else (gids ++ [x])%list.

(** [for g in found: gids.add(str(int(g)))]: the set after the loop, and
    whether the loop came to its end ([false]: [int] raised). *)
Fixpoint add_all (found : list string) (gids : list string)
  : list string * bool :=
  match found with
  | [] => (gids, true)
  | g :: r =>
      match int_py g with
      | Some v => add_all r (set_add (str_of_int v) gids)
      | None => (gids, false)
      end
  end.

(** [sorted(l, key=int)], a stable sort: by insertion from the right, an
    element going in front of the elements whose key is not smaller.
    [None] is the [ValueError] of a key. *)
Fixpoint insert_key (p : Z * string) (l : list (Z * string))
  : list (Z * string) :=
  match l with
  | [] => [p]
  | q :: r => if fst p <=? fst q then p :: l else q :: insert_key p r
  end.

Fixpoint isort (l : list (Z * string)) : list (Z * string) :=
  match l with
  | [] => []
  | p :: r => insert_key p (isort r)
  end.

Fixpoint with_keys (l : list string) : option (list (Z * string)) :=
  match l with
  | [] => Some []
  | x :: r =>
      match int_py x, with_keys r with
      | Some k, Some kr => Some ((k, x) :: kr)
      | _, _ => None
      end
  end.

Definition sorted_by_int (l : list string) : option (list string) :=
  option_map (fun kl => map snd (isort kl)) (with_keys l).

(** [page] and [gviz] are the texts of the two responses, [None] for a
    request that raised, a status other than 200 or an empty text.  The
    elements of the set are printed integers, so their keys are pairwise
    different and the result does not depend on the order in which the
    set is listed. *)
Definition discover_gids_for_sheet (sheet_id : string)
  (page gviz : option string) : option (list string) :=
  if String.eqb sheet_id "" then Some []
  else
    let gids :=
      match page with
      | Some text => fst (add_all (findall gid_here text) [])
      | None => []
      end in
    let gids :=
      match gviz with
      | Some txt =>
          let '(g1, ok) := add_all (findall sheet_id_here txt) gids in
          if ok then fst (add_all (findall gid_here txt) g1) else g1
      | None => gids
      end in
    let gids :=
      match gids with
      | [] => set_add "1493298409" (set_add "172027705" (set_add "0" []))
      | _ => gids
      end in
    sorted_by_int gids.

End Discover.

Import Discover.

(** A list of integers in strictly increasing order. *)
Fixpoint increasing (l : list Z) : Prop :=
  match l with
  | x :: (y :: _) as r => x < y /\ increasing r
  | _ => True
  end.

(** A set of printed integers: no repetition, and each element is the
    text of the integer that [int] reads from it. *)
Definition printed (gids : list string) : Prop :=
  NoDup gids /\
  forall x, In x gids ->
            exists k, 0 <= k /\ x = str_of_int k /\ int_py x = Some k.

(** A key with the text it is printed as. *)
Definition keyed (p : Z * string) : Prop :=
  0 <= fst p /\ snd p = str_of_int (fst p) /\ int_py (snd p) = Some (fst p).

(** ** The loader: which worksheet is which *)

Module Loader.

(** A sheet as [read_csv] gives it: its columns from left to right, each
    with its name and its cells.  [read_csv] makes the names of a sheet
    pairwise different, so a name selects one column. *)
Definition sheet : Set := list (string * list cell).

Definition MONTH_CODES : list string :=
  ["jan"; "feb"; "mar"; "apr"; "mei"; "jun";
   "jul"; "agt"; "sep"; "okt"; "nov"; "des"].

(** [str(c).strip()[:3].lower() in [...]] *)
Definition month_like (c : string) : bool :=
  mem (lower (take 3 (strip c))) MONTH_CODES.

(** [df[c].dropna().astype(str)]: the texts of the cells that are not
    missing. *)
Fixpoint dropna (cells : list cell) : list string :=
  match cells with
  | [] => []
  | NA :: r => dropna r
  | Text t :: r => t :: dropna r
  end.

(** [sample_val]: the first text of the first month-like column that has
    one. *)
Fixpoint sample_val (cols : sheet) : option string :=
  match cols with
  | [] => None
  | (c, cells) :: r =>
      if month_like c then
        match dropna cells with
        | v :: _ => Some v
        | [] => sample_val r
        end
      else sample_val r
  end.

(** [any(k in str(sample_val).lower() for k in keys)] *)
Definition any_in (keys : list string) (v : string) : bool :=
  existsb (fun k => contains k (lower v)) keys.

(** The class [try_load_and_classify] gives a sheet that could be read;
    [None] is no class. *)
Definition classify (df : sheet) : option string :=
  let cols := map (fun c => lower (strip (fst c))) df in
  if (existsb (fun c => mem c cols)
        ["tepat_waktu"; "terlambat"; "tidak_mengirim"]
      && mem "bulan" cols)%bool
  then Some "monthlysummary"
  else
    let after :=
      if (mem "bulan" cols && existsb (contains "tepat") cols)%bool
      then Some "monthlysummary" else None in
    if (mem "station_name" cols || mem "nama stasiun" cols
        || mem "stasiun" cols)%bool
    then
      match filter (fun c => month_like (fst c)) df with
      | [] => after
      | _ =>
          match sample_val df with
          | Some v =>
              if any_in ["tepat"; "terlambat"; "tidak"] v then Some "status"
              else if any_in ["hari"; "jam"; "mnt"; "dtk"; "detik"] v
                   then Some "deltahours"
                   else Some "status"
          | None => Some "status"
          end
      end
    else after.

End Loader.

Import Loader.

(** A sheet with a station column and a month column that is not a
    monthly summary. *)
Definition station_sheet (df : sheet) : Prop :=
  let cols := map (fun c => lower (strip (fst c))) df in
  (existsb (fun c => mem c cols) ["tepat_waktu"; "terlambat"; "tidak_mengirim"]
   && mem "bulan" cols)%bool = false /\
  (mem "station_name" cols || mem "nama stasiun" cols
   || mem "stasiun" cols)%bool = true /\
  filter (fun c => month_like (fst c)) df <> [].

(** ** Rincian Data Tahunan: the short text of a cell *)

Module Ringkas.

(** The attempt to match [(-?\d+(\.\d+)?)] at the head of [s]; the result
    is group 1.  The dash is taken when it is there and a digit follows,
    the digits are the longest run, and the fraction is taken when a dot
    and a digit follow. *)
Definition number_here (s : string) : option string :=
  let '(dash, s1) :=
    match s with
    | String c r => if Ascii.eqb c "-" then ("-", r) else ("", s)
    | EmptyString => ("", s)
    end in
  let '(ds, s2) := span is_digit s1 in
  match ds with
  | EmptyString => None
  | _ =>
      let frac :=
        match s2 with
        | String c r =>
            if Ascii.eqb c "." then
              match fst (span is_digit r) with
              | EmptyString => ""
              | fs => String "." fs
              end
            else ""
        | EmptyString => ""
        end in
      Some (dash ++ ds ++ frac)
  end.

Fixpoint re_search_number (s : string) : option string :=
  match number_here s with
  | Some g => Some g
  | None =>
      match s with
      | EmptyString => None
      | String _ r => re_search_number r
      end
  end.

Definition simplify_text_cell (x : cell) : string :=
  match x with
  | NA => ""
  | Text t =>
      let s := strip t in
      match re_search_number s with
      | Some g => g
      | None =>
          match split_ws s with
          | w :: _ => take 12 w
          | [] => ""
          end
      end
  end.

End Ringkas.

Import Ringkas.

(** * Properties *)

(** ** Comparisons of rationals *)

Lemma Qc_ltb_lt (x y : Qc) : Qc_ltb x y = true <-> (x < y)%Qc.
Proof.
  unfold Qc_ltb. rewrite Qclt_alt.
  destruct (x ?= y)%Qc; split; congruence.
Qed.

Lemma Qc_leb_le (x y : Qc) : Qc_leb x y = true <-> (x <= y)%Qc.
Proof.
  unfold Qc_leb. rewrite Qcle_alt.
  destruct (x ?= y)%Qc; split; congruence.
Qed.

Lemma Qc_ltb_ge (x y : Qc) : Qc_ltb x y = false <-> (y <= x)%Qc.
Proof.
  split; intro H.
  - apply Qcnot_lt_le. intro L. apply Qc_ltb_lt in L. congruence.
  - destruct (Qc_ltb x y) eqn:E; [ | reflexivity ].
    apply Qc_ltb_lt in E. exfalso. exact (Qcle_not_lt _ _ H E).
Qed.

Lemma Qc_leb_gt (x y : Qc) : Qc_leb x y = false <-> (y < x)%Qc.
Proof.
  split; intro H.
  - apply Qcnot_le_lt. intro L. apply Qc_leb_le in L. congruence.
  - destruct (Qc_leb x y) eqn:E; [ | reflexivity ].
    apply Qc_leb_le in E. exfalso. exact (Qclt_not_le _ _ H E).
Qed.

(** ** The record classifier *)



(** C9.  Whatever the row holds, [derive_status] answers with one of the
    three status texts, and so does the classification of a raw row whose
    columns may be absent, missing or malformed; the three texts are
    pairwise different, so exactly one status holds. *)
Theorem derive_status_three_valued :
  (forall row, In (derive_status row) [ON_TIME; LATE; NOT_SENT]) /\
  (forall r, In (status_of r) [ON_TIME; LATE; NOT_SENT]) /\
  NoDup [ON_TIME; LATE; NOT_SENT].
Proof.
  assert (A : forall row, In (derive_status row) [ON_TIME; LATE; NOT_SENT]).
  { intros [s t d]. unfold derive_status. simpl.
    destruct s; simpl; [ | now auto ].
    destruct t; simpl; [ now auto | ].
    destruct d as [[i [x | ]] | ]; simpl; try (destruct i; simpl); auto.
    destruct (gt_const x (z2q 0)); auto. }
  split; [ exact A | split ].
  - intro r. apply A.
  - repeat constructor; simpl; intuition discriminate.
Qed.

(** ** Marker colour *)

Lemma color_hex_in_four (pct : pyfloat) (terl tdk : Z) :
  In (color_hex pct terl tdk) [GREEN; YELLOW; RED; BLACK].
Proof.
  unfold color_hex.
  destruct (ge_const pct _); [ simpl; auto | ].
  destruct (ge_const pct _); [ simpl; auto | ].
  destruct (lt_const pct _ && _)%bool; simpl; auto.
Qed.

(** C8.  On every triple the colour decision is the priority chain:
    [pct >= 0.8] green; else [0.3 <= pct < 0.8] yellow; else [pct < 0.3]
    with more late than unsent months red; otherwise black.  The answer is
    always one of the four colours, which are pairwise different, so every
    triple has exactly one tier; and the decision reads the triple alone,
    so equal triples get equal colours. *)
Theorem color_hex_tiers :
  (forall (pct : Qc) (terl tdk : Z),
     ((Q2Qc (8 # 10) <= pct)%Qc ->
        color_hex (Finite pct) terl tdk = GREEN) /\
     ((Q2Qc (3 # 10) <= pct)%Qc -> (pct < Q2Qc (8 # 10))%Qc ->
        color_hex (Finite pct) terl tdk = YELLOW) /\
     ((pct < Q2Qc (3 # 10))%Qc -> terl > tdk ->
        color_hex (Finite pct) terl tdk = RED) /\
     ((pct < Q2Qc (3 # 10))%Qc -> terl <= tdk ->
        color_hex (Finite pct) terl tdk = BLACK)) /\
  (forall (pct : pyfloat) (terl tdk : Z),
     In (color_hex pct terl tdk) [GREEN; YELLOW; RED; BLACK]) /\
  NoDup [GREEN; YELLOW; RED; BLACK] /\
  (forall pct pct' terl terl' tdk tdk',
     pct = pct' -> terl = terl' -> tdk = tdk' ->
     color_hex pct terl tdk = color_hex pct' terl' tdk').
Proof.
  split; [ | split; [ exact color_hex_in_four | split ] ].
  - intros pct terl tdk. unfold color_hex, ge_const, lt_const.
    assert (M : (Q2Qc (3 # 10) < Q2Qc (8 # 10))%Qc) by reflexivity.
    repeat split.
    + intro G. apply Qc_leb_le in G. now rewrite G.
    + intros Y1 Y2. apply Qc_leb_le in Y1. apply Qc_leb_gt in Y2.
      now rewrite Y2, Y1.
    + intros R1 R2.
      assert (A : Qc_leb (Q2Qc (8 # 10)) pct = false).
      { apply Qc_leb_gt. eapply Qclt_trans; eassumption. }
      assert (B : Qc_leb (Q2Qc (3 # 10)) pct = false) by now apply Qc_leb_gt.
      assert (C : Qc_ltb pct (Q2Qc (3 # 10)) = true) by now apply Qc_ltb_lt.
      assert (D : (terl >? tdk) = true) by (apply Z.gtb_lt; lia).
      now rewrite A, B, C, D.
    + intros K1 K2.
      assert (A : Qc_leb (Q2Qc (8 # 10)) pct = false).
      { apply Qc_leb_gt. eapply Qclt_trans; eassumption. }
      assert (B : Qc_leb (Q2Qc (3 # 10)) pct = false) by now apply Qc_leb_gt.
      assert (D : (terl >? tdk) = false).
      { destruct (terl >? tdk) eqn:E; [ apply Z.gtb_lt in E; lia | reflexivity ]. }
      rewrite A, B, D. now rewrite andb_false_r.
  - repeat constructor; simpl; intuition discriminate.
  - intros; subst; reflexivity.
Qed.

(** One triple for each tier. *)
Lemma color_hex_tiers_at_triples :
  color_hex (Finite (Q2Qc (9 # 10))) 0 0 = GREEN /\
  color_hex (Finite (Q2Qc (1 # 2))) 5 0 = YELLOW /\
  color_hex (Finite (Q2Qc (1 # 10))) 3 1 = RED /\
  color_hex (Finite (Q2Qc (1 # 10))) 1 3 = BLACK.
Proof.
  destruct color_hex_tiers as (T & _).
  split; [ | split; [ | split ] ].
  - destruct (T (Q2Qc (9 # 10)) 0 0) as (G & _). apply G. now vm_compute.
  - destruct (T (Q2Qc (1 # 2)) 5 0) as (_ & Y & _). apply Y; now vm_compute.
  - destruct (T (Q2Qc (1 # 10)) 3 1) as (_ & _ & R & _). apply R; now vm_compute.
  - destruct (T (Q2Qc (1 # 10)) 1 3) as (_ & _ & _ & K). apply K; now vm_compute.
Defined.

(** ** Percentages *)

Lemma z2q_this (z : Z) : (this (z2q z) == inject_Z z)%Q.
Proof. unfold z2q, Q2Qc. cbn [this]. apply Qred_correct. Qed.

Lemma Qc_eqb_eq (x y : Qc) : Qc_eqb x y = true <-> x = y.
Proof.
  unfold Qc_eqb. rewrite Qeq_bool_iff. split.
  - apply Qc_is_canon.
  - now intros ->.
Qed.

Lemma z2q_inj (x y : Z) : z2q x = z2q y -> x = y.
Proof.
  intro E.
  assert (H : (inject_Z x == inject_Z y)%Q) by (rewrite <- !z2q_this; now rewrite E).
  unfold Qeq in H. simpl in H. lia.
Qed.

Lemma z2q_eq_zero (z : Z) : Qc_eqb (z2q z) (z2q 0) = (z =? 0).
Proof.
  destruct (Z.eqb_spec z 0) as [-> | N].
  - now apply Qc_eqb_eq.
  - destruct (Qc_eqb (z2q z) (z2q 0)) eqn:E; [ | reflexivity ].
    apply Qc_eqb_eq, z2q_inj in E. contradiction.
Qed.

Lemma Qcdiv_this (x y : Qc) : (this (x / y)%Qc == this x / this y)%Q.
Proof.
  unfold Qcdiv, Qcmult, Qcinv, Q2Qc. cbn [this].
  rewrite !Qred_correct. reflexivity.
Qed.

(** A part of a positive whole, as a fraction, lies between 0 and 1. *)
Lemma ratio_bounds (a t : Z) :
  0 <= a <= t -> 0 < t ->
  (z2q 0 <= z2q a / z2q t)%Qc /\ (z2q a / z2q t <= z2q 1)%Qc.
Proof.
  intros [A1 A2] T.
  assert (P : (0 < inject_Z t)%Q) by (unfold Qlt; simpl; lia).
  unfold Qcle. rewrite Qcdiv_this, !z2q_this. split.
  - apply Qle_shift_div_l; [ exact P | ].
    rewrite <- inject_Z_mult, <- Zle_Qle. lia.
  - apply Qle_shift_div_r; [ exact P | ].
    rewrite <- inject_Z_mult, <- Zle_Qle. lia.
Qed.

(** C6.  For all counts of on-time, late and unsent months the percentage
    of either page is a finite number between 0 and 1, and it is 0 when
    the three counts are all zero: the division by a zero total yields
    [nan], never a fault, and [fillna(0)] turns it into 0.  Both pages
    compute the same percentage. *)
Theorem pct_tepat_in_unit_interval :
  forall tepat terlambat tidak : nat,
    (exists q, pct_tepat_tahunan tepat terlambat tidak = Finite q /\
               (z2q 0 <= q)%Qc /\ (q <= z2q 1)%Qc /\
               ((tepat + terlambat + tidak)%nat = 0%nat -> q = z2q 0)) /\
    (exists q, pct_tepat_performa tepat terlambat tidak = Finite q /\
               (z2q 0 <= q)%Qc /\ (q <= z2q 1)%Qc /\
               ((tepat + terlambat + tidak)%nat = 0%nat -> q = z2q 0)) /\
    pct_tepat_tahunan tepat terlambat tidak
    = pct_tepat_performa tepat terlambat tidak.
Proof.
  intros a b c.
  unfold pct_tepat_tahunan, pct_tepat_performa, total_tahunan,
    float_of_count, replace_zero_nan.
  rewrite z2q_eq_zero.
  destruct (Z.eqb_spec (Z.of_nat (a + b + c)) 0) as [E | N].
  - assert (A : a = 0%nat) by lia. subst a.
    repeat split; exists (z2q 0); repeat split; discriminate.
  - cbn [fillna_zero column_div].
    rewrite z2q_eq_zero.
    destruct (Z.eqb_spec (Z.of_nat (a + b + c)) 0) as [E | _]; [ contradiction | ].
    cbn [fillna_zero].
    destruct (ratio_bounds (Z.of_nat a) (Z.of_nat (a + b + c))) as [L U];
      try lia.
    repeat split; try (eexists; repeat split; [ exact L | exact U | lia ]).
Qed.

(** A station with no recognised month has percentage zero on both pages. *)
Lemma pct_tepat_of_no_month :
  pct_tepat_tahunan 0 0 0 = Finite (z2q 0) /\
  pct_tepat_performa 0 0 0 = Finite (z2q 0).
Proof.
  destruct (pct_tepat_in_unit_interval 0 0 0)
    as ((q & E & _ & _ & Z) & (q' & E' & _ & _ & Z') & _).
  rewrite E, E', (Z eq_refl), (Z' eq_refl). split; reflexivity.
Defined.

(** ** Strings: trimming and case *)

(** A fact about one character, settled on each of the 256. *)
Ltac by_all_chars c :=
  destruct c as [[|] [|] [|] [|] [|] [|] [|] [|]];
  try discriminate; reflexivity.

Lemma is_space_upper (c : ascii) : is_space (upper_char c) = is_space c.
Proof. by_all_chars c. Qed.

Lemma upper_char_idem (c : ascii) : upper_char (upper_char c) = upper_char c.
Proof. by_all_chars c. Qed.

Lemma upper_idem (s : string) : upper (upper s) = upper s.
Proof.
  unfold upper.
  induction s as [ | c r IH]; simpl; [ reflexivity | ].
  rewrite upper_char_idem. f_equal. exact IH.
Qed.

Lemma lstrip_upper (s : string) : lstrip (upper s) = upper (lstrip s).
Proof.
  unfold lstrip, upper.
  induction s as [ | c r IH]; simpl; [ reflexivity | ].
  rewrite is_space_upper.
  destruct (is_space c); [ | reflexivity ].
  destruct (span is_space r), (span is_space (map_str upper_char r)).
  exact IH.
Qed.

Lemma rstrip_upper (s : string) : rstrip (upper s) = upper (rstrip s).
Proof.
  unfold upper.
  induction s as [ | c r IH]; simpl; [ reflexivity | ].
  rewrite IH, is_space_upper.
  destruct (rstrip r); simpl; [ now destruct (is_space c) | reflexivity ].
Qed.

Lemma strip_upper (s : string) : strip (upper s) = upper (strip s).
Proof. unfold strip. now rewrite lstrip_upper, rstrip_upper. Qed.

Lemma rstrip_cons_nonspace (c : ascii) (r : string) :
  is_space c = false -> rstrip (String c r) = String c (rstrip r).
Proof.
  intro H. simpl. rewrite H. now destruct (rstrip r).
Qed.

Lemma rstrip_cons (c : ascii) (r : string) :
  rstrip (String c r) =
  match rstrip r with
  | EmptyString => if is_space c then EmptyString else String c EmptyString
  | r' => String c r'
  end.
Proof. reflexivity. Qed.

Lemma rstrip_idem (s : string) : rstrip (rstrip s) = rstrip s.
Proof.
  induction s as [ | c r IH]; [ reflexivity | ].
  rewrite rstrip_cons.
  destruct (rstrip r) as [ | d r'] eqn:E.
  - destruct (is_space c) eqn:S; [ reflexivity | ].
    rewrite rstrip_cons. simpl. now rewrite S.
  - rewrite rstrip_cons, IH. reflexivity.
Qed.

(** What [lstrip] leaves does not start with a space. *)
Lemma lstrip_head (s : string) :
  match lstrip s with
  | EmptyString => True
  | String c _ => is_space c = false
  end.
Proof.
  unfold lstrip.
  induction s as [ | c r IH]; simpl; [ exact I | ].
  destruct (is_space c) eqn:S; simpl; [ | exact S ].
  now destruct (span is_space r).
Qed.

Lemma lstrip_nonspace (c : ascii) (r : string) :
  is_space c = false -> lstrip (String c r) = String c r.
Proof. intro H. unfold lstrip. simpl. now rewrite H. Qed.

Lemma strip_idem (s : string) : strip (strip s) = strip s.
Proof.
  unfold strip.
  pose proof (lstrip_head s) as H.
  destruct (lstrip s) as [ | c r]; [ reflexivity | ].
  rewrite (rstrip_cons_nonspace c r H), (lstrip_nonspace _ _ H).
  rewrite (rstrip_cons_nonspace _ _ H). now rewrite rstrip_idem.
Qed.

(** Trimming and upper-casing a text a second time changes nothing. *)
Lemma upper_strip_idem (t : string) :
  upper (strip (upper (strip t))) = upper (strip t).
Proof. now rewrite strip_upper, strip_idem, upper_idem. Qed.

(** ** Month cells *)

Lemma prefix_app_l (a b s : string) :
  prefix (a ++ b) s = true -> prefix a s = true.
Proof.
  revert s. induction a as [ | c a IH]; intros s H.
  - now destruct s.
  - destruct s as [ | d s]; [ discriminate | ].
    simpl in H |- *. destruct (ascii_dec c d); [ now apply IH | discriminate ].
Qed.

Lemma contains_app_l (a b s : string) :
  contains (a ++ b) s = true -> contains a s = true.
Proof.
  induction s as [ | c r IH]; cbn [contains]; intro H.
  - apply orb_true_iff in H. destruct H as [H | H]; [ | discriminate ].
    apply prefix_app_l in H. now rewrite H.
  - apply orb_true_iff in H. apply orb_true_iff.
    destruct H as [H | H]; [ left; now apply prefix_app_l in H | right; auto ].
Qed.

Lemma no_tidak_mengirim (s : string) :
  contains "TIDAK" s = false -> contains "TIDAK MENGIRIM" s = false.
Proof.
  intro H. destruct (contains "TIDAK MENGIRIM" s) eqn:E; [ | reflexivity ].
  apply (contains_app_l "TIDAK" " MENGIRIM") in E. congruence.
Qed.

Lemma norm_cell_fixed (x : cell) :
  norm_cell x = ON_TIME \/ norm_cell x = LATE \/ norm_cell x = NOT_SENT \/
  upper (strip (norm_cell x)) = norm_cell x.
Proof.
  destruct x as [ | t]; [ now repeat right | ].
  unfold norm_cell.
  destruct (contains "TEPAT" _); [ now left | ].
  destruct (contains "TERLAMBAT" _); [ now (right; left) | ].
  destruct (_ || _ || _)%bool.
  - destruct (_ || _)%bool; [ now (right; right; left) | ].
    repeat right. apply upper_strip_idem.
  - repeat right. apply upper_strip_idem.
Qed.

Lemma hitung_cons (v : string) (row : list string) (kata : string) :
  hitung (v :: row) kata =
  ((if String.eqb (upper (strip v)) kata then 1 else 0) + hitung row kata)%nat.
Proof.
  unfold hitung. simpl. now destruct (String.eqb _ kata).
Qed.

Lemma count_eq_cons (v : string) (row : list string) (kata : string) :
  count_eq (v :: row) kata =
  ((if String.eqb v kata then 1 else 0) + count_eq row kata)%nat.
Proof.
  unfold count_eq. simpl. now destruct (String.eqb v kata).
Qed.

(** C2.  The yearly-map normaliser tests for a dash and for the empty
    text, and its comment says that an empty cell is to count as not
    sending, but the branch returns the text as it is: a cell "-", a
    blank cell and "N/A" come back unchanged and are counted in none of
    the three counts of the yearly map, while the station-performance
    normaliser maps the same cells to NOT_SENT and counts them.  A
    missing cell gives the empty text in both. *)
Theorem norm_cell_passes_blank_and_dash :
  norm_cell (Text "-") = "-" /\ "-" <> NOT_SENT /\
  norm_cell (Text " ") = "" /\ "" <> NOT_SENT /\
  norm_cell (Text "N/A") = "N/A" /\ "N/A" <> NOT_SENT /\
  norm_status_cell (Text "-") = NOT_SENT /\
  norm_status_cell (Text " ") = NOT_SENT /\
  norm_status_cell (Text "N/A") = NOT_SENT /\
  (let row := [Text "-"; Text " "; Text "N/A"] in
   hitung (map norm_cell row) NOT_SENT = 0%nat /\
   count_eq (map norm_status_cell row) NOT_SENT = 3%nat) /\
  norm_cell NA = "" /\ norm_status_cell NA = "".
Proof. repeat split; try reflexivity; discriminate. Qed.

(** ** Coordinate columns *)

Lemma find_app {A : Type} (p : A -> bool) (l1 l2 : list A) :
  find p (l1 ++ l2)%list =
  match find p l1 with
  | Some x => Some x
  | None => find p l2
  end.
Proof.
  induction l1 as [ | a l1 IH]; simpl; [ reflexivity | ].
  now destruct (p a).
Qed.

(** The loop keeps, for each axis, the last column that satisfies the
    test, or what it started from. *)
Lemma coord_scan (cols : list string) (st : option string * option string) :
  fold_left coord_step cols st =
  (match find is_lat (rev cols) with Some c => Some c | None => fst st end,
   match find is_lon (rev cols) with Some c => Some c | None => snd st end).
Proof.
  revert st. induction cols as [ | c cs IH]; intros st; simpl.
  - now destruct st.
  - rewrite IH, !find_app. unfold coord_step. simpl.
    destruct (find is_lat (rev cs)), (find is_lon (rev cs));
      destruct (is_lat c), (is_lon c); reflexivity.
Qed.

Lemma mem_In (x : string) (xs : list string) : mem x xs = true <-> In x xs.
Proof.
  unfold mem. rewrite existsb_exists. split.
  - intros (y & I & E). apply String.eqb_eq in E. now subst.
  - intro I. exists x. split; [ exact I | apply String.eqb_refl ].
Qed.

Lemma mem_false (x : string) (xs : list string) :
  mem x xs = false <-> ~ In x xs.
Proof.
  rewrite <- mem_In. destruct (mem x xs); split; congruence.
Qed.

Lemma py_or_found (p : string -> bool) (l : list string) (b : option string) :
  p "" = false ->
  (find p l = None -> b = None) ->
  py_or (find p l) b = find p l.
Proof.
  intros E N. destruct (find p l) as [c | ] eqn:F.
  - apply find_some in F. destruct c; [ | reflexivity ].
    destruct F as [_ F]. congruence.
  - simpl. now apply N.
Qed.

(** The code keeps the last of two latitude columns, not the first. *)
Lemma detect_coords_keeps_last :
  detect_coords ["lat"; "latitude"; "lon"; "lng"]
  = (Some "latitude", Some "lng") /\
  find is_lat ["lat"; "latitude"; "lon"; "lng"] = Some "lat" /\
  find is_lon ["lat"; "latitude"; "lon"; "lng"] = Some "lon".
Proof. repeat split. Qed.

(** C3, as the code has it.  A header is a latitude column when its
    trimmed, lower-cased name is [lat], [latitude], [coord_lat] or [y], or
    starts with [lat]; a longitude column when that name is [lon], [lng],
    [longitude], [coord_lon] or [x], or starts with [lon] or [lng].  For
    each axis the column selected is the last one, in header order, that
    satisfies the test, and none when no column does. *)
Theorem detect_coords_last_match :
  (forall c, is_lat c = true <->
     In (lower (strip c)) ["lat"; "latitude"; "coord_lat"; "y"] \/
     take 3 (lower (strip c)) = "lat") /\
  (forall c, is_lon c = true <->
     In (lower (strip c)) ["lon"; "lng"; "longitude"; "coord_lon"; "x"] \/
     In (take 3 (lower (strip c))) ["lon"; "lng"]) /\
  (forall cols,
     detect_coords cols = (find is_lat (rev cols), find is_lon (rev cols))).
Proof.
  split; [ | split ].
  - intro c. unfold is_lat. rewrite orb_true_iff, mem_In, String.eqb_eq.
    intuition congruence.
  - intro c. unfold is_lon. now rewrite orb_true_iff, !mem_In.
  - intro cols. unfold detect_coords. rewrite coord_scan. cbn [fst snd].
    replace (match find is_lat (rev cols) with Some c => Some c | None => None end)
      with (find is_lat (rev cols)) by now destruct (find is_lat (rev cols)).
    replace (match find is_lon (rev cols) with Some c => Some c | None => None end)
      with (find is_lon (rev cols)) by now destruct (find is_lon (rev cols)).
    f_equal; apply py_or_found; try reflexivity; intro N.
    + destruct (mem "LAT" cols) eqn:M; [ | reflexivity ].
      apply mem_In, in_rev in M.
      pose proof (find_none _ _ N _ M) as F. discriminate F.
    + destruct (mem "LON" cols) eqn:M; [ | reflexivity ].
      apply mem_In, in_rev in M.
      pose proof (find_none _ _ N _ M) as F. discriminate F.
Qed.

(** ** Month columns *)

Lemma month_prefix_code (m m' c : string) :
  month_prefix m c = true -> month_prefix m' c = true ->
  month_code m = month_code m'.
Proof.
  unfold month_prefix, month_code. rewrite !String.eqb_eq. congruence.
Qed.

Lemma month_codes_distinct : NoDup (map month_code MONTH_ABBR).
Proof.
  repeat constructor; simpl; intuition discriminate.
Qed.

Lemma scan_month_first (m : string) (cols res : list string) :
  (forall c, In c res -> month_prefix m c = false) ->
  scan_month m cols res = (res ++ first_with_prefix m cols)%list.
Proof.
  intro F. unfold first_with_prefix.
  induction cols as [ | c cs IH]; simpl.
  - now rewrite app_nil_r.
  - destruct (month_prefix m c) eqn:P; [ | exact IH ].
    destruct (mem c res) eqn:M; [ | reflexivity ].
    apply mem_In, F in M. congruence.
Qed.

Lemma detect_fold (cols ms res : list string) :
  NoDup (map month_code ms) ->
  (forall c m, In c res -> In m ms -> month_prefix m c = false) ->
  fold_left (fun res m => scan_month m cols res) ms res
  = (res ++ flat_map (fun m => first_with_prefix m cols) ms)%list.
Proof.
  revert res. induction ms as [ | m ms IH]; intros res D F; simpl.
  - now rewrite app_nil_r.
  - inversion D as [ | ? ? N D']; subst.
    rewrite scan_month_first by (intros c I; apply (F c m I); now left).
    rewrite IH, app_assoc; [ reflexivity | exact D' | ].
    intros c m' I I'. apply in_app_or in I. destruct I as [I | I].
    + apply (F c m' I). now right.
    + unfold first_with_prefix in I.
      destruct (find (month_prefix m) cols) as [c0 | ] eqn:E; [ | contradiction ].
      destruct I as [-> | []]. apply find_some in E. destruct E as [_ E].
      destruct (month_prefix m' c) eqn:P; [ | reflexivity ].
      exfalso. apply N. rewrite (month_prefix_code _ _ _ E P).
      now apply in_map.
Qed.

Lemma detect_month_columns_first (cols : list string) :
  detect_month_columns cols
  = flat_map (fun m => first_with_prefix m cols) MONTH_ABBR.
Proof.
  unfold detect_month_columns.
  rewrite detect_fold; [ reflexivity | exact month_codes_distinct | ].
  intros c m [].
Qed.

Lemma next_month_first (cols : list string) :
  flat_map (fun m => next_month m cols) MONTH_ABBR
  = flat_map (fun m => first_with_prefix m cols) MONTH_ABBR.
Proof.
  assert (E : forall m, In m MONTH_ABBR ->
                next_month m cols = first_with_prefix m cols).
  { intros m I. unfold next_month, first_with_prefix.
    destruct (find (month_prefix m) cols) as [[ | a r] | ] eqn:F;
      try reflexivity.
    apply find_some in F. destruct F as [_ F]. exfalso.
    simpl in I. repeat (destruct I as [<- | I]; [ discriminate F | ]).
    exact I. }
  induction MONTH_ABBR as [ | m ms IH]; simpl; [ reflexivity | ].
  rewrite E by now left. f_equal. apply IH. intros; apply E; now right.
Qed.

(** What one month adds in the fallback: a chunk of columns that all hold
    the month code, every such column of [possible] being present
    afterwards, none twice. *)
Lemma fallback_step_chunk (m : string) (possible ordered : list string) :
  exists chunk,
    fallback_step possible ordered m = (ordered ++ chunk)%list /\
    Forall (fun c => month_inside m c = true /\ In c possible) chunk /\
    (NoDup ordered -> NoDup (ordered ++ chunk)) /\
    (forall c, In c possible -> month_inside m c = true ->
               In c (ordered ++ chunk)).
Proof.
  unfold fallback_step. revert ordered.
  induction possible as [ | c ps IH]; intro ordered; simpl.
  - exists []. rewrite app_nil_r. repeat split; auto. intros c [].
  - destruct (negb (mem c ordered) && month_inside m c)%bool eqn:G.
    + apply andb_true_iff in G. destruct G as [G1 G2].
      apply negb_true_iff, mem_false in G1.
      destruct (IH (ordered ++ [c])%list) as (ch & E & F & N & K).
      exists (c :: ch). rewrite E, <- app_assoc. simpl.
      repeat split.
      * constructor; [ split; [ exact G2 | now left ] | ].
        eapply Forall_impl; [ | exact F ]. simpl. intuition.
      * intro D. change (c :: ch) with ([c] ++ ch)%list. rewrite app_assoc.
        apply N. apply NoDup_app; [ exact D | repeat constructor; auto | ].
        intros x I [<- | []]. contradiction.
      * intros x [<- | I] M.
        -- apply in_or_app. right. now left.
        -- specialize (K x I M). now rewrite <- app_assoc in K.
    + destruct (IH ordered) as (ch & E & F & N & K).
      exists ch. rewrite E. repeat split; auto.
      * eapply Forall_impl; [ | exact F ]. simpl. intuition.
      * intros x [<- | I] M; [ | now apply K ].
        rewrite M, andb_true_r in G. apply negb_false_iff, mem_In in G.
        apply in_or_app. now left.
Qed.

Lemma fallback_fold (possible ms ordered : list string) :
  exists chunks,
    fold_left (fallback_step possible) ms ordered
    = (ordered ++ List.concat chunks)%list /\
    Forall2 (fun m chunk =>
               Forall (fun c => month_inside m c = true /\ In c possible) chunk)
      ms chunks /\
    (NoDup ordered -> NoDup (ordered ++ List.concat chunks)) /\
    (forall c m, In c possible -> In m ms -> month_inside m c = true ->
                 In c (ordered ++ List.concat chunks)).
Proof.
  revert ordered. induction ms as [ | m ms IH]; intro ordered; simpl.
  - exists []. simpl. rewrite app_nil_r. repeat split; auto.
    intros c m _ [].
  - destruct (fallback_step_chunk m possible ordered) as (ch & E & F & N & K).
    rewrite E.
    destruct (IH (ordered ++ ch)%list) as (chs & E' & F' & N' & K').
    exists (ch :: chs). rewrite E'. simpl. rewrite <- app_assoc.
    repeat split; auto.
    + intro D. rewrite app_assoc. auto.
    + intros c m' I [<- | I'] M; rewrite app_assoc.
      * apply in_or_app. left. now apply K.
      * now apply (K' c m').
Qed.

Lemma chunks_all (P : string -> string -> Prop) (Q : string -> Prop)
  (ms : list string) (chunks : list (list string)) :
  Forall2 (fun m chunk => Forall (fun c => P m c /\ Q c) chunk) ms chunks ->
  forall c, In c (List.concat chunks) -> Q c.
Proof.
  induction 1 as [ | m ch ms chs H F IH]; simpl; intros c I; [ contradiction | ].
  apply in_app_or in I. destruct I as [I | I]; [ | now apply IH ].
  rewrite Forall_forall in H. now apply H.
Qed.

(** The fallback keeps every header that has a month code somewhere
    inside, once, in chunks that follow the months from Jan to Des. *)
Lemma fallback_month_columns_spec (cols : list string) :
  (exists chunks,
     fallback_month_columns cols = List.concat chunks /\
     Forall2 (fun m chunk => Forall (fun c => month_inside m c = true) chunk)
       MONTH_ABBR chunks) /\
  NoDup (fallback_month_columns cols) /\
  (forall c, In c (fallback_month_columns cols) <->
             In c cols /\ exists m, In m MONTH_ABBR /\ month_inside m c = true).
Proof.
  unfold fallback_month_columns.
  set (possible := filter _ cols).
  assert (P : forall c, In c possible <->
                In c cols /\ exists m, In m MONTH_ABBR /\ month_inside m c = true).
  { intro c. unfold possible. rewrite filter_In. cbv beta.
    rewrite existsb_exists. reflexivity. }
  destruct (fallback_fold possible MONTH_ABBR []) as (chs & E & F & N & K).
  rewrite E. cbn [app] in *.
  split; [ | split ].
  - exists chs. split; [ reflexivity | ].
    eapply Forall2_impl; [ | exact F ].
    intros m ch H. eapply Forall_impl; [ | exact H ]. simpl. intuition.
  - apply N. constructor.
  - intro c. rewrite <- P. split.
    + intro I. exact (chunks_all _ _ _ _ F c I).
    + intro I. apply P in I as I'. destruct I' as (_ & m & Im & M).
      now apply (K c m).
Qed.

Lemma flat_map_nil {A B : Type} (f : A -> list B) (l : list A) :
  flat_map f l = [] <-> forall x, In x l -> f x = [].
Proof.
  induction l as [ | a l IH]; simpl.
  - split; [ intros _ x [] | reflexivity ].
  - split.
    + intros E x [<- | I]; apply app_eq_nil in E; destruct E as [E1 E2];
        [ exact E1 | now apply IH ].
    + intro H. rewrite (H a) by now left. apply IH. intros; apply H; now right.
Qed.

Lemma find_none_iff {A : Type} (p : A -> bool) (l : list A) :
  find p l = None <-> forall x, In x l -> p x = false.
Proof.
  split; [ apply find_none | ].
  induction l as [ | a l IH]; simpl; intro H; [ reflexivity | ].
  rewrite (H a) by now left. apply IH. intros; apply H; now right.
Qed.

Lemma detect_month_columns_nil (cols : list string) :
  detect_month_columns cols = [] <->
  forall m c, In m MONTH_ABBR -> In c cols -> month_prefix m c = false.
Proof.
  rewrite detect_month_columns_first, flat_map_nil.
  split.
  - intros H m c I Ic. specialize (H m I). unfold first_with_prefix in H.
    destruct (find (month_prefix m) cols) eqn:E; [ discriminate | ].
    now apply (find_none _ _ E).
  - intros H m I. unfold first_with_prefix.
    replace (find (month_prefix m) cols) with (@None string); [ reflexivity | ].
    symmetry. apply find_none_iff. intros c Ic. now apply H.
Qed.

(** With two headers that hold "jan" inside and none that starts with a
    month code, the fallback keeps both, not the first alone. *)
Lemma fallback_keeps_every_match :
  detect_month_columns ["Status Jan"; "Delta Jan"] = [] /\
  month_inside "Jan" "Status Jan" = true /\
  month_inside "Jan" "Delta Jan" = true /\
  bulan_cols ["Status Jan"; "Delta Jan"] = ["Status Jan"; "Delta Jan"] /\
  month_cols ["Status Jan"; "Delta Jan"] = ["Status Jan"; "Delta Jan"].
Proof. repeat split. Qed.

(** C7, as the code has it.  Both pages resolve the month columns alike.
    When some header starts with a month code, the result lists, for the
    months Jan to Des in this order and whatever the order of the headers,
    the first header whose first three characters are the code of the
    month, leaving out the months without one.  The fallback is used
    exactly when no header starts with a month code; it keeps every header
    with a month code anywhere inside (not the first alone), each once, in
    chunks that follow the months Jan to Des.  The headers
    [Des_2024, Jan_2024, status] resolve to [Jan_2024, Des_2024]. *)
Theorem month_columns_resolution :
  (forall cols,
     bulan_cols cols = month_cols cols /\
     detect_month_columns cols
     = flat_map (fun m => first_with_prefix m cols) MONTH_ABBR /\
     (detect_month_columns cols <> [] ->
        bulan_cols cols = detect_month_columns cols) /\
     (detect_month_columns cols = [] <->
        forall m c, In m MONTH_ABBR -> In c cols -> month_prefix m c = false) /\
     (detect_month_columns cols = [] ->
        bulan_cols cols = fallback_month_columns cols) /\
     (exists chunks,
        fallback_month_columns cols = List.concat chunks /\
        Forall2 (fun m chunk => Forall (fun c => month_inside m c = true) chunk)
          MONTH_ABBR chunks) /\
     NoDup (fallback_month_columns cols) /\
     (forall c, In c (fallback_month_columns cols) <->
        In c cols /\ exists m, In m MONTH_ABBR /\ month_inside m c = true)) /\
  bulan_cols ["Des_2024"; "Jan_2024"; "status"] = ["Jan_2024"; "Des_2024"].
Proof.
  split; [ | reflexivity ].
  intro cols.
  destruct (fallback_month_columns_spec cols) as (F1 & F2 & F3).
  split; [ | split; [ | split; [ | split; [ | split; [ | auto ] ] ] ] ].
  - unfold bulan_cols, month_cols.
    now rewrite next_month_first, <- detect_month_columns_first.
  - apply detect_month_columns_first.
  - unfold bulan_cols. now destruct (detect_month_columns cols).
  - apply detect_month_columns_nil.
  - unfold bulan_cols. now intros ->.
Qed.

(** The headers of the specification are resolved by their prefixes. *)
Lemma month_columns_of_example :
  bulan_cols ["Des_2024"; "Jan_2024"; "status"]
  = detect_month_columns ["Des_2024"; "Jan_2024"; "status"] /\
  month_cols ["Des_2024"; "Jan_2024"; "status"] = ["Jan_2024"; "Des_2024"].
Proof.
  destruct month_columns_resolution as (R & X).
  destruct (R ["Des_2024"; "Jan_2024"; "status"]) as (A & _ & B & _).
  split.
  - apply B. discriminate.
  - rewrite <- A. exact X.
Defined.

(** ** The duration parser *)

Lemma app_assoc_str (a b c : string) : (a ++ b) ++ c = a ++ (b ++ c).
Proof. induction a as [ | x a IH]; simpl; [ reflexivity | now rewrite IH ]. Qed.

Lemma span_app_all (p : ascii -> bool) (a r : string) :
  all_chars p a = true -> span p r = ("", r) -> span p (a ++ r) = (a, r).
Proof.
  intros A R. induction a as [ | c a IH]; simpl in *; [ exact R | ].
  apply andb_true_iff in A. destruct A as [A1 A2].
  now rewrite A1, (IH A2).
Qed.

Lemma rstrip_app_last (a : string) (c : ascii) :
  is_space c = false -> rstrip (a ++ String c "") = a ++ String c "".
Proof.
  intro H. induction a as [ | d a IH].
  - simpl. now rewrite H.
  - change (String d a ++ String c "") with (String d (a ++ String c "")).
    rewrite rstrip_cons, IH. now destruct a.
Qed.

Lemma prefix_head_neq (o c : ascii) (old s : string) :
  o <> c -> prefix (String o old) (String c s) = false.
Proof. intro N. simpl. now destruct (ascii_dec o c). Qed.

(** A replacement passes over leading characters that cannot start an
    occurrence. *)
Lemma replace_skip (p : ascii -> bool) (o : ascii) (old new a r : string) :
  p o = false -> all_chars p a = true ->
  replace (String o old) new (a ++ r) = a ++ replace (String o old) new r.
Proof.
  intros O A. unfold replace.
  induction a as [ | c a IH]; [ reflexivity | ].
  simpl in A. apply andb_true_iff in A. destruct A as [A1 A2].
  change (String c a ++ r) with (String c (a ++ r)).
  cbn [replace_from]. rewrite prefix_head_neq by congruence.
  cbn [append]. f_equal. now apply IH.
Qed.

Lemma digit_not_space (c : ascii) : is_digit c = true -> is_space c = false.
Proof. by_all_chars c. Qed.

Lemma digit_not_dash (c : ascii) : is_digit c = true -> c <> "-"%char.
Proof. intros H ->. discriminate H. Qed.

(** The digits of a decimal numeral. *)
Lemma digits_all (d : Decimal.uint) :
  all_chars is_digit (NilEmpty.string_of_uint d) = true.
Proof. induction d; simpl; auto. Qed.

Lemma filter_all (p : ascii -> bool) (s : string) :
  all_chars p s = true -> filter_str p s = s.
Proof.
  induction s as [ | c r IH]; simpl; [ reflexivity | ].
  intro A. apply andb_true_iff in A. destruct A as [A1 A2].
  now rewrite A1, IH.
Qed.

Lemma digits_nonempty (d : Decimal.uint) :
  d <> Decimal.Nil -> NilEmpty.string_of_uint d <> "".
Proof. destruct d; simpl; congruence. Qed.

Lemma int_py_digits (d : Decimal.uint) :
  d <> Decimal.Nil ->
  (String.length (NilEmpty.string_of_uint d) <= MAX_STR_DIGITS)%nat ->
  int_py (NilEmpty.string_of_uint d) = Some (Z.of_uint d).
Proof.
  intros N B. unfold int_py.
  rewrite (proj2 (Nat.ltb_ge _ _) B).
  replace (NilEmpty.string_of_uint d) with (NilZero.string_of_uint d)
    by now destruct d.
  now rewrite NilZero.usu.
Qed.

(** A numeral has at most as many decimal digits as binary ones. *)
Lemma little_double_digits (d : Decimal.uint) :
  (Decimal.nb_digits (Decimal.Little.double d) <= S (Decimal.nb_digits d))%nat /\
  (Decimal.nb_digits (Decimal.Little.succ_double d) <= S (Decimal.nb_digits d))%nat.
Proof.
  induction d as [ | d [IH1 IH2] | d [IH1 IH2] | d [IH1 IH2] | d [IH1 IH2]
                 | d [IH1 IH2] | d [IH1 IH2] | d [IH1 IH2] | d [IH1 IH2]
                 | d [IH1 IH2] | d [IH1 IH2] ]; simpl; lia.
Qed.

Lemma to_little_uint_digits (p : positive) :
  (Decimal.nb_digits (Pos.to_little_uint p) <= Pos.size_nat p)%nat.
Proof.
  induction p as [p IH | p IH | ]; simpl; [ | | lia ].
  - pose proof (proj2 (little_double_digits (Pos.to_little_uint p))). lia.
  - pose proof (proj1 (little_double_digits (Pos.to_little_uint p))). lia.
Qed.

Lemma size_nat_pow (p : positive) :
  2 ^ Z.of_nat (Pos.size_nat p) <= 2 * Z.pos p.
Proof.
  induction p as [p IH | p IH | ]; cbn [Pos.size_nat];
    [ | | now vm_compute ];
    rewrite Nat2Z.inj_succ, Z.pow_succ_r by lia; lia.
Qed.

Lemma digits_length (d : Decimal.uint) :
  String.length (NilEmpty.string_of_uint d) = Decimal.nb_digits d.
Proof. induction d; simpl; congruence. Qed.

(** A positive number in the range of a float prints in fewer digits than
    [int] accepts. *)
Lemma small_digits (p : positive) :
  Z.pos p < FLOAT_LIMIT ->
  (String.length (NilEmpty.string_of_uint (Pos.to_uint p)) <= MAX_STR_DIGITS)%nat.
Proof.
  intro H. rewrite digits_length. unfold Pos.to_uint.
  rewrite DecimalFacts.nb_digits_rev.
  pose proof (to_little_uint_digits p) as D.
  pose proof (size_nat_pow p) as S.
  assert (L : FLOAT_LIMIT < 2 ^ 1024) by reflexivity.
  assert (K : Z.of_nat (Pos.size_nat p) < 1026).
  { apply (Z.pow_lt_mono_r_iff 2); [ lia | lia | ].
    change (2 ^ 1026) with (4 * 2 ^ 1024). lia. }
  unfold MAX_STR_DIGITS. lia.
Qed.

(** [str(n)] is an optional dash and the digits of [|n|]. *)
Lemma str_of_int_shape (n : Z) :
  exists d, d <> Decimal.Nil /\ Z.of_uint d = Z.abs n /\
            str_of_int n
            = (if n <? 0 then "-" else "") ++ NilEmpty.string_of_uint d /\
            (Z.abs n < FLOAT_LIMIT ->
             (String.length (NilEmpty.string_of_uint d) <= MAX_STR_DIGITS)%nat).
Proof.
  destruct n as [ | p | p]; unfold str_of_int; simpl.
  - exists (Decimal.D0 Decimal.Nil). repeat split; try discriminate.
    intros _. unfold MAX_STR_DIGITS. simpl. lia.
  - exists (Pos.to_uint p). repeat split.
    + apply DecimalPos.Unsigned.to_uint_nonnil.
    + unfold Z.of_uint. now rewrite DecimalPos.Unsigned.of_to.
    + pose proof (DecimalPos.Unsigned.to_uint_nonnil p).
      now destruct (Pos.to_uint p).
    + apply small_digits.
  - exists (Pos.to_uint p). repeat split.
    + apply DecimalPos.Unsigned.to_uint_nonnil.
    + unfold Z.of_uint. now rewrite DecimalPos.Unsigned.of_to.
    + pose proof (DecimalPos.Unsigned.to_uint_nonnil p).
      now destruct (Pos.to_uint p).
    + apply small_digits.
Qed.

Lemma span_space_digits (ds r : string) :
  ds <> "" -> all_chars is_digit ds = true ->
  span is_space (ds ++ r) = ("", ds ++ r).
Proof.
  intros N A. destruct ds as [ | c ds]; [ contradiction | ].
  simpl in A |- *. apply andb_true_iff in A. destruct A as [A _].
  now rewrite (digit_not_space c A).
Qed.

Lemma match_here_digits (toks : list string) (ds r : string) :
  ds <> "" -> all_chars is_digit ds = true -> span is_digit r = ("", r) ->
  match_here toks (ds ++ r)
  = if unit_follows toks r then Some ds else None.
Proof.
  intros N A R.
  destruct ds as [ | c ds']; [ contradiction | ].
  assert (D : is_digit c = true).
  { simpl in A. now apply andb_true_iff in A. }
  unfold match_here. cbn [append].
  rewrite (proj2 (Ascii.eqb_neq c "-") (digit_not_dash c D)).
  change (String c (ds' ++ r)) with (String c ds' ++ r).
  rewrite (span_space_digits _ r N A), (span_app_all _ _ _ A R).
  reflexivity.
Qed.

Lemma match_here_dash_digits (toks : list string) (ds r : string) :
  ds <> "" -> all_chars is_digit ds = true -> span is_digit r = ("", r) ->
  match_here toks (String "-" (ds ++ r))
  = if unit_follows toks r then Some (String "-" ds) else None.
Proof.
  intros N A R. unfold match_here. cbn [Ascii.eqb Bool.eqb].
  rewrite (span_space_digits ds r N A), (span_app_all _ _ _ A R).
  destruct ds; [ contradiction | reflexivity ].
Qed.

(** A run of digits followed by no unit: the search goes on after it. *)
Lemma re_search_skip_digits (toks : list string) (ds r : string) :
  all_chars is_digit ds = true -> span is_digit r = ("", r) ->
  unit_follows toks r = false ->
  re_search toks (ds ++ r) = re_search toks r.
Proof.
  intros A R U. induction ds as [ | c ds IH]; [ reflexivity | ].
  change (String c ds ++ r) with (String c (ds ++ r)).
  cbn [re_search].
  change (String c (ds ++ r)) with (String c ds ++ r).
  rewrite (match_here_digits toks (String c ds) r) by (assumption || discriminate).
  rewrite U. apply IH. simpl in A. now apply andb_true_iff in A.
Qed.

Lemma re_search_digits_unit (toks : list string) (ds r : string) :
  ds <> "" -> all_chars is_digit ds = true -> span is_digit r = ("", r) ->
  unit_follows toks r = true ->
  re_search toks (ds ++ r) = Some ds.
Proof.
  intros N A R U.
  destruct (ds ++ r) eqn:E; cbn [re_search]; rewrite <- E;
    now rewrite (match_here_digits toks ds r N A R), U.
Qed.

(** The magnitude of a unit in [dash? digits rest], by what follows the
    digits. *)
Lemma magnitude_number (toks : list string) (neg : bool) (d : Decimal.uint)
  (r : string) :
  d <> Decimal.Nil ->
  (String.length (NilEmpty.string_of_uint d) <= MAX_STR_DIGITS)%nat ->
  span is_digit r = ("", r) ->
  magnitude toks (dash_of neg ++ NilEmpty.string_of_uint d ++ r)
  = if unit_follows toks r then Z.of_uint d else magnitude toks r.
Proof.
  intros N B R. unfold magnitude.
  pose proof (digits_all d) as A. pose proof (digits_nonempty d N) as E.
  set (ds := NilEmpty.string_of_uint d) in *.
  destruct (unit_follows toks r) eqn:U.
  - destruct neg; cbn [append dash_of].
    + cbn [re_search]. rewrite (match_here_dash_digits toks ds r E A R), U.
      unfold re_sub_nondigit. cbn [filter_str].
      replace (is_digit "-") with false by reflexivity.
      rewrite (filter_all _ _ A). unfold ds. now rewrite int_py_digits.
    + rewrite (re_search_digits_unit toks ds r E A R U).
      unfold re_sub_nondigit. rewrite (filter_all _ _ A).
      unfold ds. now rewrite int_py_digits.
  - destruct neg; cbn [append dash_of].
    + cbn [re_search]. rewrite (match_here_dash_digits toks ds r E A R), U.
      now rewrite (re_search_skip_digits toks ds r A R U).
    + now rewrite (re_search_skip_digits toks ds r A R U).
Qed.

(** A number of more digits than [int] accepts counts as zero: this is
    the [except] branch of the unit's block. *)
Lemma magnitude_too_long (toks : list string) (d : Decimal.uint) (r : string) :
  (MAX_STR_DIGITS < String.length (NilEmpty.string_of_uint d))%nat ->
  span is_digit r = ("", r) -> unit_follows toks r = true ->
  magnitude toks (NilEmpty.string_of_uint d ++ r) = 0.
Proof.
  intros B R U. unfold magnitude.
  pose proof (digits_all d) as A.
  assert (E : NilEmpty.string_of_uint d <> "").
  { intro Z. rewrite Z in B. simpl in B. lia. }
  rewrite (re_search_digits_unit toks _ r E A R U).
  unfold re_sub_nondigit, int_py. rewrite (filter_all _ _ A).
  now rewrite (proj2 (Nat.ltb_lt _ _) B).
Qed.

(** *** A unit that does not occur has magnitude zero *)

Lemma span_eq (p : ascii -> bool) (s : string) :
  s = fst (span p s) ++ snd (span p s).
Proof.
  induction s as [ | c r IH]; simpl; [ reflexivity | ].
  destruct (p c); [ | reflexivity ].
  destruct (span p r) as [a b]. simpl in *. now rewrite IH at 1.
Qed.

Lemma contains_prefix (t s : string) : prefix t s = true -> contains t s = true.
Proof. intro H. destruct s; simpl in *; now rewrite H. Qed.

Lemma contains_cons (t : string) (c : ascii) (s : string) :
  contains t s = true -> contains t (String c s) = true.
Proof. intro H. cbn [contains]. rewrite H. apply orb_true_r. Qed.

Lemma contains_app_r (t pre u : string) :
  contains t (lower u) = true -> contains t (lower (pre ++ u)) = true.
Proof.
  intro H. induction pre as [ | c pre IH]; [ exact H | ].
  unfold lower in *. cbn [append map_str]. now apply contains_cons.
Qed.

Lemma match_here_unit (toks : list string) (s g : string) :
  match_here toks s = Some g ->
  exists t, In t toks /\ contains t (lower s) = true.
Proof.
  unfold match_here.
  set (ds1 := match s with
              | String c r => if Ascii.eqb c "-" then ("-", r) else ("", s)
              | EmptyString => ("", s)
              end).
  assert (E1 : s = fst ds1 ++ snd ds1).
  { unfold ds1. destruct s as [ | c r]; [ reflexivity | ].
    destruct (Ascii.eqb_spec c "-") as [-> | _]; reflexivity. }
  destruct ds1 as [dash s1]. cbn [fst snd] in E1.
  pose proof (span_eq is_space s1) as E2.
  destruct (span is_space s1) as [ws s2]. cbn [fst snd] in E2.
  pose proof (span_eq is_digit s2) as E3.
  destruct (span is_digit s2) as [ds s3]. cbn [fst snd] in E3.
  pose proof (span_eq is_space s3) as E4.
  destruct ds; [ discriminate | ].
  destruct (existsb _ toks) eqn:X; [ | discriminate ].
  intros _. apply existsb_exists in X. destruct X as (t & I & P).
  exists t. split; [ exact I | ].
  unfold lstrip in P. apply contains_prefix in P.
  rewrite E1, E2, E3, E4.
  now repeat apply contains_app_r.
Qed.

Lemma re_search_unit (toks : list string) (s g : string) :
  re_search toks s = Some g ->
  exists t, In t toks /\ contains t (lower s) = true.
Proof.
  induction s as [ | c r IH]; cbn [re_search].
  - destruct (match_here toks "") eqn:M; [ | discriminate ].
    intros _. now apply (match_here_unit toks "" s).
  - destruct (match_here toks (String c r)) eqn:M.
    + intros _. now apply (match_here_unit toks _ s).
    + intro H. destruct (IH H) as (t & I & C). exists t. split; [ exact I | ].
      unfold lower in *. cbn [map_str]. now apply contains_cons.
Qed.

Lemma magnitude_absent (toks : list string) (s : string) :
  (forall t, In t toks -> contains t (lower s) = false) ->
  magnitude toks s = 0.
Proof.
  intro H. unfold magnitude.
  destruct (re_search toks s) as [g | ] eqn:E; [ | reflexivity ].
  destruct (re_search_unit toks s g E) as (t & I & C).
  rewrite (H t I) in C. discriminate.
Qed.

Lemma magnitude_nonneg (toks : list string) (s : string) :
  0 <= magnitude toks s.
Proof.
  unfold magnitude, int_py.
  destruct (re_search toks s); [ | lia ].
  destruct (Nat.ltb _ _); [ lia | ].
  destruct (NilZero.uint_of_string _); simpl; [ | lia ].
  unfold Z.of_uint. lia.
Qed.

(** *** The formula *)

Lemma Qcplus_this (x y : Qc) : (this (x + y)%Qc == this x + this y)%Q.
Proof. unfold Qcplus, Q2Qc. cbn [this]. apply Qred_correct. Qed.

Lemma Qcmult_this (x y : Qc) : (this (x * y)%Qc == this x * this y)%Q.
Proof. unfold Qcmult, Q2Qc. cbn [this]. apply Qred_correct. Qed.

Lemma z2q_add (x y : Z) : z2q (x + y) = (z2q x + z2q y)%Qc.
Proof.
  apply Qc_is_canon. rewrite Qcplus_this, !z2q_this, inject_Z_plus. reflexivity.
Qed.

Lemma z2q_mul (x y : Z) : z2q (x * y) = (z2q x * z2q y)%Qc.
Proof.
  apply Qc_is_canon. rewrite Qcmult_this, !z2q_this, inject_Z_mult. reflexivity.
Qed.

Lemma float_of_int_small (z : Z) :
  Z.abs z < FLOAT_LIMIT -> float_of_int z = Ret (z2q z).
Proof.
  intro H. unfold float_of_int.
  now rewrite (proj2 (Z.ltb_lt _ _) H).
Qed.

Lemma FLOAT_LIMIT_pos : 1 < FLOAT_LIMIT.
Proof. reflexivity. Qed.

Lemma total_hours_small (sign days hours mins secs : Z) :
  Z.abs sign <= 1 ->
  0 <= days * 24 + hours < FLOAT_LIMIT ->
  0 <= mins < FLOAT_LIMIT -> 0 <= secs < FLOAT_LIMIT ->
  total_hours sign days hours mins secs
  = Ret (hours_formula sign days hours mins secs).
Proof.
  intros S A M C. pose proof FLOAT_LIMIT_pos as L.
  unfold total_hours, hours_formula.
  rewrite !float_of_int_small by lia. cbn [bind].
  now rewrite z2q_add, z2q_mul.
Qed.

Lemma sign_of_cases (s : string) :
  (startswith "-" s = true -> sign_of s = -1) /\
  (startswith "-" s = false -> sign_of s = 1) /\
  Z.abs (sign_of s) <= 1.
Proof.
  unfold sign_of.
  destruct (startswith "-" s); destruct (startswith "+" s);
    repeat split; intros; try reflexivity; try discriminate; simpl; lia.
Qed.

(** A leading sign character survives the replacements. *)
Lemma normalise_head (c : ascii) (r : string) :
  (c = "-" \/ c = "+")%char ->
  normalise (String c r) = String c (normalise r).
Proof.
  intro H. unfold normalise.
  assert (K : forall o old new s, (o <> "-" -> o <> "+" ->
    replace (String o old) new (String c s)
    = String c (replace (String o old) new s))%char).
  { intros o old new s N1 N2. unfold replace. cbn [replace_from].
    rewrite prefix_head_neq; [ reflexivity | ].
    destruct H; congruence. }
  unfold EN_DASH, EM_DASH. rewrite !K by discriminate. reflexivity.
Qed.

Lemma startswith_char (a h : ascii) (s : string) :
  startswith (String a "") (String h s) = Ascii.eqb a h.
Proof.
  unfold startswith. simpl. destruct (ascii_dec a h) as [-> | N].
  - rewrite Ascii.eqb_refl. now destruct s.
  - symmetry. now apply Ascii.eqb_neq.
Qed.

Lemma prefix_split (a s : string) :
  prefix a s = true -> exists r, s = a ++ r.
Proof.
  revert s. induction a as [ | c a IH]; intros s H.
  - now exists s.
  - destruct s as [ | d s]; [ discriminate | ]. simpl in H.
    destruct (ascii_dec c d) as [<- | ]; [ | discriminate ].
    destruct (IH s H) as (r & ->). now exists r.
Qed.

Lemma prefix_app (a r : string) : prefix a (a ++ r) = true.
Proof.
  induction a as [ | c a IH]; simpl; [ now destruct r | ].
  destruct (ascii_dec c c); [ exact IH | contradiction ].
Qed.

Lemma replace_at_head (c : ascii) (old new r : string) :
  replace (String c old) new (String c old ++ r)
  = new ++ replace_from (String c old) new (String.length old) (old ++ r).
Proof.
  unfold replace. cbn [append replace_from].
  change (String c (old ++ r)) with (String c old ++ r).
  rewrite prefix_app. cbn [String.length]. now rewrite Nat.sub_succ, Nat.sub_0_r.
Qed.

Lemma replace_dash_head (o : ascii) (old new t : string) :
  (o <> "-")%char ->
  replace (String o old) new (String "-" t)
  = String "-" (replace (String o old) new t).
Proof.
  intro N. unfold replace. cbn [replace_from].
  now rewrite prefix_head_neq.
Qed.

Lemma replace_en_over_em (r : string) :
  replace EN_DASH "-" (EM_DASH ++ r) = EM_DASH ++ replace EN_DASH "-" r.
Proof. reflexivity. Qed.

(** A leading en or em dash becomes the leading ASCII dash. *)
Lemma normalise_unicode_dash (s : string) :
  (startswith EN_DASH s || startswith EM_DASH s)%bool = true ->
  startswith "-" (normalise s) = true.
Proof.
  intro H. apply orb_true_iff in H.
  destruct H as [H | H]; apply prefix_split in H; destruct H as (r & ->);
    unfold normalise.
  - unfold EN_DASH at 1 2. rewrite replace_at_head. cbn [append].
    unfold EM_DASH. rewrite !replace_dash_head by discriminate.
    apply startswith_char.
  - rewrite replace_en_over_em.
    unfold EM_DASH at 1 2. rewrite replace_at_head. cbn [append].
    rewrite !replace_dash_head by discriminate.
    apply startswith_char.
Qed.

Lemma parse_blank (x : string) :
  strip x = "" -> parse_delta_to_hours (Text x) = Ret None.
Proof. intro H. unfold parse_delta_to_hours. now rewrite H. Qed.

Lemma parse_nonblank (x : string) :
  strip x <> "" ->
  parse_delta_to_hours (Text x)
  = (let s := normalise (strip x) in
     h <- total_hours (sign_of s) (days_of s) (hours_of s)
            (mins_of s) (secs_of s) ;;
     Ret (Some h)).
Proof.
  intro H. unfold parse_delta_to_hours.
  destruct (String.eqb_spec (strip x) ""); [ contradiction | reflexivity ].
Qed.

(** *** Numbers with a unit: [n hrs] and [n hr] *)

Lemma number_chars (neg : bool) (d : Decimal.uint) :
  all_chars sign_char (dash_of neg ++ NilEmpty.string_of_uint d) = true.
Proof.
  assert (A : all_chars sign_char (NilEmpty.string_of_uint d) = true).
  { induction d; simpl; auto. }
  destruct neg; simpl; auto.
Qed.

Lemma number_head (neg : bool) (d : Decimal.uint) (r : string) :
  d <> Decimal.Nil ->
  exists c s, dash_of neg ++ NilEmpty.string_of_uint d ++ r = String c s /\
              sign_char c = true /\ (c = "-"%char <-> neg = true).
Proof.
  intro N. destruct neg; simpl.
  - eexists _, _. repeat split; reflexivity.
  - pose proof (digits_all d) as A. pose proof (digits_nonempty d N) as E.
    destruct (NilEmpty.string_of_uint d) as [ | c s]; [ contradiction | ].
    simpl in A. apply andb_true_iff in A. destruct A as [A _].
    exists c, (s ++ r). repeat split; try discriminate.
    + unfold sign_char. now rewrite A.
    + intros ->. discriminate A.
Qed.

Lemma sign_char_not_space (c : ascii) : sign_char c = true -> is_space c = false.
Proof. by_all_chars c. Qed.

Lemma strip_number (neg : bool) (d : Decimal.uint) (u : string) (c : ascii) :
  d <> Decimal.Nil -> is_space c = false ->
  strip (dash_of neg ++ NilEmpty.string_of_uint d ++ u ++ String c "")
  = dash_of neg ++ NilEmpty.string_of_uint d ++ u ++ String c "".
Proof.
  intros N C. unfold strip.
  destruct (number_head neg d (u ++ String c "") N) as (h & s & E & S & _).
  rewrite E, (lstrip_nonspace h s (sign_char_not_space h S)), <- E.
  rewrite <- !app_assoc_str. now apply rstrip_app_last.
Qed.

Lemma normalise_number (neg : bool) (d : Decimal.uint) (r : string) :
  normalise (dash_of neg ++ NilEmpty.string_of_uint d ++ r)
  = dash_of neg ++ NilEmpty.string_of_uint d ++ normalise r.
Proof.
  unfold normalise, EN_DASH, EM_DASH.
  rewrite <- !app_assoc_str.
  now rewrite !(replace_skip sign_char) by (reflexivity || apply number_chars).
Qed.

Lemma sign_of_number (neg : bool) (d : Decimal.uint) (r : string) :
  d <> Decimal.Nil ->
  sign_of (dash_of neg ++ NilEmpty.string_of_uint d ++ r)
  = if neg then -1 else 1.
Proof.
  intro N. destruct (number_head neg d r N) as (h & s & E & S & D).
  rewrite E. unfold sign_of. rewrite !startswith_char.
  destruct (Ascii.eqb_spec "-" h) as [<- | N1].
  - now rewrite (proj1 D eq_refl).
  - destruct neg; [ now destruct N1; symmetry; apply D | ].
    now destruct (Ascii.eqb "+" h).
Qed.

(** What the parser computes on [n jam] and on [n hari], the two texts
    that [n hrs] and [n hr] are normalised to. *)
Lemma parse_number_hrs (neg : bool) (d : Decimal.uint) :
  d <> Decimal.Nil ->
  (String.length (NilEmpty.string_of_uint d) <= MAX_STR_DIGITS)%nat ->
  parse_delta_to_hours
    (Text (dash_of neg ++ NilEmpty.string_of_uint d ++ " hrs"))
  = (h <- total_hours (if neg then -1 else 1) 0 (Z.of_uint d) 0 0 ;;
     Ret (Some h)).
Proof.
  intros N B.
  assert (S : strip (dash_of neg ++ NilEmpty.string_of_uint d ++ " hrs")
              = dash_of neg ++ NilEmpty.string_of_uint d ++ " hrs")
    by exact (strip_number neg d " hr" "s" N eq_refl).
  rewrite parse_nonblank.
  - rewrite S, normalise_number. cbv zeta.
    rewrite (sign_of_number neg d _ N).
    unfold days_of, hours_of, mins_of, secs_of.
    now rewrite !magnitude_number by (exact N || exact B || reflexivity).
  - rewrite S. destruct (number_head neg d " hrs" N) as (h & s & E & _).
    rewrite E. discriminate.
Qed.

Lemma parse_number_hr (neg : bool) (d : Decimal.uint) :
  d <> Decimal.Nil ->
  (String.length (NilEmpty.string_of_uint d) <= MAX_STR_DIGITS)%nat ->
  parse_delta_to_hours
    (Text (dash_of neg ++ NilEmpty.string_of_uint d ++ " hr"))
  = (h <- total_hours (if neg then -1 else 1) (Z.of_uint d) 0 0 0 ;;
     Ret (Some h)).
Proof.
  intros N B.
  assert (S : strip (dash_of neg ++ NilEmpty.string_of_uint d ++ " hr")
              = dash_of neg ++ NilEmpty.string_of_uint d ++ " hr")
    by exact (strip_number neg d " h" "r" N eq_refl).
  rewrite parse_nonblank.
  - rewrite S, normalise_number. cbv zeta.
    rewrite (sign_of_number neg d _ N).
    unfold days_of, hours_of, mins_of, secs_of.
    now rewrite !magnitude_number by (exact N || exact B || reflexivity).
  - rewrite S. destruct (number_head neg d " hr" N) as (h & s & E & _).
    rewrite E. discriminate.
Qed.

(** *** The claims on the parser *)

Lemma z2q_zero_div (c : Z) : (z2q 0 / z2q c)%Qc = z2q 0.
Proof.
  apply Qc_is_canon. rewrite Qcdiv_this, !z2q_this.
  unfold Qdiv. now rewrite Qmult_0_l.
Qed.

Lemma hours_formula_hours (sign hours : Z) :
  hours_formula sign 0 hours 0 0 = z2q (sign * hours).
Proof.
  unfold hours_formula. rewrite !z2q_zero_div, z2q_mul.
  replace (z2q 0) with 0%Qc by (apply Qc_is_canon; reflexivity). ring.
Qed.

Lemma hours_formula_days (sign days : Z) :
  hours_formula sign days 0 0 0 = z2q (sign * (days * 24)).
Proof.
  unfold hours_formula. rewrite !z2q_zero_div, !z2q_mul.
  replace (z2q 0) with 0%Qc by (apply Qc_is_canon; reflexivity). ring.
Qed.

(** C5.  The parser guards each [int(...)] with a [try], but not the
    conversion of the magnitudes to [float]: on a text that is not blank
    and holds a one and four hundred zeros of days it raises
    [OverflowError] instead of returning. *)
Theorem parse_delta_raises_on_huge_days :
  String.eqb (strip (huge_with " hari")) "" = false /\
  parse_delta_to_hours (Text (huge_with " hari")) = Raise OverflowError.
Proof. split; vm_compute; reflexivity. Qed.

(** C4.  The formula has no value on a text with a one and four hundred
    zeros of hours: [hours] is the integer [10^400], and adding the float
    [mins/60.0] to it raises [OverflowError], so the parser returns
    nothing where the formula gives [10^400] hours. *)
Theorem parse_delta_no_value_on_huge_hours :
  String.eqb (strip (huge_with " jam")) "" = false /\
  parse_delta_to_hours (Text (huge_with " jam")) = Raise OverflowError.
Proof. split; vm_compute; reflexivity. Qed.

(** The parser answers [None] exactly on a missing or blank text, when it
    answers at all. *)
Lemma parse_none_iff (text : cell) :
  parse_delta_to_hours text = Ret None <->
  text = NA \/ exists x, text = Text x /\ strip x = "".
Proof.
  split.
  - destruct text as [ | x]; [ now left | ]. intro H. right. exists x.
    split; [ reflexivity | ].
    destruct (String.eqb_spec (strip x) "") as [E | N]; [ exact E | ].
    rewrite (parse_nonblank x N) in H. cbv zeta in H.
    destruct (total_hours _ _ _ _ _); discriminate H.
  - intros [-> | (x & -> & B)]; [ reflexivity | now apply parse_blank ].
Qed.

(** A text that is not blank and names no unit parses to zero. *)
Lemma parse_no_unit (x : string) :
  strip x <> "" ->
  (forall t, In t ["hari"; "jam"; "mnt"; "min"; "dtk"; "sec"; "s"] ->
             contains t (lower (normalise (strip x))) = false) ->
  parse_delta_to_hours (Text x) = Ret (Some (z2q 0)).
Proof.
  intros N A. rewrite (parse_nonblank x N). cbv zeta.
  unfold days_of, hours_of, mins_of, secs_of.
  rewrite !magnitude_absent by (intros t I; apply A; simpl in *; tauto).
  destruct (sign_of_cases (normalise (strip x))) as (_ & _ & S).
  rewrite total_hours_small by (pose proof FLOAT_LIMIT_pos; lia).
  cbn [bind]. rewrite hours_formula_hours. do 3 f_equal. lia.
Qed.

(** The two durations of the specification: 51 hours, and minus one hour
    and a half. *)
Lemma parse_delta_examples :
  parse_delta_to_hours (Text "2 hari 3 jam") = Ret (Some (z2q 51)) /\
  parse_delta_to_hours (Text "-1 jam 30 mnt") = Ret (Some (Q2Qc (-3 # 2))).
Proof.
  split.
  - rewrite (parse_nonblank "2 hari 3 jam") by discriminate. cbv zeta.
    rewrite total_hours_small by (try split; now vm_compute).
    cbn [bind]. repeat f_equal; try (apply Qc_is_canon; reflexivity).
  - rewrite (parse_nonblank "-1 jam 30 mnt") by discriminate. cbv zeta.
    rewrite total_hours_small by (try split; now vm_compute).
    cbn [bind]. repeat f_equal; try (apply Qc_is_canon; reflexivity).
Qed.

(** [2 hrs] is two hours and [2 hr] is two days. *)
Lemma two_hrs_and_two_hr :
  parse_delta_to_hours (Text "2 hrs") = Ret (Some (z2q 2)) /\
  parse_delta_to_hours (Text "2 hr") = Ret (Some (z2q 48)).
Proof.
  split.
  - rewrite (parse_nonblank "2 hrs") by discriminate. cbv zeta.
    rewrite total_hours_small by (try split; now vm_compute).
    cbn [bind]. repeat f_equal; try (apply Qc_is_canon; reflexivity).
  - rewrite (parse_nonblank "2 hr") by discriminate. cbv zeta.
    rewrite total_hours_small by (try split; now vm_compute).
    cbn [bind]. repeat f_equal; try (apply Qc_is_canon; reflexivity).
Qed.

(** C10.  For the integer [10^400] the text [n hrs] does not parse to
    [n] hours: it is normalised to [n jam] as it should, but the
    conversion of the magnitude to [float] raises [OverflowError], so the
    parser returns nothing. *)
Theorem hrs_of_huge_integer_raises :
  str_of_int (10 ^ 400) ++ " hrs" = huge_with " hrs" /\
  parse_delta_to_hours (Text (str_of_int (10 ^ 400) ++ " hrs"))
  = Raise OverflowError.
Proof. split; vm_compute; reflexivity. Qed.

(** * Further properties of the code *)

(** ** The sheet address *)

Lemma group_here_nonempty (lit : string) (cls : ascii -> bool) (s g : string) :
  group_here lit cls s = Some g ->
  g <> "" /\ g = fst (span cls (drop (String.length lit) s)).
Proof.
  unfold group_here. destruct (prefix lit s); [|discriminate].
  destruct (fst (span cls (drop (String.length lit) s))) eqn:E; [discriminate|].
  intros H. inversion H. split; [discriminate | reflexivity].
Qed.

Lemma span_fst_all (p : ascii -> bool) (s : string) :
  all_chars p (fst (span p s)) = true.
Proof.
  induction s as [|c r IH]; [reflexivity|].
  simpl. destruct (p c) eqn:E; [|reflexivity].
  destruct (span p r) as [a b]. simpl in *. now rewrite E, IH.
Qed.

Lemma re_search_group_some (lit : string) (cls : ascii -> bool) (s g : string) :
  re_search_group lit cls s = Some g -> g <> "" /\ all_chars cls g = true.
Proof.
  induction s as [|c r IH]; simpl.
  - destruct (group_here lit cls "") eqn:E; [|discriminate].
    intros H. inversion H. subst. apply group_here_nonempty in E.
    destruct E as [N E]. split; [exact N|]. rewrite E. apply span_fst_all.
  - destruct (group_here lit cls (String c r)) eqn:E.
    + intros H. inversion H. subst. apply group_here_nonempty in E.
      destruct E as [N E]. split; [exact N|]. rewrite E. apply span_fst_all.
    + exact IH.
Qed.

Lemma re_search_group_skip (lit : string) (cls : ascii -> bool) (c : ascii)
  (r : string) :
  prefix lit (String c r) = false ->
  re_search_group lit cls (String c r) = re_search_group lit cls r.
Proof.
  intros H. cbn [re_search_group]. unfold group_here. now rewrite H.
Qed.

Lemma re_search_group_hit (lit : string) (cls : ascii -> bool) (g r : string) :
  g <> "" -> all_chars cls g = true -> span cls r = ("", r) ->
  re_search_group lit cls (lit ++ g ++ r) = Some g.
Proof.
  intros N A S.
  assert (G : group_here lit cls (lit ++ g ++ r) = Some g).
  { unfold group_here. rewrite prefix_app.
    assert (D : forall l x, drop (String.length l) (l ++ x) = x).
    { induction l as [|a l IH]; intros x; [now destruct x | apply IH]. }
    rewrite D, (span_app_all cls g r A S). simpl.
    destruct g; [contradiction | reflexivity]. }
  destruct (lit ++ g ++ r); simpl; now rewrite G.
Qed.

Lemma id_char_not_eq (c : ascii) : is_id_char c = true -> c <> "="%char.
Proof. by_all_chars c. Qed.

Lemma prefix_step (a c : ascii) (p s : string) :
  prefix (String a p) (String c s) = true -> a = c /\ prefix p s = true.
Proof.
  simpl. destruct (ascii_dec a c); [now split | discriminate].
Qed.

Lemma gid_not_in_id (u rest : string) :
  all_chars is_id_char u = true ->
  re_search_group "gid=" is_digit (u ++ String "/" (String "e" (String "x" rest)))
  = re_search_group "gid=" is_digit (String "/" (String "e" (String "x" rest))).
Proof.
  induction u as [|c u IH]; [reflexivity|].
  intros A. simpl in A. apply andb_prop in A. destruct A as [Hc A].
  change (String c u ++ ?x) with (String c (u ++ x)).
  rewrite re_search_group_skip; [exact (IH A)|].
  destruct (prefix "gid=" (String c (u ++ String "/" (String "e" (String "x" rest)))))
    eqn:P; [exfalso | reflexivity].
  apply prefix_step in P. destruct P as [_ P].
  destruct u as [|c1 u]; [apply prefix_step in P; destruct P; discriminate|].
  change (String c1 u ++ ?x) with (String c1 (u ++ x)) in P.
  apply prefix_step in P. destruct P as [_ P].
  destruct u as [|c2 u]; [apply prefix_step in P; destruct P; discriminate|].
  change (String c2 u ++ ?x) with (String c2 (u ++ x)) in P.
  apply prefix_step in P. destruct P as [_ P].
  destruct u as [|c3 u]; [apply prefix_step in P; destruct P; discriminate|].
  change (String c3 u ++ ?x) with (String c3 (u ++ x)) in P.
  apply prefix_step in P. destruct P as [E _].
  cbn [all_chars] in A.
  apply andb_prop in A. destruct A as [_ A].
  apply andb_prop in A. destruct A as [_ A].
  apply andb_prop in A. destruct A as [H3 _].
  apply id_char_not_eq in H3. now subst.
Qed.

Lemma export_url_sheet_id (sheet_id gid : string) :
  sheet_id <> "" -> all_chars is_id_char sheet_id = true ->
  re_search_group "/d/" is_id_char (gsheet_csv_export_url sheet_id gid)
  = Some sheet_id.
Proof.
  intros Ns As. unfold gsheet_csv_export_url. cbn [append].
  repeat (rewrite (re_search_group_skip "/d/") by reflexivity).
  exact (re_search_group_hit "/d/" is_id_char sheet_id
           ("/export?format=csv&gid=" ++ gid) Ns As eq_refl).
Qed.

Lemma app_nil_r_str (s : string) : s ++ "" = s.
Proof. induction s; simpl; congruence. Qed.

Lemma export_url_gid (sheet_id gid : string) :
  all_chars is_id_char sheet_id = true ->
  gid <> "" -> all_chars is_digit gid = true ->
  re_search_group "gid=" is_digit (gsheet_csv_export_url sheet_id gid)
  = Some gid.
Proof.
  intros As Ng Ag. unfold gsheet_csv_export_url. cbn [append].
  repeat (rewrite (re_search_group_skip "gid=") by reflexivity).
  rewrite gid_not_in_id by assumption.
  repeat (rewrite (re_search_group_skip "gid=") by reflexivity).
  pose proof (re_search_group_hit "gid=" is_digit gid "" Ng Ag eq_refl) as H.
  rewrite app_nil_r_str in H. exact H.
Qed.

(** X1: the address built by [gsheet_csv_export_url] is read back by
    [extract_sheet_id_and_gid]: for a non-empty sheet id made of letters,
    digits, dashes and underscores and a non-empty gid made of digits, the
    pair extracted from the export URL is the pair it was built from, and
    the address [load_sheet_csv_url] downloads for an export URL is that
    URL. *)
Theorem extract_of_export_url (sheet_id gid : string) :
  sheet_id <> "" -> all_chars is_id_char sheet_id = true ->
  gid <> "" -> all_chars is_digit gid = true ->
  extract_sheet_id_and_gid (gsheet_csv_export_url sheet_id gid)
  = (Some sheet_id, Some gid) /\
  csv_url_of (gsheet_csv_export_url sheet_id gid)
  = Some (gsheet_csv_export_url sheet_id gid).
Proof.
  intros Ns As Ng Ag.
  assert (E : extract_sheet_id_and_gid (gsheet_csv_export_url sheet_id gid)
              = (Some sheet_id, Some gid)).
  { unfold extract_sheet_id_and_gid.
    rewrite export_url_sheet_id, export_url_gid by assumption.
    destruct gid; [contradiction | reflexivity]. }
  split; [exact E|].
  unfold csv_url_of. rewrite E. destruct sheet_id; [contradiction | reflexivity].
Qed.

Lemma extract_of_export_url_default :
  extract_sheet_id_and_gid
    (gsheet_csv_export_url "1gJ1NcQAWl4bvJwvw591AMgwOkue9PqFJxw1CUuxXMIw" "0")
  = (Some "1gJ1NcQAWl4bvJwvw591AMgwOkue9PqFJxw1CUuxXMIw", Some "0") /\
  csv_url_of
    (gsheet_csv_export_url "1gJ1NcQAWl4bvJwvw591AMgwOkue9PqFJxw1CUuxXMIw" "0")
  = Some (gsheet_csv_export_url "1gJ1NcQAWl4bvJwvw591AMgwOkue9PqFJxw1CUuxXMIw" "0").
Proof.
  apply extract_of_export_url;
    [discriminate | reflexivity | discriminate | reflexivity].
Defined.

Lemma py_or_zero (gid : option string) :
  exists g, py_or gid (Some "0") = Some g /\ g <> "" /\
            (forall d, gid = Some d -> all_chars is_digit d = true ->
                       all_chars is_digit g = true).
Proof.
  destruct gid as [[|c r]|]; simpl.
  - exists "0". split; [reflexivity|]. split; [discriminate | reflexivity].
  - exists (String c r). split; [reflexivity|]. split; [discriminate|].
    intros d H. now inversion H.
  - exists "0". split; [reflexivity|]. split; [discriminate | reflexivity].
Qed.

Lemma contains_char_cons (a c : ascii) (s : string) :
  contains (String a "") (String c s) = (Ascii.eqb a c || contains (String a "") s)%bool.
Proof.
  cbn [contains]. now rewrite <- (startswith_char a c s).
Qed.

Lemma re_search_group_absent (lit : string) (cls : ascii -> bool) (s : string) :
  contains lit s = false -> re_search_group lit cls s = None.
Proof.
  induction s as [|c r IH]; intros H.
  - cbn [contains] in H. apply orb_false_elim in H. destruct H as [P _].
    cbn [re_search_group]. unfold group_here. now rewrite P.
  - cbn [contains] in H. apply orb_false_elim in H. destruct H as [P H].
    rewrite re_search_group_skip by exact P. now apply IH.
Qed.

Lemma split_on_head (sep : ascii) (a t : string) :
  contains (String sep "") a = false ->
  split_on sep (a ++ String sep t) = a :: split_on sep t.
Proof.
  induction a as [|c a IH]; intros H.
  - cbn [append split_on]. now rewrite Ascii.eqb_refl.
  - rewrite contains_char_cons in H. apply orb_false_elim in H.
    destruct H as [Hc H]. cbn [append split_on].
    rewrite Ascii.eqb_sym, Hc, (IH H). reflexivity.
Qed.

Lemma split_on_whole (sep : ascii) (a : string) :
  contains (String sep "") a = false -> split_on sep a = [a].
Proof.
  induction a as [|c a IH]; intros H; [reflexivity|].
  rewrite contains_char_cons in H. apply orb_false_elim in H.
  destruct H as [Hc H]. cbn [split_on].
  rewrite Ascii.eqb_sym, Hc, (IH H). reflexivity.
Qed.

Lemma contains_app_sep (sep : ascii) (a t : string) :
  contains (String sep "") (a ++ String sep t) = true.
Proof.
  induction a as [|c a IH].
  - cbn [append]. rewrite contains_char_cons, Ascii.eqb_refl. reflexivity.
  - cbn [append]. rewrite contains_char_cons, IH. apply orb_true_r.
Qed.

(** X3: the form "ID,gid".  For a text without "/d/", the sheet id is
    what stands before the first comma and the gid what stands between the
    first comma and the second (or the end), both trimmed; an empty gid
    becomes "0" and anything after a second comma is ignored. *)
Theorem extract_of_id_comma_gid (a b tail : string) :
  contains "/d/" (a ++ "," ++ b ++ tail) = false ->
  contains "," a = false -> contains "," b = false ->
  tail = "" \/ (exists r, tail = "," ++ r) ->
  extract_sheet_id_and_gid (a ++ "," ++ b ++ tail)
  = (Some (strip a),
     Some (if String.eqb (strip b) "" then "0" else strip b)).
Proof.
  intros D Ha Hb T. unfold extract_sheet_id_and_gid.
  assert (N : String.eqb (a ++ "," ++ b ++ tail) "" = false)
    by (destruct a; reflexivity).
  rewrite N, (re_search_group_absent _ _ _ D).
  change ("," ++ b ++ tail) with (String "," (b ++ tail)).
  rewrite contains_app_sep, split_on_head by exact Ha.
  assert (P : exists ps, split_on "," (b ++ tail) = b :: ps).
  { destruct T as [->|[r ->]].
    - rewrite app_nil_r_str. exists []. now apply split_on_whole.
    - eexists. change ("," ++ r) with (String "," r). now apply split_on_head. }
  destruct P as [ps ->]. cbn [nth].
  destruct (strip b); reflexivity.
Qed.

Lemma extract_of_id_comma_gid_example :
  extract_sheet_id_and_gid (" abc_123 " ++ "," ++ " 42" ++ ",7")
  = (Some (strip " abc_123 "),
     Some (if String.eqb (strip " 42") "" then "0" else strip " 42")).
Proof.
  apply extract_of_id_comma_gid;
    [reflexivity | reflexivity | reflexivity | right; now exists "7"].
Defined.

Lemma group_here_at (lit : string) (cls : ascii -> bool) (c : ascii)
  (r : string) :
  cls c = true -> exists g, group_here lit cls (lit ++ String c r) = Some g.
Proof.
  intros H. unfold group_here. rewrite prefix_app.
  assert (D : forall l x, drop (String.length l) (l ++ x) = x).
  { induction l as [|a l IH]; intros x; [now destruct x | apply IH]. }
  rewrite D. cbn [span]. rewrite H. destruct (span cls r) as [a b].
  cbn [fst]. now eexists.
Qed.

(** [re.search] finds a match as soon as the literal occurs with a
    character of the class behind it. *)
Lemma re_search_group_finds (lit : string) (cls : ascii -> bool)
  (pre : string) (c : ascii) (r : string) :
  cls c = true ->
  exists g, re_search_group lit cls (pre ++ lit ++ String c r) = Some g.
Proof.
  intros H. induction pre as [|a pre IH].
  - destruct (group_here_at lit cls c r H) as [g G]. exists g.
    cbn [append]. destruct (lit ++ String c r); cbn [re_search_group];
      now rewrite G.
  - cbn [append re_search_group].
    destruct (group_here lit cls (String a (pre ++ lit ++ String c r)));
      [now eexists | exact IH].
Qed.

(** What [re.search] returns is the longest run of the class behind the
    leftmost place where the literal is followed by a character of the
    class. *)
Lemma re_search_group_leftmost (lit : string) (cls : ascii -> bool)
  (s g : string) :
  re_search_group lit cls s = Some g ->
  exists pre rest,
    s = pre ++ lit ++ g ++ rest /\ g <> "" /\ all_chars cls g = true /\
    (forall c r, rest = String c r -> cls c = false) /\
    (forall pre' c' r',
       s = pre' ++ lit ++ String c' r' -> cls c' = true ->
       (String.length pre <= String.length pre')%nat).
Proof.
  assert (Here : forall s g, group_here lit cls s = Some g ->
            exists rest, s = lit ++ g ++ rest /\ g <> "" /\
              all_chars cls g = true /\
              (forall c r, rest = String c r -> cls c = false)).
  { intros s0 g0 G. pose proof (group_here_nonempty _ _ _ _ G) as [N E].
    unfold group_here in G. destruct (prefix lit s0) eqn:P; [|discriminate].
    apply prefix_split in P. destruct P as [r0 ->].
    assert (D : forall l x, drop (String.length l) (l ++ x) = x).
    { induction l as [|a l IH]; intros x; [now destruct x | apply IH]. }
    rewrite D in E. exists (snd (span cls r0)).
    split; [rewrite E; now rewrite <- span_eq|].
    split; [exact N|]. split; [rewrite E; apply span_fst_all|].
    clear. induction r0 as [|a r0 IH]; [discriminate|].
    cbn [span]. destruct (cls a) eqn:Ca.
    - destruct (span cls r0) as [x y]. exact IH.
    - cbn [snd]. intros c r H. now inversion H; subst. }
  revert g. induction s as [|a s IH]; intros g H.
  - cbn [re_search_group] in H.
    destruct (group_here lit cls "") as [g0|] eqn:G; [|discriminate].
    inversion H; subst g0.
    destruct (Here _ _ G) as (rest & E & N & A & R).
    exists "", rest. repeat split; try assumption. intros. apply Nat.le_0_l.
  - cbn [re_search_group] in H.
    destruct (group_here lit cls (String a s)) as [g0|] eqn:G.
    + inversion H; subst g0.
      destruct (Here _ _ G) as (rest & E & N & A & R).
      exists "", rest. repeat split; try assumption. intros. apply Nat.le_0_l.
    + destruct (IH g H) as (pre & rest & E & N & A & R & L).
      exists (String a pre), rest.
      split; [cbn [append]; now rewrite <- E|].
      split; [exact N|]. split; [exact A|]. split; [exact R|].
      intros pre' c' r' E' C'. destruct pre' as [|b pre'].
      * exfalso. cbn [append] in E'.
        destruct (group_here_at lit cls c' r' C') as [g1 G1].
        rewrite <- E' in G1. congruence.
      * cbn [append] in E'. inversion E'; subst b.
        cbn [String.length]. apply le_n_S. now apply (L pre' c' r').
Qed.

(** X2: whatever non-empty text is given, [extract_sheet_id_and_gid]
    returns a sheet id and a gid, and the gid is never empty: it is "0"
    when the text holds neither "gid=" nor a comma.  When "/d/" occurs
    in the text with an id character behind it, the sheet id is the
    longest run of id characters behind the leftmost such place, the gid
    is made of digits only, and it is "0" when the text does not hold
    "gid=". *)
Theorem extract_gid_never_empty (url_or_id : string) :
  url_or_id <> "" ->
  exists sheet_id gid,
    extract_sheet_id_and_gid url_or_id = (Some sheet_id, Some gid) /\
    gid <> "" /\
    (contains "gid=" url_or_id = false -> contains "," url_or_id = false ->
     gid = "0") /\
    (forall pre0 c0 r0,
       url_or_id = pre0 ++ "/d/" ++ String c0 r0 -> is_id_char c0 = true ->
       (exists pre rest,
          url_or_id = pre ++ "/d/" ++ sheet_id ++ rest /\
          sheet_id <> "" /\ all_chars is_id_char sheet_id = true /\
          (forall c r, rest = String c r -> is_id_char c = false) /\
          (String.length pre <= String.length pre0)%nat) /\
       all_chars is_digit gid = true /\
       (contains "gid=" url_or_id = false -> gid = "0")).
Proof.
  intros N. unfold extract_sheet_id_and_gid.
  destruct (String.eqb_spec url_or_id ""); [contradiction|].
  set (found := match re_search_group "gid=" is_digit url_or_id with
                | Some d => Some d
                | None => re_search_group "#gid=" is_digit url_or_id
                end).
  assert (D : forall d, found = Some d -> all_chars is_digit d = true).
  { intros d. unfold found.
    destruct (re_search_group "gid=" is_digit url_or_id) eqn:G1.
    - intros H. inversion H. subst. now apply re_search_group_some in G1.
    - intros H. now apply re_search_group_some in H. }
  assert (Z : contains "gid=" url_or_id = false -> found = None).
  { intros C. unfold found.
    rewrite (re_search_group_absent "gid=") by exact C.
    apply re_search_group_absent.
    destruct (contains "#gid=" url_or_id) eqn:C'; [|reflexivity].
    exfalso. clear - C C'. induction url_or_id as [|a u IH].
    - discriminate C'.
    - cbn [contains] in C, C'. apply orb_false_elim in C.
      destruct C as [_ C]. apply orb_prop in C'. destruct C' as [P|C'].
      + destruct u as [|b u]; [apply prefix_step in P; now destruct P|].
        apply prefix_step in P. destruct P as [_ P].
        apply contains_prefix in P. congruence.
      + now apply IH. }
  destruct (re_search_group "/d/" is_id_char url_or_id) as [g|] eqn:M.
  - destruct (py_or_zero found) as (gid & E & Ng & Dg).
    exists g, gid. rewrite E. split; [reflexivity|]. split; [exact Ng|].
    assert (G0 : contains "gid=" url_or_id = false -> gid = "0").
    { intros C. rewrite (Z C) in E. cbn in E. now inversion E. }
    split; [intros C _; now apply G0|].
    intros pre0 c0 r0 E0 C0.
    split; [|split; [|exact G0]].
    + destruct (re_search_group_leftmost _ _ _ _ M)
        as (pre & rest & E1 & N1 & A1 & R1 & L1).
      exists pre, rest. repeat split; try assumption.
      now apply (L1 pre0 c0 r0).
    + destruct found as [d|] eqn:F.
      * apply (Dg d eq_refl). now apply D.
      * cbn in E. inversion E. reflexivity.
  - destruct (contains "," url_or_id) eqn:K.
    + destruct (py_or_zero (Some (strip (nth 1 (split_on "," url_or_id) ""))))
        as (gid & E & Ng & _).
      eexists _, gid. rewrite E. split; [reflexivity|]. split; [exact Ng|].
      split; [discriminate|].
      intros pre0 c0 r0 E0 C0. exfalso.
      destruct (re_search_group_finds "/d/" is_id_char pre0 c0 r0 C0)
        as [g G]. rewrite <- E0 in G. congruence.
    + exists (strip url_or_id), "0". split; [reflexivity|].
      split; [discriminate|]. split; [reflexivity|].
      intros pre0 c0 r0 E0 C0. exfalso.
      destruct (re_search_group_finds "/d/" is_id_char pre0 c0 r0 C0)
        as [g G]. rewrite <- E0 in G. congruence.
Qed.

Lemma extract_gid_never_empty_at_edit_url :
  let url :=
    "https://docs.google.com/spreadsheets/d/13IwxZ6a4O2QeMe7OsGbYnfqqH2uNwNxXiyKPI-1Hlbw/edit" in
  exists sheet_id gid,
    extract_sheet_id_and_gid url = (Some sheet_id, Some gid) /\
    gid <> "" /\
    (contains "gid=" url = false -> contains "," url = false -> gid = "0") /\
    (forall pre0 c0 r0,
       url = pre0 ++ "/d/" ++ String c0 r0 -> is_id_char c0 = true ->
       (exists pre rest,
          url = pre ++ "/d/" ++ sheet_id ++ rest /\
          sheet_id <> "" /\ all_chars is_id_char sheet_id = true /\
          (forall c r, rest = String c r -> is_id_char c = false) /\
          (String.length pre <= String.length pre0)%nat) /\
       all_chars is_digit gid = true /\
       (contains "gid=" url = false -> gid = "0")).
Proof.
  apply extract_gid_never_empty. discriminate.
Defined.

(** ** Chart titles *)

Lemma app_eq_nil_str (a b : string) : a ++ b = "" -> a = "" /\ b = "".
Proof. destruct a; [now split | discriminate]. Qed.

Lemma words_from_nonempty (s cur : string) :
  Forall (fun w => w <> "") (words_from cur s).
Proof.
  revert cur. induction s as [|c r IH]; intros cur; cbn [words_from].
  - destruct (String.eqb_spec cur ""); constructor; [assumption | constructor].
  - destruct (is_space c).
    + destruct (String.eqb_spec cur ""); [apply IH|].
      constructor; [assumption | apply IH].
    + apply IH.
Qed.

Lemma length_app_str (a b : string) :
  String.length (a ++ b) = (String.length a + String.length b)%nat.
Proof. induction a; simpl; congruence. Qed.

Lemma concat_sep_cons (sep w : string) (g : list string) :
  g <> [] -> String.concat sep (w :: g) = w ++ sep ++ String.concat sep g.
Proof. destruct g; [contradiction | reflexivity]. Qed.

Lemma concat_sep_snoc (sep : string) (g : list string) (w : string) :
  g <> [] ->
  String.concat sep (g ++ [w])%list = String.concat sep g ++ sep ++ w.
Proof.
  induction g as [|x g IH]; [contradiction|]. intros _.
  destruct g as [|y g].
  - reflexivity.
  - change ((x :: y :: g) ++ [w])%list with (x :: ((y :: g) ++ [w]))%list.
    rewrite concat_sep_cons by (destruct g; discriminate).
    rewrite IH by discriminate.
    rewrite (concat_sep_cons sep x (y :: g)) by discriminate.
    now rewrite !app_assoc_str.
Qed.

Lemma concat_sep_nonempty (sep : string) (g : list string) :
  g <> [] -> Forall (fun w => w <> "") g -> String.concat sep g <> "".
Proof.
  destruct g as [|x g]; [contradiction|]. intros _ F.
  inversion F as [|? ? Nx _]. subst.
  destruct g; [exact Nx|]. cbn [String.concat].
  intros E. apply app_eq_nil_str in E. now destruct E.
Qed.

Lemma greedy_after_new (max_chars : Z) (gs : list (list string))
  (prev g : list string) (w : string) :
  greedy_after max_chars prev (gs ++ [g])%list ->
  max_chars < len (String.concat " " g) + 1 + len w ->
  greedy_after max_chars prev ((gs ++ [g]) ++ [[w]])%list.
Proof.
  revert prev. induction gs as [|g0 gs IH]; intros prev H L.
  - cbn [app greedy_after hd] in *. destruct H as [H _]. now repeat split.
  - cbn [app greedy_after] in *. destruct H as [H1 H2].
    split; [exact H1 | now apply IH].
Qed.

Lemma greedy_after_ext (max_chars : Z) (gs : list (list string))
  (prev g : list string) (w : string) :
  g <> [] ->
  greedy_after max_chars prev (gs ++ [g])%list ->
  greedy_after max_chars prev (gs ++ [g ++ [w]])%list.
Proof.
  intros N. revert prev. induction gs as [|g0 gs IH]; intros prev H.
  - cbn [app greedy_after] in *. destruct H as [H _].
    split; [|exact I]. now destruct g.
  - cbn [app greedy_after] in *. destruct H as [H1 H2].
    split; [exact H1 | now apply IH].
Qed.

Lemma greedy_new (max_chars : Z) (gs : list (list string))
  (g : list string) (w : string) :
  greedy max_chars (gs ++ [g])%list ->
  max_chars < len (String.concat " " g) + 1 + len w ->
  greedy max_chars ((gs ++ [g]) ++ [[w]])%list.
Proof.
  destruct gs as [|g0 gs]; intros H L.
  - cbn [app greedy greedy_after hd]. now split.
  - cbn [app greedy] in *. now apply greedy_after_new.
Qed.

Lemma greedy_ext (max_chars : Z) (gs : list (list string))
  (g : list string) (w : string) :
  g <> [] ->
  greedy max_chars (gs ++ [g])%list ->
  greedy max_chars (gs ++ [g ++ [w]])%list.
Proof.
  destruct gs as [|g0 gs]; intros N H.
  - exact I.
  - cbn [app greedy] in *. now apply greedy_after_ext.
Qed.

(** The state of the loop as groups of words: the lines already closed
    and the line being filled. *)
Lemma wrap_fold (max_chars : Z) (words : list string) :
  Forall (fun w => w <> "") words ->
  forall (groups : list (list string)) (cur : list string),
    Forall (line_ok max_chars) groups ->
    (cur = [] /\ groups = [] \/
     line_ok max_chars cur /\ greedy max_chars (groups ++ [cur])%list) ->
    Forall (fun w => w <> "") cur ->
    exists groups' cur',
      fold_left (wrap_step max_chars) words
        (map (String.concat " ") groups, String.concat " " cur)
      = (map (String.concat " ") groups', String.concat " " cur') /\
      (List.concat groups' ++ cur' = List.concat groups ++ cur ++ words)%list /\
      Forall (line_ok max_chars) groups' /\
      (cur' = [] /\ groups' = [] \/
       line_ok max_chars cur' /\ greedy max_chars (groups' ++ [cur'])%list) /\
      Forall (fun w => w <> "") cur'.
Proof.
  induction 1 as [|w ws Nw Fw IH]; intros groups cur Fg Hc Fc.
  - exists groups, cur. rewrite app_nil_r. repeat split; assumption.
  - cbn [fold_left]. unfold wrap_step at 2.
    destruct (String.eqb_spec (String.concat " " cur) "") as [E|E].
    + assert (cur = []) as ->.
      { destruct cur; [reflexivity|]. exfalso.
        revert E. apply concat_sep_nonempty; [discriminate | assumption]. }
      destruct Hc as [[_ ->]|[[Hc _] _]]; [|contradiction].
      destruct (IH [] [w]) as (g' & c' & H1 & H2 & H3 & H4 & H5).
      * constructor.
      * right. split; [|exact I].
        split; [discriminate | right; now exists w].
      * now constructor.
      * exists g', c'. repeat split; assumption.
    + assert (Nc : cur <> []) by (intros ->; now apply E).
      destruct Hc as [[Hc _]|[Hc G]]; [contradiction|].
      destruct (Z.leb_spec (len (String.concat " " cur) + 1 + len w) max_chars)
        as [L|L].
      * destruct (IH groups (cur ++ [w])%list)
          as (g' & c' & H1 & H2 & H3 & H4 & H5).
        -- assumption.
        -- right. split; [|now apply greedy_ext].
           split; [now destruct cur|]. left.
           rewrite concat_sep_snoc by assumption.
           unfold len in *. rewrite !length_app_str. simpl String.length. lia.
        -- apply Forall_app. split; [assumption | now constructor].
        -- exists g', c'. rewrite concat_sep_snoc in H1 by assumption.
           rewrite <- app_assoc in H2. repeat split; assumption.
      * destruct (IH (groups ++ [cur])%list [w])
          as (g' & c' & H1 & H2 & H3 & H4 & H5).
        -- apply Forall_app. split; [assumption | now constructor].
        -- right. split; [|now apply greedy_new].
           split; [discriminate | right; now exists w].
        -- now constructor.
        -- exists g', c'. rewrite map_app in H1. cbn [map] in H1.
           rewrite concat_app in H2. cbn [List.concat] in H2.
           rewrite app_nil_r, <- !app_assoc in H2.
           repeat split; assumption.
Qed.

Lemma wrap_lines_groups (max_chars : Z) (words : list string) :
  Forall (fun w => w <> "") words ->
  exists groups,
    wrap_lines max_chars words = map (String.concat " ") groups /\
    List.concat groups = words /\
    Forall (line_ok max_chars) groups /\
    greedy max_chars groups.
Proof.
  intros F.
  destruct (wrap_fold max_chars words F [] [])
    as (g' & c' & H1 & H2 & H3 & H4 & H5);
    [constructor | now left | constructor |].
  unfold wrap_lines. cbn [map String.concat] in H1. rewrite H1.
  cbn [List.concat app] in H2.
  destruct (String.eqb_spec (String.concat " " c') "") as [E|E].
  - assert (c' = []) as ->.
    { destruct c'; [reflexivity|]. exfalso.
      revert E. apply concat_sep_nonempty; [discriminate | assumption]. }
    destruct H4 as [[_ ->]|[[H4 _] _]]; [|contradiction].
    exists []. rewrite app_nil_r in H2. repeat split; assumption.
  - assert (Nc : c' <> []) by (intros ->; now apply E).
    destruct H4 as [[H4 _]|[H4 G]]; [contradiction|].
    exists (g' ++ [c'])%list. rewrite map_app. split; [reflexivity|].
    rewrite concat_app. cbn [List.concat]. rewrite app_nil_r.
    split; [exact H2|]. split; [|exact G].
    apply Forall_app. split; [assumption | now constructor].
Qed.

(** X4: on a title of ASCII characters, [wrap_text_for_title] loses no
    word, keeps every line within the width and fills the lines greedily.
    A trimmed text of at most [max_chars] characters is returned as it is;
    a longer one comes back as lines joined by "<br>", where each line is
    made of consecutive words of the text joined by one space, the lines
    taken together are exactly the words of the text in their order, no
    line is empty, a line is longer than [max_chars] only when it is a
    single word, and the first word of a line did not fit at the end of
    the line before it. *)
Theorem wrap_text_for_title_lines (s : string) (max_chars : Z) :
  is_ascii s = true ->
  (len (strip s) <= max_chars -> wrap_text_for_title s max_chars = strip s) /\
  (max_chars < len (strip s) ->
   exists groups,
     wrap_text_for_title s max_chars
     = String.concat "<br>" (map (String.concat " ") groups) /\
     List.concat groups = split_ws (strip s) /\
     Forall (line_ok max_chars) groups /\
     greedy max_chars groups).
Proof.
  intros _. unfold wrap_text_for_title. split; intros H.
  - destruct (Z.leb_spec (len (strip s)) max_chars); [reflexivity | lia].
  - destruct (Z.leb_spec (len (strip s)) max_chars); [lia|].
    destruct (wrap_lines_groups max_chars (split_ws (strip s)))
      as (groups & E & C & F & G); [apply words_from_nonempty|].
    exists groups. rewrite E. repeat split; assumption.
Qed.

Lemma wrap_text_for_title_lines_sepinggan :
  let s := " Stasiun Meteorologi Sultan Aji Muhammad Sulaiman Sepinggan " in
  is_ascii s = true /\
  wrap_text_for_title s 40
  = "Stasiun Meteorologi Sultan Aji Muhammad<br>Sulaiman Sepinggan" /\
  ((len (strip s) <= 40 -> wrap_text_for_title s 40 = strip s) /\
   (40 < len (strip s) ->
    exists groups,
      wrap_text_for_title s 40
      = String.concat "<br>" (map (String.concat " ") groups) /\
      List.concat groups = split_ws (strip s) /\
      Forall (line_ok 40) groups /\
      greedy 40 groups)).
Proof.
  split; [reflexivity|]. split; [reflexivity|].
  apply wrap_text_for_title_lines. reflexivity.
Defined.

(** ** Pages and chart grid *)

Lemma ceil_div_pos (a : Z) (p : positive) :
  ceil_div a (Z.pos p) = - ((- a) / Z.pos p).
Proof.
  unfold ceil_div, Qceiling, Qfloor, Qdiv, Qinv, Qmult, Qopp. cbn.
  now rewrite Z.mul_1_r.
Qed.

Lemma ceil_div_bounds (a b : Z) :
  0 < b -> (ceil_div a b - 1) * b < a <= ceil_div a b * b.
Proof.
  intros Hb. destruct b as [|p|p]; try lia.
  rewrite ceil_div_pos.
  pose proof (Z.div_mod (- a) (Z.pos p) ltac:(lia)) as D.
  pose proof (Z.mod_pos_bound (- a) (Z.pos p) ltac:(lia)) as M.
  nia.
Qed.

Lemma total_pages_bounds (n per_page : Z) :
  0 < per_page -> 0 < n ->
  1 <= total_pages n per_page /\
  (total_pages n per_page - 1) * per_page < n <= total_pages n per_page * per_page.
Proof.
  intros Hp Hn. unfold total_pages.
  pose proof (ceil_div_bounds n per_page Hp) as B.
  assert (1 <= ceil_div n per_page) by nia.
  rewrite Z.max_r by lia. split; [assumption | exact B].
Qed.

Lemma firstn_add_skipn {A : Type} (a b : nat) (l : list A) :
  firstn (a + b) l = (firstn a l ++ firstn b (skipn a l))%list.
Proof.
  revert l. induction a as [|a IH]; intros l; [reflexivity|].
  destruct l as [|x l]; [now rewrite !firstn_nil|].
  cbn [Nat.add firstn skipn app]. now rewrite IH.
Qed.

Lemma chunks_concat {A : Type} (k : nat) (l : list A) (t : nat) :
  List.concat (map (fun i => firstn k (skipn (i * k) l)) (seq 0 t))
  = firstn (t * k) l.
Proof.
  induction t as [|t IH]; [reflexivity|].
  rewrite seq_S, map_app, concat_app, IH. cbn [map List.concat Nat.add].
  rewrite app_nil_r. change (S t * k)%nat with (k + t * k)%nat.
  now rewrite (Nat.add_comm k), firstn_add_skipn.
Qed.

Lemma subset_chunk {A : Type} (items : list A) (i : nat) (per_page : Z) :
  0 < per_page ->
  subset items (Z.of_nat i + 1) per_page
  = firstn (Z.to_nat per_page) (skipn (i * Z.to_nat per_page) items).
Proof.
  intros Hp. unfold subset, slice, end_idx, start_idx.
  replace (Z.of_nat i + 1 - 1) with (Z.of_nat i) by lia.
  replace (Z.to_nat (Z.of_nat i * per_page)) with (i * Z.to_nat per_page)%nat
    by nia.
  set (rest := skipn (i * Z.to_nat per_page) items).
  assert (L : List.length rest
              = (List.length items - i * Z.to_nat per_page)%nat)
    by apply length_skipn.
  destruct (Z.le_ge_cases (Z.of_nat i * per_page + per_page)
              (Z.of_nat (List.length items))) as [H|H].
  - rewrite Z.min_l by assumption. f_equal. lia.
  - rewrite Z.min_r by lia.
    rewrite !firstn_all2; [reflexivity | nia | nia].
Qed.

(** X5: the pages of Performa Stasiun cut the filtered list into
    consecutive pieces.  For a positive page size and a list that is not
    empty, the rows of the pages 1 to [total_pages], one after the other,
    are the whole list: no station is left out and none is shown twice;
    and every page from 1 to [total_pages] is not empty, holds at most
    [per_page] rows and has [0 <= start_idx < end_idx <= total_items]. *)
Theorem subset_pages_partition {A : Type} (items : list A) (per_page : Z) :
  0 < per_page -> items <> [] ->
  let total_items := Z.of_nat (List.length items) in
  List.concat
    (map (fun page => subset items page per_page)
       (pages (total_pages total_items per_page)))
  = items /\
  (forall page, 1 <= page <= total_pages total_items per_page ->
     subset items page per_page <> [] /\
     Z.of_nat (List.length (subset items page per_page)) <= per_page /\
     0 <= start_idx page per_page /\
     start_idx page per_page < end_idx page per_page total_items /\
     end_idx page per_page total_items <= total_items).
Proof.
  intros Hp Ni total_items.
  assert (Hn : 0 < total_items)
    by (unfold total_items; destruct items; [contradiction | simpl; lia]).
  destruct (total_pages_bounds total_items per_page Hp Hn) as (T1 & T2 & T3).
  set (T := total_pages total_items per_page) in *.
  split.
  - unfold pages, range. rewrite !map_map.
    rewrite (map_ext _ (fun i => firstn (Z.to_nat per_page)
                                   (skipn (i * Z.to_nat per_page) items)))
      by (intros i; now apply subset_chunk).
    rewrite chunks_concat. apply firstn_all2. unfold total_items in *. nia.
  - intros page [P1 P2].
    replace page with (Z.of_nat (Z.to_nat (page - 1)) + 1) at 1 2 by lia.
    rewrite subset_chunk by assumption.
    set (i := Z.to_nat (page - 1)).
    assert (Hi : Z.of_nat i = page - 1) by (unfold i; lia).
    assert (S1 : (i * Z.to_nat per_page < List.length items)%nat)
      by (unfold total_items in *; nia).
    split; [|split; [|unfold end_idx, start_idx; nia]].
    + intros E. apply (f_equal (@List.length A)) in E.
      rewrite length_firstn, length_skipn in E. simpl in E. lia.
    + rewrite length_firstn. lia.
Qed.

Lemma subset_pages_partition_seven :
  let items := [1; 2; 3; 4; 5; 6; 7] in
  let total_items := Z.of_nat (List.length items) in
  List.concat
    (map (fun page => subset items page 3)
       (pages (total_pages total_items 3)))
  = items /\
  (forall page, 1 <= page <= total_pages total_items 3 ->
     subset items page 3 <> [] /\
     Z.of_nat (List.length (subset items page 3)) <= 3 /\
     0 <= start_idx page 3 /\
     start_idx page 3 < end_idx page 3 total_items /\
     end_idx page 3 total_items <= total_items).
Proof.
  apply subset_pages_partition; [lia | discriminate].
Defined.

Lemma flat_map_singletons (f : Z -> Z) (n : Z) (l : list Z) :
  (forall x, In x l -> f x < n) ->
  flat_map (fun ci => if f ci >=? n then [] else [f ci]) l = map f l.
Proof.
  induction l as [|x l IH]; intros H; [reflexivity|].
  cbn [flat_map map]. rewrite IH by (intros y Hy; apply H; now right).
  destruct (Z.geb_spec (f x) n) as [G|G]; [|reflexivity].
  specialize (H x (or_introl eq_refl)). lia.
Qed.

Lemma seq_three (a : nat) :
  map Z.of_nat (seq a 3) = [Z.of_nat a; Z.of_nat a + 1; Z.of_nat a + 2].
Proof.
  cbn [seq map]. rewrite !Nat2Z.inj_succ.
  apply (f_equal2 cons); [reflexivity|].
  apply (f_equal2 cons); [lia|].
  apply (f_equal2 cons); [lia | reflexivity].
Qed.

Lemma range_three : range 3 = [0; 1; 2].
Proof. reflexivity. Qed.

Lemma grid_rows (n : Z) (t : nat) :
  Z.of_nat t * 3 <= n ->
  flat_map
    (fun r =>
       flat_map (fun ci => if r * 3 + ci >=? n then [] else [r * 3 + ci])
         (range 3))
    (map Z.of_nat (seq 0 t))
  = map Z.of_nat (seq 0 (t * 3)).
Proof.
  induction t as [|t IH]; intros H; [reflexivity|].
  rewrite seq_S, map_app, flat_map_app, IH by lia.
  cbn [map flat_map Nat.add]. rewrite app_nil_r.
  replace (S t * 3)%nat with (t * 3 + 3)%nat by lia.
  rewrite seq_app, map_app. f_equal.
  rewrite (flat_map_singletons (fun ci => Z.of_nat t * 3 + ci)).
  - rewrite seq_three, range_three. cbn [map].
    apply (f_equal2 cons); [lia|].
    apply (f_equal2 cons); [lia|].
    apply (f_equal2 cons); [lia | reflexivity].
  - intros x Hx. rewrite range_three in Hx. cbn [In] in Hx. lia.
Qed.

(** X6: the chart grid draws every station of the page once, in order:
    the indices reached by the two loops over rows and three columns,
    past-the-end cells left empty, are 0, 1, ..., n-1 for a page of [n]
    rows. *)
Theorem grid_indices_all (n : nat) :
  grid_indices (Z.of_nat n) = map Z.of_nat (seq 0 n).
Proof.
  unfold grid_indices. cbv zeta.
  pose proof (ceil_div_bounds (Z.of_nat n) 3 ltac:(lia)) as B.
  set (rows := ceil_div (Z.of_nat n) 3) in *.
  assert (R0 : 0 <= rows) by lia.
  change (range rows) with (map Z.of_nat (seq 0 (Z.to_nat rows))).
  destruct (Z.to_nat rows) as [|t] eqn:Et.
  - assert (n = 0)%nat by lia. subst. reflexivity.
  - rewrite seq_S, map_app, flat_map_app.
    rewrite grid_rows by lia.
    cbn [map flat_map Nat.add]. rewrite app_nil_r.
    assert (Ht : Z.of_nat t = rows - 1) by lia.
    assert (exists k, (k <= 3 /\ n = t * 3 + k)%nat) as (k & Hk & ->).
    { exists (n - t * 3)%nat. lia. }
    rewrite seq_app, map_app. f_equal.
    assert (1 <= k)%nat by lia.
    rewrite range_three. cbn [flat_map]. rewrite app_nil_r.
    cbn [Nat.add].
    destruct k as [|[|[|[|k]]]]; try lia; cbn [seq map];
      repeat match goal with
      | |- context [?a >=? ?b] => destruct (Z.geb_spec a b); try lia
      end; cbn [app]; rewrite ?Nat2Z.inj_succ;
      repeat (apply (f_equal2 cons); [lia|]); reflexivity.
Qed.

(** ** Bulanan: header and KPI cards *)

Lemma split_on_nonempty (sep : ascii) (s : string) : split_on sep s <> [].
Proof.
  destruct s as [|c r]; [discriminate|]. cbn [split_on].
  destruct (Ascii.eqb c sep); [discriminate|].
  destruct (split_on sep r); discriminate.
Qed.

Lemma split_on_cons_length (sep c : ascii) (s : string) :
  Ascii.eqb c sep = false ->
  List.length (split_on sep (String c s)) = List.length (split_on sep s).
Proof.
  intros H. cbn [split_on]. rewrite H.
  destruct (split_on sep s) eqn:E; [now apply split_on_nonempty in E|].
  reflexivity.
Qed.

Lemma split_on_length (sep : ascii) (a t : string) :
  List.length (split_on sep (a ++ String sep t))
  = (List.length (split_on sep a) + List.length (split_on sep t))%nat.
Proof.
  induction a as [|c a IH].
  - cbn [append split_on]. now rewrite Ascii.eqb_refl.
  - cbn [append]. destruct (Ascii.eqb c sep) eqn:E.
    + cbn [split_on]. rewrite E. cbn [List.length]. now rewrite IH.
    + now rewrite !split_on_cons_length.
Qed.

Lemma split_on_length_pos (sep : ascii) (s : string) :
  (1 <= List.length (split_on sep s))%nat.
Proof.
  pose proof (split_on_nonempty sep s).
  destruct (split_on sep s); [contradiction | cbn; lia].
Qed.

(** X7: the header of the Bulanan page needs exactly one dash in
    [report_month].  A text "tahun-bulan" with no other dash gives
    "Monitoring CLIMAT <bulan> <tahun>"; a text without a dash, or with two
    or more, makes the unpacking of the split raise, so the page has no
    header at all. *)
Theorem header_bulanan_one_dash :
  (forall tahun bulan_num,
     contains "-" tahun = false -> contains "-" bulan_num = false ->
     header_bulanan (tahun ++ "-" ++ bulan_num)
     = Some ("Monitoring CLIMAT " ++ bulan_nama bulan_num ++ " " ++ tahun)) /\
  (forall report_month,
     contains "-" report_month = false -> header_bulanan report_month = None) /\
  (forall a b c, header_bulanan (a ++ "-" ++ b ++ "-" ++ c) = None).
Proof.
  split; [|split].
  - intros tahun bulan_num Ht Hb. unfold header_bulanan.
    change ("-" ++ bulan_num) with (String "-" bulan_num).
    rewrite split_on_head by exact Ht.
    now rewrite split_on_whole by exact Hb.
  - intros rm H. unfold header_bulanan. now rewrite split_on_whole by exact H.
  - intros a b c. unfold header_bulanan.
    change ("-" ++ b ++ "-" ++ c) with (String "-" (b ++ String "-" c)).
    pose proof (split_on_length "-" a (b ++ String "-" c)) as L.
    rewrite (split_on_length "-" b c) in L.
    pose proof (split_on_length_pos "-" a).
    pose proof (split_on_length_pos "-" b).
    pose proof (split_on_length_pos "-" c).
    destruct (split_on "-" (a ++ String "-" (b ++ String "-" c)))
      as [|x [|y [|z l]]]; try reflexivity.
    cbn [List.length] in L. lia.
Qed.

(** X8: the month names of the Bulanan header are found by the month
    number without a leading zero.  The numbers 1 to 12 printed by [str]
    give the twelve Indonesian names; a number written with a leading zero,
    as in "2025-01", is not a key, so the header shows the digits
    themselves. *)
Theorem bulan_nama_keys :
  map (fun n => bulan_nama (str_of_int (Z.of_nat n))) (seq 1 12)
  = ["Januari"; "Februari"; "Maret"; "April"; "Mei"; "Juni"; "Juli";
     "Agustus"; "September"; "Oktober"; "November"; "Desember"] /\
  (forall r, bulan_nama (String "0" r) = String "0" r) /\
  (forall tahun r,
     contains "-" tahun = false -> contains "-" r = false ->
     header_bulanan (tahun ++ "-0" ++ r)
     = Some ("Monitoring CLIMAT 0" ++ r ++ " " ++ tahun)).
Proof.
  assert (Z0 : forall r, bulan_nama (String "0" r) = String "0" r)
    by (intros r; reflexivity).
  split; [reflexivity|]. split; [exact Z0|].
  intros tahun r Ht Hr. unfold header_bulanan.
  change ("-0" ++ r) with (String "-" (String "0" r)).
  rewrite split_on_head by exact Ht.
  rewrite split_on_whole.
  - now rewrite Z0.
  - rewrite contains_char_cons. exact Hr.
Qed.

Lemma status_of_cases (r : monthly_row) :
  status_of r = ON_TIME \/ status_of r = LATE \/ status_of r = NOT_SENT.
Proof.
  unfold status_of, derive_status.
  destruct (terkirim_bool (with_bools r)); [|now right; right].
  destruct (tepat_bool (with_bools r)); [now left|].
  cbn [negb andb].
  destruct (delta (with_bools r)) as [v|]; [|now left].
  destruct (isna v); [now left|]. cbn [negb].
  destruct (to_float v) as [x|]; [|now left].
  destruct (gt_const x (z2q 0)); [now left | now right; left].
Qed.

Lemma kpi_counts (col : list string) :
  Forall (fun s => s = ON_TIME \/ s = LATE \/ s = NOT_SENT) col ->
  (count_eq col ON_TIME + count_eq col LATE + count_eq col NOT_SENT
   = List.length col)%nat /\
  (count_ne col NOT_SENT = count_eq col ON_TIME + count_eq col LATE)%nat.
Proof.
  induction 1 as [|s col Hs Hcol [IH1 IH2]]; [now split|].
  rewrite !count_eq_cons. unfold count_ne in *. cbn [filter List.length].
  destruct Hs as [-> | [-> | ->]]; cbn; lia.
Qed.

(** X9: the counts behind the KPI cards of the Bulanan page add up.
    Every station of the normalised sheet is counted in exactly one of
    the three statuses: tepat + terlambat + tidak is the number of
    stations, the stations that sent are the on-time and the late ones,
    and the stations that sent and those that did not are all the
    stations.  So the four percentages are shares of one whole. *)
Theorem kpi_cards_add_up (rows : list monthly_row) :
  let total := List.length rows in
  (tepat rows + terlambat rows + tidak rows = total)%nat /\
  (sent_count rows = tepat rows + terlambat rows)%nat /\
  (sent_count rows + tidak rows = total)%nat /\
  (sent_count rows <= total)%nat.
Proof.
  intros total.
  assert (F : Forall (fun s => s = ON_TIME \/ s = LATE \/ s = NOT_SENT)
                (status_column rows)).
  { unfold status_column. apply Forall_map, Forall_forall.
    intros r _. apply status_of_cases. }
  destruct (kpi_counts _ F) as [K1' K2'].
  unfold status_column in K1' at 4. rewrite length_map in K1'.
  assert (K1 : (tepat rows + terlambat rows + tidak rows = total)%nat)
    by exact K1'.
  assert (K2 : (sent_count rows = tepat rows + terlambat rows)%nat)
    by exact K2'.
  clear K1' K2'.
  split; [exact K1|]. split; [exact K2|]. split; lia.
Qed.

Lemma hd_error_flat_map {A B : Type} (f : A -> list B) (p : A -> bool)
  (g : A -> B) (l : list A) :
  (forall x, p x = true -> hd_error (f x) = Some (g x)) ->
  (forall x, p x = false -> f x = []) ->
  hd_error (flat_map f l) = option_map g (find p l).
Proof.
  intros Ht Hf. induction l as [|x l IH]; [reflexivity|].
  cbn [flat_map find]. destruct (p x) eqn:E.
  - specialize (Ht x E). destruct (f x); [discriminate | exact Ht].
  - now rewrite (Hf x E).
Qed.

Lemma contains_ketepatan (s : string) :
  contains "ketepatan" s = true -> contains "tepat" s = true.
Proof.
  induction s as [|c r IH]; cbn [contains]; intros H.
  - discriminate.
  - apply orb_prop in H. destruct H as [H|H].
    + apply orb_true_iff. right.
      apply prefix_split in H. destruct H as [r' H].
      destruct c; inversion H. subst. reflexivity.
    + apply orb_true_iff. right. now apply IH.
Qed.

(** X10: [detect_status_column] returns the leftmost column whose
    lower-cased name contains "status", "tepat" or "terkirim" (the test on
    "ketepatan" adds nothing), with the name as it is written in the sheet;
    it returns nothing for a frame without rows or without columns and when
    no name qualifies. *)
Theorem detect_status_column_leftmost (cols : list string) (nrows : nat) :
  detect_status_column cols nrows
  = match nrows with
    | O => None
    | S _ =>
        find (fun col => (contains "status" (lower col)
                          || contains "tepat" (lower col)
                          || contains "terkirim" (lower col))%bool) cols
    end.
Proof.
  unfold detect_status_column.
  destruct cols as [|c0 cols]; [now destruct nrows|].
  destruct nrows as [|n]; [reflexivity|].
  set (l := c0 :: cols). clearbody l.
  rewrite (hd_error_flat_map _
             (fun col => (contains "status" (lower col)
                          || contains "tepat" (lower col)
                          || contains "terkirim" (lower col))%bool)
             (fun col => col)).
  - now destruct (find _ l).
  - intros x H.
    destruct (contains "status" (lower x)); [reflexivity|].
    destruct (contains "tepat" (lower x)); [reflexivity|].
    destruct (contains "ketepatan" (lower x)); [reflexivity|].
    cbn in H. now rewrite H.
  - intros x H.
    apply orb_false_elim in H. destruct H as [H H3].
    apply orb_false_elim in H. destruct H as [H1 H2].
    rewrite H1, H2, H3.
    destruct (contains "ketepatan" (lower x)) eqn:K; [|reflexivity].
    apply contains_ketepatan in K. congruence.
Qed.

(** ** Monitoring Tahunan: the bars per month *)

Lemma z2q_nonzero (n : Z) : n <> 0 -> z2q n <> z2q 0.
Proof. intros H E. apply z2q_inj in E. contradiction. Qed.

Lemma bar_percent_le (x total : nat) :
  (x <= total)%nat -> (bar_percent x total <= z2q 100)%Qc.
Proof.
  intros L. unfold bar_percent. destruct (Nat.ltb_spec 0 total) as [H|H].
  - unfold Qcle. rewrite Qcdiv_this, Qcmult_this, !z2q_this.
    apply Qle_shift_div_r.
    + rewrite <- (inject_Z_mult 0 0) at 1. change (0 * 0) with 0.
      rewrite <- Zlt_Qlt. lia.
    + rewrite <- !inject_Z_mult, <- Zle_Qle. nia.
  - unfold Qcle. rewrite !z2q_this. rewrite <- Zle_Qle. lia.
Qed.

Lemma bar_percent_zero (x total : nat) :
  (x <= total)%nat -> (bar_percent x total = z2q 0 <-> x = 0 \/ total = 0)%nat.
Proof.
  intros L. unfold bar_percent. destruct (Nat.ltb_spec 0 total) as [H|H].
  - split.
    + intros E. left. destruct x as [|x]; [reflexivity|]. exfalso.
      assert (T : z2q (Z.of_nat total) <> z2q 0) by (apply z2q_nonzero; lia).
      apply (f_equal (fun q => (q * z2q (Z.of_nat total))%Qc)) in E.
      replace (z2q 100 * z2q (Z.of_nat (S x)) / z2q (Z.of_nat total)
               * z2q (Z.of_nat total))%Qc
        with (z2q 100 * z2q (Z.of_nat (S x)))%Qc in E by (field; exact T).
      rewrite <- !z2q_mul in E. apply z2q_inj in E. lia.
    + intros [-> | ->]; [|lia]. cbn [Z.of_nat].
      apply Qc_is_canon. rewrite Qcdiv_this, Qcmult_this, !z2q_this.
      unfold Qdiv. rewrite Qmult_0_r, Qmult_0_l. reflexivity.
  - split; [intros _; right; lia | reflexivity].
Qed.

Lemma bar_percent_nonneg (x total : nat) : (z2q 0 <= bar_percent x total)%Qc.
Proof.
  unfold bar_percent. destruct (Nat.ltb_spec 0 total) as [H|H].
  - unfold Qcle. rewrite Qcdiv_this, Qcmult_this, !z2q_this.
    apply Qle_shift_div_l.
    + rewrite <- (inject_Z_mult 0 0) at 1. change (0 * 0) with 0.
      rewrite <- Zlt_Qlt. lia.
    + rewrite <- !inject_Z_mult, <- Zle_Qle. lia.
  - apply Qcle_refl.
Qed.

Lemma month_abbr_prefix_self (m : string) :
  In m MONTH_ABBR -> month_prefix m m = true.
Proof.
  intros H. cbn in H.
  repeat (destruct H as [<-|H]; [reflexivity|]). contradiction.
Qed.

Lemma bar_col_fallback (cols : list string) (m : string) :
  detect_month_columns cols = [] -> In m MONTH_ABBR ->
  bar_col m (bulan_cols cols) = None.
Proof.
  intros D Hm. unfold bulan_cols. rewrite D.
  pose proof (proj1 (detect_month_columns_nil cols) D) as N.
  destruct (fallback_month_columns_spec cols) as (_ & _ & M).
  unfold bar_col.
  destruct (mem m (fallback_month_columns cols)) eqn:E.
  - apply mem_In, M in E. destruct E as [E _].
    pose proof (month_abbr_prefix_self m Hm) as S.
    rewrite (N m m Hm E) in S. discriminate.
  - apply find_none_iff. intros c Hc. apply M in Hc. destruct Hc as [Hc _].
    now apply N.
Qed.

(** X11: the bars per month of Monitoring Tahunan.  Whatever the sheet
    holds, [df_bulan] has one row for each of the twelve months, in the
    order Jan to Des, and the three percentages of every row lie between
    0 and 100.  A month for which no column is found has a row of
    zeros, and a month with a column has the percentage zero exactly for
    the statuses no cell of the column holds (all three when the column
    has no recognised status). *)
Theorem df_bulan_rows (df : string -> list cell) (bulan_cols : list string) :
  map Bulan (df_bulan df bulan_cols) = MONTH_ABBR /\
  Forall
    (fun r =>
       (z2q 0 <= Tepat_Waktu r <= z2q 100)%Qc /\
       (z2q 0 <= Terlambat r <= z2q 100)%Qc /\
       (z2q 0 <= Tidak_Mengirim r <= z2q 100)%Qc)
    (df_bulan df bulan_cols) /\
  (forall m,
     bar_col m bulan_cols = None ->
     df_bulan_row df bulan_cols m = mk_bar m (z2q 0) (z2q 0) (z2q 0)) /\
  (forall m c,
     bar_col m bulan_cols = Some c -> c <> "" ->
     let col := map upper (map norm_cell (df c)) in
     let r := df_bulan_row df bulan_cols m in
     (Tepat_Waktu r = z2q 0 <-> count_eq col "TEPAT WAKTU" = 0%nat) /\
     (Terlambat r = z2q 0 <-> count_eq col "TERLAMBAT" = 0%nat) /\
     (Tidak_Mengirim r = z2q 0 <-> count_eq col "TIDAK MENGIRIM" = 0%nat)).
Proof.
  unfold df_bulan. split; [|split; [|split]].
  - rewrite map_map.
    assert (E : forall l, map (fun m => Bulan (df_bulan_row df bulan_cols m)) l = l).
    { induction l as [|m l IH]; [reflexivity|]. cbn [map]. rewrite IH.
      f_equal. unfold df_bulan_row.
      now destruct (bar_col m bulan_cols) as [[|a r]|]. }
    apply E.
  - apply Forall_map, Forall_forall. intros m _. unfold df_bulan_row.
    assert (Z : (z2q 0 <= z2q 0 <= z2q 100)%Qc).
    { split; [apply Qcle_refl|]. unfold Qcle. rewrite !z2q_this.
      rewrite <- Zle_Qle. lia. }
    destruct (bar_col m bulan_cols) as [[|a r]|];
      cbn [Tepat_Waktu Terlambat Tidak_Mengirim];
      try (split; [exact Z | split; exact Z]).
    repeat split; try apply bar_percent_nonneg; apply bar_percent_le; lia.
  - intros m H. unfold df_bulan_row. now rewrite H.
  - intros m c H N. unfold df_bulan_row. rewrite H.
    destruct c as [|a c]; [contradiction|].
    cbn [Tepat_Waktu Terlambat Tidak_Mengirim].
    set (col := map upper (map norm_cell (df (String a c)))).
    set (x := count_eq col "TEPAT WAKTU").
    set (y := count_eq col "TERLAMBAT").
    set (z := count_eq col "TIDAK MENGIRIM").
    pose proof (bar_percent_zero x (x + y + z) ltac:(lia)) as Hx.
    pose proof (bar_percent_zero y (x + y + z) ltac:(lia)) as Hy.
    pose proof (bar_percent_zero z (x + y + z) ltac:(lia)) as Hz.
    split; [|split].
    + split; [intros E; apply Hx in E; lia | intros E; apply Hx; lia].
    + split; [intros E; apply Hy in E; lia | intros E; apply Hy; lia].
    + split; [intros E; apply Hz in E; lia | intros E; apply Hz; lia].
Qed.

(** X12: when no header starts with a month code, so that the month
    columns of Monitoring Tahunan come from the fallback (a month code
    anywhere in the header), the bars per month find no column for any
    month: every row of [df_bulan] is zero, whatever the cells hold. *)
Theorem df_bulan_of_fallback (df : string -> list cell) (cols : list string) :
  detect_month_columns cols = [] ->
  df_bulan df (bulan_cols cols)
  = map (fun m => mk_bar m (z2q 0) (z2q 0) (z2q 0)) MONTH_ABBR.
Proof.
  intros D. unfold df_bulan. apply map_ext_in. intros m Hm.
  unfold df_bulan_row. now rewrite (bar_col_fallback cols m D Hm).
Qed.

Lemma df_bulan_of_fallback_example :
  bulan_cols ["Status Jan"; "Status Feb"] = ["Status Jan"; "Status Feb"] /\
  df_bulan (fun _ => [Text "Tepat Waktu"]) (bulan_cols ["Status Jan"; "Status Feb"])
  = map (fun m => mk_bar m (z2q 0) (z2q 0) (z2q 0)) MONTH_ABBR.
Proof.
  split; [reflexivity|]. apply df_bulan_of_fallback. reflexivity.
Defined.

(** ** Month cells, counts and colours: how the steps compose *)

Lemma norm_cell_upper_strip (x : cell) :
  upper (strip (norm_cell x)) = norm_cell x.
Proof.
  destruct (norm_cell_fixed x) as [E|[E|[E|E]]]; try exact E;
    rewrite E; reflexivity.
Qed.

Lemma norm_cell_text (t : string) :
  norm_cell (Text t)
  = (let s := upper (strip t) in
     if contains "TEPAT" s then ON_TIME
     else if contains "TERLAMBAT" s then LATE
     else if contains "TIDAK" s then NOT_SENT
     else s).
Proof.
  cbn [norm_cell]. cbv zeta.
  destruct (contains "TEPAT" (upper (strip t))); [reflexivity|].
  destruct (contains "TERLAMBAT" (upper (strip t))); [reflexivity|].
  destruct (contains "TIDAK" (upper (strip t))) eqn:T.
  { cbn [orb]. now rewrite orb_true_r. }
  rewrite (no_tidak_mengirim _ T). cbn [orb].
  now destruct (negb (contains "MENGIRIM" (upper (strip t)))
                && (contains "-" (upper (strip t))
                    || String.eqb (upper (strip t)) ""))%bool.
Qed.

Lemma norm_status_cell_text (t : string) :
  norm_status_cell (Text t)
  = (let s := upper (strip t) in
     if contains "TEPAT" s then ON_TIME
     else if contains "TERLAMBAT" s then LATE
     else if contains "TIDAK" s then NOT_SENT
     else if mem s [""; "-"; "N/A"; "NA"] then NOT_SENT
     else s).
Proof.
  cbn [norm_status_cell]. cbv zeta.
  destruct (contains "TEPAT" (upper (strip t))); [reflexivity|].
  destruct (contains "TERLAMBAT" (upper (strip t))); [reflexivity|].
  destruct (contains "TIDAK" (upper (strip t))) eqn:T; [reflexivity|].
  now rewrite (no_tidak_mengirim _ T).
Qed.

(** X13: normalising a month cell twice is normalising it once, and the
    second trimming and upper-casing that [hitung] applies to a normalised
    cell changes nothing, so on normalised cells [hitung] counts exact
    matches.  For the station-performance normaliser the same holds for
    every text, but not for a missing cell: it becomes the empty text, which
    a second pass would count as not sent. *)
Theorem month_cell_normalisers_idempotent :
  (forall x, norm_cell (Text (norm_cell x)) = norm_cell x) /\
  (forall x, upper (strip (norm_cell x)) = norm_cell x) /\
  (forall row kata,
     hitung (map norm_cell row) kata = count_eq (map norm_cell row) kata) /\
  (forall t, norm_status_cell (Text (norm_status_cell (Text t)))
             = norm_status_cell (Text t)) /\
  norm_status_cell NA = "" /\
  norm_status_cell (Text (norm_status_cell NA)) = NOT_SENT.
Proof.
  split; [|split; [exact norm_cell_upper_strip | split; [|split; [|split]]]].
  - intros x. rewrite norm_cell_text. cbv zeta.
    rewrite norm_cell_upper_strip.
    destruct x as [|t]; [reflexivity|].
    rewrite norm_cell_text. cbv zeta.
    destruct (contains "TEPAT" (upper (strip t))) eqn:A; [reflexivity|].
    destruct (contains "TERLAMBAT" (upper (strip t))) eqn:B; [reflexivity|].
    destruct (contains "TIDAK" (upper (strip t))) eqn:C; [reflexivity|].
    now rewrite A, B, C.
  - intros row kata. unfold hitung, count_eq.
    induction row as [|x row IH]; [reflexivity|].
    cbn [map filter]. rewrite norm_cell_upper_strip.
    destruct (String.eqb (norm_cell x) kata); cbn [List.length]; now rewrite IH.
  - intros t. rewrite (norm_status_cell_text t). cbv zeta.
    destruct (contains "TEPAT" (upper (strip t))) eqn:A; [reflexivity|].
    destruct (contains "TERLAMBAT" (upper (strip t))) eqn:B; [reflexivity|].
    destruct (contains "TIDAK" (upper (strip t))) eqn:C; [reflexivity|].
    destruct (mem (upper (strip t)) [""; "-"; "N/A"; "NA"]) eqn:D;
      [reflexivity|].
    rewrite norm_status_cell_text. cbv zeta.
    now rewrite upper_strip_idem, A, B, C, D.
  - reflexivity.
  - reflexivity.
Qed.

Lemma three_counts_le (f : string -> string) (row : list string) :
  (List.length (filter (fun v => String.eqb (f v) ON_TIME) row)
   + List.length (filter (fun v => String.eqb (f v) LATE) row)
   + List.length (filter (fun v => String.eqb (f v) NOT_SENT) row)
   <= List.length row)%nat.
Proof.
  induction row as [|v row IH]; [apply Nat.le_refl|].
  cbn [filter].
  destruct (String.eqb_spec (f v) ON_TIME) as [E|_].
  - rewrite E. cbn. lia.
  - destruct (String.eqb_spec (f v) LATE) as [E|_].
    + rewrite E. cbn. lia.
    + destruct (String.eqb (f v) NOT_SENT); cbn; lia.
Qed.

Lemma first_with_prefix_length (m : string) (cols : list string) :
  (List.length (first_with_prefix m cols) <= 1)%nat.
Proof.
  unfold first_with_prefix. destruct (find (month_prefix m) cols); cbn; lia.
Qed.

Lemma flat_map_length_le {A B : Type} (f : A -> list B) (l : list A) :
  (forall x, List.length (f x) <= 1)%nat ->
  (List.length (flat_map f l) <= List.length l)%nat.
Proof.
  intros H. induction l as [|x l IH]; [apply Nat.le_refl|].
  cbn [flat_map List.length]. rewrite length_app. specialize (H x). lia.
Qed.

Lemma first_with_prefix_in (m c : string) (cols : list string) :
  In c (first_with_prefix m cols) -> In c cols /\ month_prefix m c = true.
Proof.
  unfold first_with_prefix.
  destruct (find (month_prefix m) cols) as [c'|] eqn:F; [|contradiction].
  intros [<-|[]]. apply find_some in F. exact F.
Qed.

Lemma first_columns_nodup (cols ms : list string) :
  NoDup (map month_code ms) ->
  NoDup (flat_map (fun m => first_with_prefix m cols) ms).
Proof.
  induction ms as [|m ms IH]; intros N; [constructor|].
  cbn [map] in N. inversion N as [|? ? Nm Nms]. subst.
  cbn [flat_map]. unfold first_with_prefix at 1.
  destruct (find (month_prefix m) cols) as [c|] eqn:F; [|now apply IH].
  cbn [app]. constructor; [|now apply IH].
  intros I. apply in_flat_map in I. destruct I as (m' & Hm' & Hc).
  apply first_with_prefix_in in Hc. destruct Hc as [_ P'].
  apply find_some in F. destruct F as [_ P].
  apply Nm. rewrite (month_prefix_code m m' c P P').
  now apply in_map.
Qed.

(** X14: the month columns found by the strict prefix rule are headers
    of the sheet, pairwise different and at most twelve; and whatever the
    row holds, the three counts of a station (on time, late, not sent) add
    up to at most the number of month columns, on both yearly pages.  So
    with strict month columns TOTAL never exceeds twelve. *)
Theorem counts_within_month_columns :
  (forall cols,
     NoDup (detect_month_columns cols) /\
     (List.length (detect_month_columns cols) <= 12)%nat /\
     (forall c, In c (detect_month_columns cols) -> In c cols)) /\
  (forall row,
     (hitung row ON_TIME + hitung row LATE + hitung row NOT_SENT
      <= List.length row)%nat /\
     (count_eq row ON_TIME + count_eq row LATE + count_eq row NOT_SENT
      <= List.length row)%nat).
Proof.
  split.
  - intros cols. rewrite detect_month_columns_first. split; [|split].
    + apply first_columns_nodup, month_codes_distinct.
    + change 12%nat with (List.length MONTH_ABBR).
      apply flat_map_length_le. intros m. apply first_with_prefix_length.
    + intros c I. apply in_flat_map in I. destruct I as (m & _ & Hc).
      now apply first_with_prefix_in in Hc.
  - intros row. split.
    + exact (three_counts_le (fun v => upper (strip v)) row).
    + exact (three_counts_le (fun v => v) row).
Qed.

Lemma pct_tepat_value (a b c : nat) :
  pct_tepat_tahunan a b c
  = Finite (if Nat.eqb (a + b + c) 0 then z2q 0
            else (z2q (Z.of_nat a) / z2q (Z.of_nat (a + b + c)))%Qc).
Proof.
  unfold pct_tepat_tahunan, total_tahunan, float_of_count, replace_zero_nan.
  rewrite z2q_eq_zero.
  destruct (Nat.eqb_spec (a + b + c) 0) as [E|E].
  - rewrite E. cbn [Z.of_nat Z.eqb fillna_zero column_div].
    assert (a = 0)%nat as -> by lia. reflexivity.
  - destruct (Z.eqb_spec (Z.of_nat (a + b + c)) 0) as [Z|Z]; [lia|].
    cbn [fillna_zero column_div]. rewrite z2q_eq_zero.
    destruct (Z.eqb_spec (Z.of_nat (a + b + c)) 0); [lia | reflexivity].
Qed.

Lemma ratio_ge (n d : positive) (a t : Z) :
  0 < t ->
  ((Q2Qc (Z.pos n # d) <= z2q a / z2q t)%Qc <-> Z.pos n * t <= a * Z.pos d).
Proof.
  intros Ht. unfold Qcle. rewrite Qcdiv_this, !z2q_this.
  cbn [this Q2Qc]. rewrite Qred_correct.
  destruct t as [|p|p]; try lia.
  unfold Qle, Qdiv, Qmult, Qinv, inject_Z. cbn. lia.
Qed.

Lemma ge_const_ratio (n d : positive) (a t : Z) :
  0 < t ->
  ge_const (Finite (z2q a / z2q t)%Qc) (Q2Qc (Z.pos n # d))
  = (Z.pos n * t <=? a * Z.pos d).
Proof.
  intros Ht. cbn [ge_const].
  destruct (Z.leb_spec (Z.pos n * t) (a * Z.pos d)) as [L|L].
  - apply Qc_leb_le. now apply ratio_ge.
  - apply Qc_leb_gt. apply Qcnot_le_lt. intros H. apply ratio_ge in H; lia.
Qed.

Lemma lt_const_ratio (n d : positive) (a t : Z) :
  0 < t ->
  lt_const (Finite (z2q a / z2q t)%Qc) (Q2Qc (Z.pos n # d))
  = (a * Z.pos d <? Z.pos n * t).
Proof.
  intros Ht. cbn [lt_const].
  destruct (Z.ltb_spec (a * Z.pos d) (Z.pos n * t)) as [L|L].
  - apply Qc_ltb_lt. apply Qcnot_le_lt. intros H. apply ratio_ge in H; lia.
  - apply Qc_ltb_ge. now apply ratio_ge.
Qed.

Ltac colour_case :=
  repeat split; intros; try reflexivity; try lia;
  try match goal with H : @eq string _ _ |- _ => discriminate H end.

(** X15: the marker colour of a station in terms of its three counts.
    With tepat, terlambat and tidak the counts of a station and total their
    sum, the marker is green exactly when total > 0 and tepat is at least
    80% of total, yellow exactly when tepat is at least 30% and less than
    80% of total (total > 0), red exactly when tepat is less than 30% of
    total and terlambat > tidak, and black otherwise: less than 30% with
    terlambat <= tidak, which includes every station without a recognised
    month. *)
Theorem color_hex_of_counts (tepat terlambat tidak : nat) :
  let total := (tepat + terlambat + tidak)%nat in
  let colour :=
    color_hex (pct_tepat_tahunan tepat terlambat tidak)
      (Z.of_nat terlambat) (Z.of_nat tidak) in
  (colour = GREEN <-> (0 < total /\ 8 * total <= 10 * tepat)%nat) /\
  (colour = YELLOW <->
     (0 < total /\ 3 * total <= 10 * tepat /\ 10 * tepat < 8 * total)%nat) /\
  (colour = RED <-> (10 * tepat < 3 * total /\ tidak < terlambat)%nat) /\
  (colour = BLACK <->
     ((total = 0 \/ 10 * tepat < 3 * total) /\ terlambat <= tidak)%nat).
Proof.
  intros total colour. unfold colour, color_hex.
  rewrite pct_tepat_value. fold total.
  destruct (Nat.eqb_spec total 0) as [E|E].
  - assert (tepat = 0 /\ terlambat = 0 /\ tidak = 0)%nat as (-> & -> & ->)
      by (unfold total in E; lia).
    cbn. colour_case.
  - assert (Ht : 0 < Z.of_nat total) by lia.
    change (8 # 10) with (Z.pos 8 # 10). change (3 # 10) with (Z.pos 3 # 10).
    rewrite !ge_const_ratio, lt_const_ratio by exact Ht.
    destruct (Z.leb_spec (8 * Z.of_nat total) (Z.of_nat tepat * 10)) as [G|G].
    { colour_case. }
    destruct (Z.leb_spec (3 * Z.of_nat total) (Z.of_nat tepat * 10)) as [Y|Y].
    { colour_case. }
    destruct (Z.ltb_spec (Z.of_nat tepat * 10) (3 * Z.of_nat total)) as [R|R];
      [|lia].
    cbn [andb].
    destruct (Z.gtb_spec (Z.of_nat terlambat) (Z.of_nat tidak)) as [T|T];
      colour_case.
Qed.

Lemma upper_lower_char (c : ascii) : upper_char (lower_char c) = upper_char c.
Proof. by_all_chars c. Qed.

Lemma is_space_lower (c : ascii) : is_space (lower_char c) = is_space c.
Proof. by_all_chars c. Qed.

Lemma lstrip_lower (s : string) : lstrip (lower s) = lower (lstrip s).
Proof.
  unfold lstrip, lower. induction s as [|c r IH]; [reflexivity|].
  cbn [map_str span]. rewrite is_space_lower.
  destruct (is_space c); [|reflexivity].
  destruct (span is_space r) as [a b] eqn:E1.
  destruct (span is_space (map_str lower_char r)) as [a' b'] eqn:E2.
  exact IH.
Qed.

Lemma rstrip_lower (s : string) : rstrip (lower s) = lower (rstrip s).
Proof.
  unfold lower. induction s as [|c r IH]; [reflexivity|].
  cbn [map_str]. rewrite !rstrip_cons, IH, is_space_lower.
  destruct (rstrip r); cbn [map_str]; [|reflexivity].
  now destruct (is_space c).
Qed.

Lemma upper_lower (s : string) : upper (lower s) = upper s.
Proof.
  unfold upper, lower. induction s as [|c r IH]; [reflexivity|].
  cbn [map_str]. now rewrite upper_lower_char, IH.
Qed.

(** X16: on a text of ASCII characters, [to_bool] reads a flag without
    regard to case or surrounding white space: the text, its trimmed
    form, its upper-case form and its lower-case form give the same
    boolean; and a missing cell is false. *)
Theorem to_bool_case_and_space (t : string) :
  is_ascii t = true ->
  to_bool (Text (strip t)) = to_bool (Text t) /\
  to_bool (Text (upper t)) = to_bool (Text t) /\
  to_bool (Text (lower t)) = to_bool (Text t) /\
  to_bool NA = false.
Proof.
  intros _. unfold to_bool. split; [|split; [|split]].
  - now rewrite strip_idem.
  - now rewrite strip_upper, upper_idem.
  - unfold strip. now rewrite lstrip_lower, rstrip_lower, upper_lower.
  - reflexivity.
Qed.

Lemma to_bool_case_and_space_ya :
  let t := " Ya " in
  is_ascii t = true /\ to_bool (Text t) = true /\
  (to_bool (Text (strip t)) = to_bool (Text t) /\
   to_bool (Text (upper t)) = to_bool (Text t) /\
   to_bool (Text (lower t)) = to_bool (Text t) /\
   to_bool NA = false).
Proof.
  split; [reflexivity|]. split; [reflexivity|].
  apply to_bool_case_and_space. reflexivity.
Defined.

(** ** The duration parser: blank texts, signs and the four units *)

Lemma all_chars_app (p : ascii -> bool) (a b : string) :
  all_chars p (a ++ b) = (all_chars p a && all_chars p b)%bool.
Proof.
  induction a as [|c a IH]; [reflexivity|].
  cbn [append all_chars]. now rewrite IH, andb_assoc.
Qed.

Lemma rstrip_empty (s : string) :
  rstrip s = "" <-> all_chars is_space s = true.
Proof.
  induction s as [|c r IH]; [now split|].
  cbn [rstrip all_chars]. destruct (rstrip r) as [|d r'] eqn:E.
  - destruct (is_space c).
    + split; [intros _; now apply IH | reflexivity].
    + split; discriminate.
  - split; [discriminate|]. intros H. apply andb_prop in H.
    destruct H as [_ H]. apply IH in H. discriminate.
Qed.

(** A text is blank when it is empty or made of white space only. *)
Lemma strip_empty (s : string) :
  strip s = "" <-> all_chars is_space s = true.
Proof.
  unfold strip, lstrip. rewrite rstrip_empty.
  rewrite (span_eq is_space s) at 2. rewrite all_chars_app, span_fst_all.
  reflexivity.
Qed.

(** X17: on a text of ASCII characters the parser answers [None] exactly
    when the text is empty or made of white space only; every other text
    gives a number or raises.  A missing cell gives [None] too. *)
Theorem parse_none_exactly_blank (x : string) :
  is_ascii x = true ->
  parse_delta_to_hours NA = Ret None /\
  (parse_delta_to_hours (Text x) = Ret None <->
   all_chars is_space x = true) /\
  (all_chars is_space x = false ->
   parse_delta_to_hours (Text x) = Raise OverflowError \/
   exists h, parse_delta_to_hours (Text x) = Ret (Some h)).
Proof.
  intros _. split; [reflexivity|]. split.
  - rewrite <- strip_empty. split.
    + intros H. apply parse_none_iff in H.
      destruct H as [H | (y & E & B)]; [discriminate|].
      now inversion E; subst.
    + apply parse_blank.
  - intros H.
    assert (N : strip x <> "").
    { intros E. apply strip_empty in E. congruence. }
    rewrite (parse_nonblank x N). cbv zeta.
    destruct (total_hours _ _ _ _ _) as [h|[]];
      [right; now exists h | now left].
Qed.

Lemma parse_none_exactly_blank_tab :
  let x := String (ascii_of_nat 9) " " in
  is_ascii x = true /\ all_chars is_space x = true /\
  (parse_delta_to_hours NA = Ret None /\
   (parse_delta_to_hours (Text x) = Ret None <->
    all_chars is_space x = true) /\
   (all_chars is_space x = false ->
    parse_delta_to_hours (Text x) = Raise OverflowError \/
    exists h, parse_delta_to_hours (Text x) = Ret (Some h))).
Proof.
  split; [reflexivity|]. split; [reflexivity|].
  apply parse_none_exactly_blank. reflexivity.
Defined.

(** X18: a text of ASCII characters that is not blank and names no unit
    (none of hari, jam, mnt, min, dtk, sec, s occurs in its normalised
    lower-case form) parses to zero hours: not to [None], and without an
    exception. *)
Theorem parse_text_without_unit (x : string) :
  is_ascii x = true ->
  strip x <> "" ->
  (forall t, In t ["hari"; "jam"; "mnt"; "min"; "dtk"; "sec"; "s"] ->
             contains t (lower (normalise (strip x))) = false) ->
  parse_delta_to_hours (Text x) = Ret (Some (z2q 0)).
Proof. intros _. apply parse_no_unit. Qed.

Lemma parse_text_without_unit_example :
  parse_delta_to_hours (Text " 12:30 ") = Ret (Some (z2q 0)).
Proof.
  apply parse_text_without_unit; [reflexivity | discriminate |].
  intros t H. cbn in H.
  repeat (destruct H as [<-|H]; [reflexivity|]). contradiction.
Defined.

Lemma replace_step (old new : string) (c : ascii) (s : string) :
  prefix old (String c s) = false ->
  replace old new (String c s) = String c (replace old new s).
Proof. intros H. unfold replace. cbn [replace_from]. now rewrite H. Qed.

Lemma normalise_digit_head (d : ascii) (x : string) :
  is_digit d = true -> normalise (String d x) = String d (normalise x).
Proof.
  intros D. unfold normalise, EN_DASH, EM_DASH.
  change (String d x) with (String d "" ++ x).
  rewrite !(replace_skip is_digit) by (reflexivity || (cbn; now rewrite D)).
  reflexivity.
Qed.

Lemma strip_sign_digit (c d : ascii) (r : string) :
  is_space c = false -> is_digit d = true ->
  strip (String c (String d r)) = String c (strip (String d r)).
Proof.
  intros C D. unfold strip.
  rewrite (lstrip_nonspace c _ C), (lstrip_nonspace d _ (digit_not_space d D)).
  now rewrite (rstrip_cons_nonspace c _ C).
Qed.

Lemma strip_digit_head (d : ascii) (r : string) :
  is_digit d = true -> strip (String d r) = String d (rstrip r).
Proof.
  intros D. unfold strip.
  rewrite (lstrip_nonspace d _ (digit_not_space d D)).
  apply rstrip_cons_nonspace, digit_not_space, D.
Qed.

Lemma match_here_after_dash (toks : list string) (d : ascii) (u : string) :
  is_digit d = true ->
  match_here toks (String "-" (String d u))
  = option_map (String "-") (match_here toks (String d u)).
Proof.
  intros D. unfold match_here.
  rewrite Ascii.eqb_refl.
  destruct (Ascii.eqb_spec d "-") as [E|_];
    [now apply digit_not_dash in D|].
  destruct (span is_space (String d u)) as [ws s2].
  destruct (span is_digit s2) as [ds s3].
  destruct ds; [reflexivity|].
  now destruct (existsb (fun t => prefix t (lower (lstrip s3))) toks).
Qed.

Lemma magnitude_after_dash (toks : list string) (d : ascii) (u : string) :
  is_digit d = true ->
  magnitude toks (String "-" (String d u)) = magnitude toks (String d u).
Proof.
  intros D. unfold magnitude. cbn [re_search].
  rewrite (match_here_after_dash toks d u D).
  destruct (match_here toks (String d u)) as [g|]; [|reflexivity].
  reflexivity.
Qed.

Lemma match_here_word (toks : list string) (c : ascii) (s : string) :
  is_space c = false -> word_char c = true ->
  match_here toks (String c s) = None.
Proof.
  intros S W. unfold word_char, sign_char in W.
  apply negb_true_iff, orb_false_elim in W. destruct W as [D N].
  unfold match_here. rewrite N. cbn [span]. rewrite S. cbn [span].
  now rewrite D.
Qed.

Lemma magnitude_after_plus (toks : list string) (s : string) :
  magnitude toks (String "+" s) = magnitude toks s.
Proof.
  unfold magnitude. cbn [re_search].
  now rewrite (match_here_word toks "+" s).
Qed.

Lemma z2q_opp_one : z2q (-1) = (- z2q 1)%Qc.
Proof. apply Qc_is_canon. reflexivity. Qed.

Lemma total_hours_negative (days hours mins secs : Z) :
  total_hours (-1) days hours mins secs
  = match total_hours 1 days hours mins secs with
    | Ret h => Ret (- h)%Qc
    | Raise e => Raise e
    end.
Proof.
  unfold total_hours, bind.
  destruct (float_of_int mins); [|reflexivity].
  destruct (float_of_int (days * 24 + hours)); [|reflexivity].
  destruct (float_of_int secs); [|reflexivity].
  pose proof FLOAT_LIMIT_pos.
  rewrite !float_of_int_small by (cbn; lia).
  rewrite z2q_opp_one. f_equal. ring.
Qed.

(** X19: the sign in front of a number.  For a text that starts with a
    digit, writing "-" in front of it changes the sign of the parsed hours
    and nothing else (an exception stays the same exception), and writing
    "+" in front of it changes nothing. *)
Theorem parse_leading_sign (d : ascii) (r : string) :
  is_digit d = true ->
  parse_delta_to_hours (Text (String "-" (String d r)))
  = negate_result (parse_delta_to_hours (Text (String d r))) /\
  parse_delta_to_hours (Text (String "+" (String d r)))
  = parse_delta_to_hours (Text (String d r)).
Proof.
  intros D.
  assert (N0 : strip (String d r) <> "")
    by (rewrite strip_digit_head by exact D; discriminate).
  assert (E0 : strip (String d r) = String d (rstrip r))
    by now apply strip_digit_head.
  split.
  - rewrite !parse_nonblank;
      [|exact N0 | rewrite strip_sign_digit by (exact D || reflexivity);
                   discriminate].
    cbv zeta. rewrite strip_sign_digit by (exact D || reflexivity).
    rewrite E0, (normalise_head "-") by now left.
    rewrite normalise_digit_head by exact D.
    set (u := normalise (rstrip r)).
    unfold days_of, hours_of, mins_of, secs_of.
    rewrite !magnitude_after_dash by exact D.
    assert (S1 : sign_of (String "-" (String d u)) = -1) by reflexivity.
    assert (S2 : sign_of (String d u) = 1).
    { unfold sign_of. rewrite !startswith_char.
      destruct (Ascii.eqb_spec "-" d) as [<-|_]; [discriminate D|].
      now destruct (Ascii.eqb "+" d). }
    rewrite S1, S2, total_hours_negative.
    now destruct (total_hours 1 _ _ _ _).
  - rewrite !parse_nonblank;
      [|exact N0 | rewrite strip_sign_digit by (exact D || reflexivity);
                   discriminate].
    cbv zeta. rewrite strip_sign_digit by (exact D || reflexivity).
    rewrite E0, (normalise_head "+") by now right.
    rewrite normalise_digit_head by exact D.
    set (u := normalise (rstrip r)).
    unfold days_of, hours_of, mins_of, secs_of.
    rewrite !magnitude_after_plus.
    assert (S1 : sign_of (String "+" (String d u)) = 1) by reflexivity.
    assert (S2 : sign_of (String d u) = 1).
    { unfold sign_of. rewrite !startswith_char.
      destruct (Ascii.eqb_spec "-" d) as [<-|_]; [discriminate D|].
      now destruct (Ascii.eqb "+" d). }
    now rewrite S1, S2.
Qed.

Lemma parse_leading_sign_example :
  parse_delta_to_hours (Text "-3 jam 30 mnt")
  = negate_result (parse_delta_to_hours (Text "3 jam 30 mnt")) /\
  parse_delta_to_hours (Text "+3 jam 30 mnt")
  = parse_delta_to_hours (Text "3 jam 30 mnt").
Proof. apply (parse_leading_sign "3" " jam 30 mnt"). reflexivity. Defined.

Lemma word_not_digit (c : ascii) : word_char c = true -> is_digit c = false.
Proof.
  unfold word_char, sign_char. intros W.
  apply negb_true_iff, orb_false_elim in W. now destruct W.
Qed.

Lemma filter_words (w : string) :
  all_chars word_char w = true -> filter_str is_digit w = "".
Proof.
  induction w as [|c w IH]; [reflexivity|].
  cbn [all_chars filter_str]. intros H. apply andb_prop in H.
  destruct H as [Hc H]. now rewrite (word_not_digit c Hc), IH.
Qed.

Lemma filter_app_str (p : ascii -> bool) (a b : string) :
  filter_str p (a ++ b) = filter_str p a ++ filter_str p b.
Proof.
  induction a as [|c a IH]; [reflexivity|].
  cbn [append filter_str]. destruct (p c); cbn [append]; now rewrite IH.
Qed.

(** The white space in front of a number, inside a text of words. *)
Lemma span_space_words (w ds r : string) :
  all_chars word_char w = true ->
  ds <> "" -> all_chars is_digit ds = true ->
  span is_space (w ++ ds ++ r) = (w, ds ++ r) \/
  fst (span is_digit (snd (span is_space (w ++ ds ++ r)))) = "".
Proof.
  intros W N D. induction w as [|c w IH].
  - left. cbn [append]. now apply span_space_digits.
  - cbn [all_chars] in W. apply andb_prop in W. destruct W as [Wc W].
    cbn [append span]. destruct (is_space c) eqn:S.
    + destruct (IH W) as [E|E].
      * left. now rewrite E.
      * right. now destruct (span is_space (w ++ ds ++ r)).
    + right. cbn [snd span]. now rewrite (word_not_digit c Wc).
Qed.

Lemma match_here_words (toks : list string) (c : ascii) (w ds r g : string) :
  all_chars word_char (String c w) = true ->
  ds <> "" -> all_chars is_digit ds = true -> span is_digit r = ("", r) ->
  match_here toks (String c w ++ ds ++ r) = Some g ->
  filter_str is_digit g = ds /\ unit_follows toks r = true.
Proof.
  intros W N D R. pose proof W as W'.
  cbn [all_chars] in W'. apply andb_prop in W'. destruct W' as [Wc _].
  unfold word_char, sign_char in Wc.
  apply negb_true_iff, orb_false_elim in Wc. destruct Wc as [_ Nd].
  unfold match_here. cbn [append]. rewrite Nd.
  change (String c (w ++ ds ++ r)) with (String c w ++ ds ++ r).
  destruct (span_space_words (String c w) ds r W N D) as [E|E].
  - rewrite E, (span_app_all is_digit ds r D R).
    assert (HM : forall X : option string,
               match ds with "" => None | String _ _ => X end = X)
      by (intros X; destruct ds; [contradiction | reflexivity]).
    rewrite HM. fold (unit_follows toks r).
    destruct (unit_follows toks r); [|discriminate].
    intros H. inversion H. split; [|reflexivity].
    cbn [append]. change (String c (w ++ ds)) with (String c w ++ ds).
    rewrite filter_app_str, (filter_words _ W).
    cbn [append]. now apply filter_all.
  - destruct (span is_space (String c w ++ ds ++ r)) as [ws s2].
    cbn [snd] in E. destruct (span is_digit s2) as [ds' s3].
    cbn [fst] in E. subst ds'. discriminate.
Qed.

Lemma magnitude_skip_words (toks : list string) (w : string)
  (d : Decimal.uint) (r : string) :
  all_chars word_char w = true ->
  d <> Decimal.Nil -> span is_digit r = ("", r) ->
  magnitude toks (w ++ NilEmpty.string_of_uint d ++ r)
  = magnitude toks (NilEmpty.string_of_uint d ++ r).
Proof.
  intros W N R. induction w as [|c w IH]; [reflexivity|].
  pose proof W as W'. cbn [all_chars] in W'. apply andb_prop in W'.
  destruct W' as [_ Ww].
  unfold magnitude at 1.
  change ((String c w) ++ ?x) with (String c (w ++ x)).
  cbn [re_search].
  change (String c (w ++ ?x)) with ((String c w) ++ x).
  destruct (match_here toks (String c w ++ NilEmpty.string_of_uint d ++ r))
    as [g|] eqn:M.
  - apply match_here_words in M;
      [|assumption | now apply digits_nonempty | apply digits_all | assumption].
    destruct M as [F U]. unfold re_sub_nondigit. rewrite F. unfold magnitude.
    rewrite re_search_digits_unit;
      [|now apply digits_nonempty | apply digits_all | assumption | assumption].
    unfold re_sub_nondigit. now rewrite (filter_all _ _ (digits_all d)).
  - exact (IH Ww).
Qed.

Lemma nonneg_number (n : Z) :
  0 <= n ->
  exists d, d <> Decimal.Nil /\ Z.of_uint d = n /\
            str_of_int n = NilEmpty.string_of_uint d /\
            (n < FLOAT_LIMIT ->
             (String.length (NilEmpty.string_of_uint d) <= MAX_STR_DIGITS)%nat).
Proof.
  intros H. destruct (str_of_int_shape n) as (d & N & V & S & L).
  exists d. rewrite Z.abs_eq in V, L by exact H.
  destruct (Z.ltb_spec n 0); [lia|].
  repeat split; assumption.
Qed.

Ltac skip_replace :=
  repeat first
    [ rewrite replace_step by reflexivity
    | rewrite (replace_skip is_digit) by (reflexivity || apply digits_all) ].

Lemma normalise_four_units (d1 d2 d3 d4 : Decimal.uint) :
  let S := NilEmpty.string_of_uint d1 ++ " hari "
           ++ NilEmpty.string_of_uint d2 ++ " jam "
           ++ NilEmpty.string_of_uint d3 ++ " mnt "
           ++ NilEmpty.string_of_uint d4 ++ " dtk" in
  normalise S = S.
Proof.
  intros S. unfold S, normalise, EN_DASH, EM_DASH. cbn [append].
  skip_replace. cbn [append]. skip_replace. cbn [append]. skip_replace.
  cbn [append]. skip_replace. reflexivity.
Qed.

Lemma strip_four_units (d1 d2 d3 d4 : Decimal.uint) :
  d1 <> Decimal.Nil ->
  let S := NilEmpty.string_of_uint d1 ++ " hari "
           ++ NilEmpty.string_of_uint d2 ++ " jam "
           ++ NilEmpty.string_of_uint d3 ++ " mnt "
           ++ NilEmpty.string_of_uint d4 ++ " dtk" in
  strip S = S.
Proof.
  intros N S.
  assert (E : S = dash_of false ++ NilEmpty.string_of_uint d1
                  ++ (" hari " ++ NilEmpty.string_of_uint d2 ++ " jam "
                      ++ NilEmpty.string_of_uint d3 ++ " mnt "
                      ++ NilEmpty.string_of_uint d4 ++ " dt")
                  ++ String "k" "").
  { unfold S, dash_of. rewrite !app_assoc_str. reflexivity. }
  rewrite E. now apply strip_number.
Qed.

Lemma magnitude_number_pos (toks : list string) (d : Decimal.uint)
  (r : string) :
  d <> Decimal.Nil ->
  (String.length (NilEmpty.string_of_uint d) <= MAX_STR_DIGITS)%nat ->
  span is_digit r = ("", r) ->
  magnitude toks (NilEmpty.string_of_uint d ++ r)
  = if unit_follows toks r then Z.of_uint d else magnitude toks r.
Proof. exact (magnitude_number toks false d r). Qed.

Lemma magnitude_next (toks : list string) (d d' : Decimal.uint)
  (w r : string) :
  d <> Decimal.Nil ->
  (String.length (NilEmpty.string_of_uint d) <= MAX_STR_DIGITS)%nat ->
  d' <> Decimal.Nil ->
  all_chars word_char w = true ->
  span is_digit (w ++ NilEmpty.string_of_uint d' ++ r)
  = ("", w ++ NilEmpty.string_of_uint d' ++ r) ->
  span is_digit r = ("", r) ->
  unit_follows toks (w ++ NilEmpty.string_of_uint d' ++ r) = false ->
  magnitude toks
    (NilEmpty.string_of_uint d ++ w ++ NilEmpty.string_of_uint d' ++ r)
  = magnitude toks (NilEmpty.string_of_uint d' ++ r).
Proof.
  intros N L N' W S R U.
  rewrite magnitude_number_pos, U by assumption.
  now apply magnitude_skip_words.
Qed.

Lemma exact_below_limit (n : Z) : n < 2 ^ 53 -> n < FLOAT_LIMIT.
Proof.
  intros H. apply (Z.lt_trans _ _ _ H). reflexivity.
Qed.

(** X20: the four units together.  For non-negative integers D, H, M and
    S (each below 2^1024 - 2^970) the parser reads from the text
    "D hari H jam M mnt S dtk" the sign +1 and the magnitudes days = D,
    hours = H, mins = M and secs = S: each magnitude is read from its own
    unit and from no other.  With no minutes and no seconds and
    D*24 + H below 2^53, where the float arithmetic is exact, the text
    parses to D*24 + H hours. *)
Theorem parse_four_units (days hours mins secs : Z) :
  0 <= days < FLOAT_LIMIT -> 0 <= hours < FLOAT_LIMIT ->
  0 <= mins < FLOAT_LIMIT -> 0 <= secs < FLOAT_LIMIT ->
  let s := normalise (strip (four_units days hours mins secs)) in
  sign_of s = 1 /\
  days_of s = days /\ hours_of s = hours /\
  mins_of s = mins /\ secs_of s = secs /\
  (mins = 0 -> secs = 0 -> days * 24 + hours < 2 ^ 53 ->
   parse_delta_to_hours (Text (four_units days hours mins secs))
   = Ret (Some (z2q (days * 24 + hours)))).
Proof.
  intros [H1 B1] [H2 B2] [H3 B3] [H4 B4]. cbv zeta.
  assert (NS : strip (four_units days hours mins secs) <> "" /\
               normalise (strip (four_units days hours mins secs))
               = four_units days hours mins secs).
  { unfold four_units.
    destruct (nonneg_number days H1) as (d1 & N1 & V1 & -> & L1).
    destruct (nonneg_number hours H2) as (d2 & N2 & V2 & -> & L2).
    destruct (nonneg_number mins H3) as (d3 & N3 & V3 & -> & L3).
    destruct (nonneg_number secs H4) as (d4 & N4 & V4 & -> & L4).
    rewrite (strip_four_units d1 d2 d3 d4 N1).
    split; [|apply normalise_four_units].
    intros E. apply app_eq_nil_str in E.
    destruct E as [E _]. now apply (digits_nonempty d1 N1). }
  destruct NS as [NS EN]. rewrite EN.
  assert (M : sign_of (four_units days hours mins secs) = 1 /\
              days_of (four_units days hours mins secs) = days /\
              hours_of (four_units days hours mins secs) = hours /\
              mins_of (four_units days hours mins secs) = mins /\
              secs_of (four_units days hours mins secs) = secs).
  { unfold four_units.
    destruct (nonneg_number days H1) as (d1 & N1 & V1 & -> & L1).
    destruct (nonneg_number hours H2) as (d2 & N2 & V2 & -> & L2).
    destruct (nonneg_number mins H3) as (d3 & N3 & V3 & -> & L3).
    destruct (nonneg_number secs H4) as (d4 & N4 & V4 & -> & L4).
    specialize (L1 B1). specialize (L2 B2).
    specialize (L3 B3). specialize (L4 B4).
    unfold days_of, hours_of, mins_of, secs_of.
    rewrite (magnitude_number_pos ["hari"] d1) by (assumption || reflexivity).
    rewrite (magnitude_next ["jam"] d1 d2) by (assumption || reflexivity).
    rewrite (magnitude_number_pos ["jam"] d2) by (assumption || reflexivity).
    rewrite (magnitude_next ["mnt"; "min"] d1 d2)
      by (assumption || reflexivity).
    rewrite (magnitude_next ["mnt"; "min"] d2 d3)
      by (assumption || reflexivity).
    rewrite (magnitude_number_pos ["mnt"; "min"] d3)
      by (assumption || reflexivity).
    rewrite (magnitude_next ["dtk"; "sec"; "s"] d1 d2)
      by (assumption || reflexivity).
    rewrite (magnitude_next ["dtk"; "sec"; "s"] d2 d3)
      by (assumption || reflexivity).
    rewrite (magnitude_next ["dtk"; "sec"; "s"] d3 d4)
      by (assumption || reflexivity).
    rewrite (magnitude_number_pos ["dtk"; "sec"; "s"] d4)
      by (assumption || reflexivity).
    change (unit_follows ["hari"] _) with true.
    change (unit_follows ["jam"] _) with true.
    change (unit_follows ["mnt"; "min"] _) with true.
    change (unit_follows ["dtk"; "sec"; "s"] _) with true.
    cbv iota.
    match goal with
    | |- context [sign_of (NilEmpty.string_of_uint d1 ++ ?r)] =>
        change (sign_of (NilEmpty.string_of_uint d1 ++ r))
          with (sign_of (dash_of false ++ NilEmpty.string_of_uint d1 ++ r));
        rewrite (sign_of_number false d1 r N1)
    end.
    now rewrite V1, V2, V3, V4. }
  destruct M as (M0 & M1 & M2 & M3 & M4).
  split; [exact M0|]. split; [exact M1|]. split; [exact M2|].
  split; [exact M3|]. split; [exact M4|].
  intros Z3 Z4 E. rewrite (parse_nonblank _ NS). cbv zeta.
  rewrite EN, M0, M1, M2, M3, M4. subst mins secs.
  rewrite total_hours_small
    by (try split; try lia; now apply exact_below_limit).
  cbn [bind]. do 2 f_equal.
  unfold hours_formula. rewrite !z2q_zero_div, z2q_add, z2q_mul.
  replace (z2q 0) with 0%Qc by (apply Qc_is_canon; reflexivity).
  replace (z2q 1) with 1%Qc by (apply Qc_is_canon; reflexivity). ring.
Qed.

Lemma parse_four_units_example :
  let s := normalise (strip (four_units 2 3 0 0)) in
  four_units 2 3 0 0 = "2 hari 3 jam 0 mnt 0 dtk" /\
  (sign_of s = 1 /\
   days_of s = 2 /\ hours_of s = 3 /\ mins_of s = 0 /\ secs_of s = 0 /\
   (0 = 0 -> 0 = 0 -> 2 * 24 + 3 < 2 ^ 53 ->
    parse_delta_to_hours (Text (four_units 2 3 0 0))
    = Ret (Some (z2q (2 * 24 + 3))))).
Proof.
  split; [reflexivity|].
  apply parse_four_units; split; try lia; now vm_compute.
Defined.

(** ** Bulanan: the marker colour *)

(** X21: the map of the Bulanan page never uses the fallback grey.  The
    status of a row is always one of the three keys of the colour table, so
    a marker is green (#09ba53) exactly for TEPAT WAKTU, orange (#ff8c00)
    exactly for TERLAMBAT and black exactly for TIDAK MENGIRIM, and never
    #999999. *)
Theorem marker_color_never_default (r : monthly_row) :
  (marker_color r = "#09ba53" <-> status_of r = ON_TIME) /\
  (marker_color r = "#ff8c00" <-> status_of r = LATE) /\
  (marker_color r = "#000000" <-> status_of r = NOT_SENT) /\
  marker_color r <> "#999999".
Proof.
  unfold marker_color.
  destruct (status_of_cases r) as [E|[E|E]]; rewrite E;
    repeat split; intros; try reflexivity; try discriminate.
Qed.

(** ** Rincian Data Tahunan: hours of a month column *)

Lemma apply_parse_length (cells : list cell) (hs : list (option Qc)) :
  apply_parse cells = Ret hs -> List.length hs = List.length cells.
Proof.
  revert hs. induction cells as [|c cs IH]; intros hs.
  - intros H. inversion H. reflexivity.
  - cbn [apply_parse]. unfold bind.
    destruct (parse_delta_to_hours c); [|discriminate].
    destruct (apply_parse cs) as [hs'|]; [|discriminate].
    intros H. inversion H. cbn [List.length]. now rewrite (IH hs').
Qed.

Lemma apply_parse_ok (cells : list cell) :
  (forall c, In c cells -> parse_delta_to_hours c <> Raise OverflowError) ->
  apply_parse cells
  = Ret (map (fun c => match parse_delta_to_hours c with
                       | Ret h => h
                       | Raise _ => None
                       end) cells).
Proof.
  induction cells as [|c cs IH]; intros H; [reflexivity|].
  cbn [apply_parse map]. rewrite IH by (intros x Hx; apply H; now right).
  unfold bind. specialize (H c (or_introl eq_refl)).
  destruct (parse_delta_to_hours c) as [h|[]]; [reflexivity | contradiction].
Qed.

Lemma apply_parse_raises (cells : list cell) :
  (exists c, In c cells /\ parse_delta_to_hours c = Raise OverflowError) ->
  apply_parse cells = Raise OverflowError.
Proof.
  induction cells as [|c cs IH]; intros (x & Hx & R); [contradiction|].
  cbn [apply_parse]. unfold bind.
  destruct (parse_delta_to_hours c) as [h|[]] eqn:P; [|reflexivity].
  destruct Hx as [->|Hx]; [congruence|].
  rewrite IH; [reflexivity|]. now exists x.
Qed.

(** X22: one cell that makes the parser raise empties its whole month
    column in Rincian Data Tahunan.  The column of hours has one value for
    each cell; when no cell raises, each value is the parsed hours of its
    cell (missing for a blank cell); when some cell raises, the exception
    is caught around the whole column and every value of the column is
    missing, the cells that parse included. *)
Theorem hrs_column_all_or_nothing (cells : list cell) :
  List.length (hrs_column cells) = List.length cells /\
  ((forall c, In c cells -> parse_delta_to_hours c <> Raise OverflowError) ->
   hrs_column cells
   = map (fun c => match parse_delta_to_hours c with
                   | Ret h => h
                   | Raise _ => None
                   end) cells) /\
  ((exists c, In c cells /\ parse_delta_to_hours c = Raise OverflowError) ->
   hrs_column cells = map (fun _ => None) cells) /\
  hrs_column [Text "2 jam"] = [Some (z2q 2)] /\
  hrs_column [Text "2 jam"; Text (huge_with " hari")] = [None; None].
Proof.
  split; [|split; [|split; [|split]]].
  - unfold hrs_column. destruct (apply_parse cells) as [hs|] eqn:E.
    + now apply apply_parse_length.
    + apply length_map.
  - intros H. unfold hrs_column. now rewrite apply_parse_ok.
  - intros H. unfold hrs_column. now rewrite apply_parse_raises.
  - reflexivity.
  - assert (R : parse_delta_to_hours (Text (huge_with " hari"))
                = Raise OverflowError) by (vm_compute; reflexivity).
    unfold hrs_column. rewrite apply_parse_raises; [reflexivity|].
    exists (Text (huge_with " hari")). split; [right; now left | exact R].
Qed.

(** ** Rincian Data Tahunan: the header of the status table *)

Lemma lower_upper_char (c : ascii) : lower_char (upper_char c) = lower_char c.
Proof. by_all_chars c. Qed.

Lemma lower_char_idem (c : ascii) : lower_char (lower_char c) = lower_char c.
Proof. by_all_chars c. Qed.

Lemma is_letter_lower (c : ascii) : is_letter (lower_char c) = is_letter c.
Proof. by_all_chars c. Qed.

Lemma lower_title_from (b : bool) (s : string) :
  lower (title_from b s) = lower s.
Proof.
  unfold lower. revert b. induction s as [|c r IH]; intros b; [reflexivity|].
  cbn [title_from map_str]. rewrite IH.
  destruct b; now rewrite ?lower_upper_char, ?lower_char_idem.
Qed.

Lemma title_three (U l1 l2 : ascii) (x : string) :
  upper_char (lower_char U) = U -> is_letter U = true ->
  lower_char l1 = l1 -> is_letter l1 = true -> lower_char l2 = l2 ->
  (title x = String U (String l1 (String l2 "")) <->
   lower x = String (lower_char U) (String l1 (String l2 ""))).
Proof.
  intros HU LU H1 L1 H2. split; intros H.
  - rewrite <- (lower_title_from false x). fold (title x). rewrite H.
    unfold lower. cbn [map_str]. now rewrite H1, H2.
  - destruct x as [|a [|b [|c [|e x]]]]; try discriminate H.
    unfold lower in H. cbn [map_str] in H. injection H as Ha Hb Hc.
    assert (Ia : is_letter a = true)
      by (rewrite <- is_letter_lower, Ha, is_letter_lower; exact LU).
    assert (Ib : is_letter b = true)
      by (rewrite <- is_letter_lower, Hb; exact L1).
    assert (Ua : upper_char a = U)
      by (rewrite <- upper_lower_char, Ha; exact HU).
    unfold title. cbn [title_from]. now rewrite Ia, Ib, Ua, Hb, Hc.
Qed.

Lemma month_base_prefix (m c : string) :
  In m MONTH_ABBR ->
  String.eqb (month_base c) m = month_prefix m c.
Proof.
  intros Hm. unfold month_base, month_prefix.
  assert (T : title (take 3 (strip c)) = m
              <-> lower (take 3 (strip c)) = lower (take 3 m)).
  { cbn in Hm.
    repeat (destruct Hm as [<-|Hm];
            [apply title_three; reflexivity|]).
    contradiction. }
  destruct (String.eqb_spec (title (take 3 (strip c))) m) as [E|E];
    destruct (String.eqb_spec (lower (take 3 (strip c))) (lower (take 3 m)))
      as [F|F]; try reflexivity.
  - now apply T in E.
  - now apply T in F.
Qed.

Lemma dict_find_app (d : dict) (k k' v : string) :
  dict_find (d ++ [(k', v)])%list k
  = match dict_find d k with
    | Some x => Some x
    | None => if String.eqb k' k then Some v else None
    end.
Proof.
  unfold dict_find. rewrite find_app.
  destruct (find (fun kv => String.eqb (fst kv) k) d); [reflexivity|].
  cbn [find fst]. now destruct (String.eqb k' k).
Qed.

Lemma dict_find_map_set (d : dict) (k v k' : string) :
  dict_find (map (fun kv => if String.eqb (fst kv) k then (k, v) else kv) d) k'
  = if String.eqb k k' then option_map (fun _ => v) (dict_find d k)
    else dict_find d k'.
Proof.
  unfold dict_find. induction d as [|[a b] d IH].
  - now destruct (String.eqb k k').
  - cbn [map find fst].
    destruct (String.eqb_spec a k) as [E|N]; cbn [fst].
    + destruct (String.eqb_spec k k') as [E'|N'].
      * reflexivity.
      * subst a. destruct (String.eqb_spec k k'); [contradiction|]. exact IH.
    + destruct (String.eqb_spec a k') as [E'|N'].
      * destruct (String.eqb_spec k k') as [E2|_]; [congruence|reflexivity].
      * exact IH.
Qed.

Lemma dict_find_set (d : dict) (k v k' : string) :
  dict_find (dict_set d k v) k'
  = if String.eqb k k' then Some v else dict_find d k'.
Proof.
  unfold dict_set. destruct (dict_find d k) as [x|] eqn:F.
  - rewrite dict_find_map_set, F. reflexivity.
  - rewrite dict_find_app.
    destruct (String.eqb_spec k k') as [<-|N]; [now rewrite F|].
    now destruct (dict_find d k').
Qed.

Lemma month_map_fold (l : list string) (d : dict) (b : string) :
  dict_find
    (fold_left
       (fun d orig =>
          match dict_find d (month_base orig) with
          | Some _ => d
          | None => dict_set d (month_base orig) orig
          end) l d) b
  = match dict_find d b with
    | Some v => Some v
    | None => find (fun c => String.eqb (month_base c) b) l
    end.
Proof.
  revert d. induction l as [|c l IH]; intros d.
  - cbn [fold_left find]. now destruct (dict_find d b).
  - cbn [fold_left find]. rewrite IH.
    destruct (dict_find d (month_base c)) as [x|] eqn:F.
    + destruct (dict_find d b) eqn:G; [reflexivity|].
      destruct (String.eqb_spec (month_base c) b) as [E|_]; [congruence|].
      reflexivity.
    + rewrite dict_find_set.
      destruct (String.eqb_spec (month_base c) b) as [E|_].
      * rewrite <- E, F. reflexivity.
      * reflexivity.
Qed.

Lemma find_filter {A : Type} (p q : A -> bool) (l : list A) :
  (forall x, q x = true -> p x = true) ->
  find q (filter p l) = find q l.
Proof.
  intros H. induction l as [|x l IH]; [reflexivity|].
  cbn [filter find]. destruct (p x) eqn:P.
  - cbn [find]. now rewrite IH.
  - destruct (q x) eqn:Q; [|exact IH].
    apply H in Q. congruence.
Qed.

Lemma find_ext_str (p q : string -> bool) (l : list string) :
  (forall x, p x = q x) -> find p l = find q l.
Proof.
  intros H. induction l as [|x l IH]; [reflexivity|].
  cbn [find]. now rewrite H, IH.
Qed.

Lemma month_map_find (cols : list string) (m : string) :
  In m MONTH_ABBR ->
  dict_find (month_map cols) m = find (month_prefix m) cols.
Proof.
  intros Hm. unfold month_map. rewrite month_map_fold.
  change (dict_find [] m) with (@None string). cbv iota.
  rewrite (find_ext_str _ (month_prefix m))
    by (intros x; now apply month_base_prefix).
  unfold month_like_cols.
  assert (Q : forall x, month_prefix m x = true ->
                        mem (month_base x) MONTH_ABBR = true).
  { intros x P. apply mem_In.
    rewrite <- (month_base_prefix m x Hm) in P.
    apply String.eqb_eq in P. now rewrite P. }
  destruct (filter (fun c => mem (month_base c) MONTH_ABBR) cols)
    as [|y l] eqn:F.
  - assert (N : find (month_prefix m) cols = None).
    { rewrite <- (find_filter (fun c => mem (month_base c) MONTH_ABBR))
        by exact Q.
      now rewrite F. }
    rewrite N. apply find_none_iff. intros x Hx.
    apply filter_In in Hx. destruct Hx as [Hx _].
    exact (proj1 (find_none_iff _ _) N x Hx).
  - rewrite <- F. now apply find_filter.
Qed.

Lemma flat_map_ext_in {A B : Type} (f g : A -> list B) (l : list A) :
  (forall x, In x l -> f x = g x) -> flat_map f l = flat_map g l.
Proof.
  induction l as [|x l IH]; intros H; [reflexivity|].
  cbn [flat_map]. rewrite (H x (or_introl eq_refl)), IH; [reflexivity|].
  intros y Hy. apply H. now right.
Qed.

Lemma select_In (cols keys : list string) (x : string) :
  In x (select cols keys) <-> In x keys /\ In x cols.
Proof.
  unfold select. rewrite in_flat_map. split.
  - intros (k & Hk & Hx). apply filter_In in Hx. destruct Hx as [Hx E].
    apply String.eqb_eq in E. subst. now split.
  - intros [Hk Hx]. exists x. split; [exact Hk|].
    apply filter_In. split; [exact Hx | apply String.eqb_refl].
Qed.

Lemma unique_from_app_seen (seen l r : list string) :
  (forall x, In x l -> In x seen) ->
  unique_from seen (l ++ r) = unique_from seen r.
Proof.
  induction l as [|x l IH]; intros H; [reflexivity|].
  cbn [app unique_from].
  rewrite (proj2 (mem_In x seen) (H x (or_introl eq_refl))).
  apply IH. intros y Hy. apply H. now right.
Qed.

Lemma unique_from_select (cols keys seen : list string) :
  NoDup keys -> (forall k, In k keys -> In k cols /\ ~ In k seen) ->
  unique_from seen (select cols keys) = keys.
Proof.
  revert seen. induction keys as [|k keys IH]; intros seen N H; [reflexivity|].
  inversion N as [|? ? Nk Nks]. subst.
  destruct (H k (or_introl eq_refl)) as [Hc Hs].
  unfold select. cbn [flat_map]. fold (select cols keys).
  assert (B : exists b, filter (String.eqb k) cols = k :: b /\
                        forall x, In x b -> x = k).
  { assert (I : In k (filter (String.eqb k) cols))
      by (apply filter_In; split; [exact Hc | apply String.eqb_refl]).
    assert (A : forall x, In x (filter (String.eqb k) cols) -> x = k).
    { intros x Hx. apply filter_In in Hx. destruct Hx as [_ E].
      apply String.eqb_eq in E. now subst. }
    destruct (filter (String.eqb k) cols) as [|y b]; [contradiction|].
    exists b. rewrite (A y (or_introl eq_refl)). split; [reflexivity|].
    intros x Hx. apply A. now right. }
  destruct B as (b & -> & Hb). cbn [app unique_from].
  rewrite (proj2 (mem_false k seen) Hs). f_equal.
  rewrite unique_from_app_seen
    by (intros x Hx; left; symmetry; now apply Hb).
  apply IH; [exact Nks|]. intros k' Hk'.
  destruct (H k' (or_intror Hk')) as [Hc' Hs']. split; [exact Hc'|].
  intros [E|I]; [subst; contradiction | contradiction].
Qed.

Lemma month_code_inj (m m' : string) :
  In m MONTH_ABBR -> In m' MONTH_ABBR -> month_code m = month_code m' ->
  m = m'.
Proof.
  intros H H' E. cbn in H, H'.
  repeat (destruct H as [<-|H]);
    try contradiction;
    repeat (destruct H' as [<-|H']); try contradiction;
    try reflexivity; discriminate E.
Qed.

Lemma month_abbr_not_station (m : string) :
  In m MONTH_ABBR ->
  month_prefix m "station_name" = false /\ month_prefix m "wmoid" = false.
Proof.
  intros H. cbn in H.
  repeat (destruct H as [<-|H]; [split; reflexivity|]). contradiction.
Qed.

Lemma month_src_prefix (cols : list string) (m s : string) :
  find (month_prefix m) cols = Some s -> In s cols /\ month_prefix m s = true.
Proof. apply find_some. Qed.

Lemma month_src_unique (cols : list string) (m m' s : string) :
  In m MONTH_ABBR -> In m' MONTH_ABBR ->
  find (month_prefix m) cols = Some s -> find (month_prefix m') cols = Some s ->
  m = m'.
Proof.
  intros H H' S S'. apply month_src_prefix in S, S'.
  apply month_code_inj; try assumption.
  now apply (month_prefix_code m m' s).
Qed.

Lemma rename_fold (cols res ms : list string) (rm : dict) (k : string) :
  (forall m s, In m ms -> find (month_prefix m) cols = Some s -> In s res) ->
  (forall m, In m ms -> In m MONTH_ABBR) -> NoDup ms ->
  dict_find (fold_left (rename_step (month_map cols) res) ms rm) k
  = match find (fun m => match find (month_prefix m) cols with
                         | Some s => String.eqb s k
                         | None => false
                         end) ms with
    | Some m => Some m
    | None => dict_find rm k
    end.
Proof.
  revert rm. induction ms as [|m ms IH]; intros rm R M N; [reflexivity|].
  inversion N as [|? ? Nm Nms]. subst.
  cbn [fold_left find].
  rewrite IH;
    [|intros m' s Hm'; apply R; now right
     |intros m' Hm'; apply M; now right | exact Nms].
  unfold rename_step.
  rewrite (month_map_find cols m (M m (or_introl eq_refl))).
  destruct (find (month_prefix m) cols) as [s|] eqn:S; [|reflexivity].
  rewrite (proj2 (mem_In s res) (R m s (or_introl eq_refl) S)).
  rewrite dict_find_set.
  destruct (String.eqb_spec s k) as [<-|Ne]; [|reflexivity].
  destruct (find _ ms) as [m'|] eqn:F; [|reflexivity].
  apply find_some in F. destruct F as [Hm' E].
  destruct (find (month_prefix m') cols) as [s'|] eqn:S'; [|discriminate].
  apply String.eqb_eq in E. subst s'.
  assert (m = m').
  { apply (month_src_unique cols m m' s); try assumption.
    - apply M. now left.
    - apply M. now right. }
  subst m'. contradiction.
Qed.

Lemma keep_month_first (cols : list string) (m : string) :
  In m MONTH_ABBR ->
  keep_month (month_map cols) cols m = first_with_prefix m cols.
Proof.
  intros Hm. unfold keep_month, first_with_prefix.
  rewrite (month_map_find cols m Hm).
  destruct (find (month_prefix m) cols) as [s|] eqn:S; [|reflexivity].
  apply find_some in S. destruct S as [S _].
  now rewrite (proj2 (mem_In s cols) S).
Qed.

Lemma existsb_find (p : string -> bool) (l : list string) :
  existsb p l = match find p l with Some _ => true | None => false end.
Proof.
  induction l as [|x l IH]; [reflexivity|].
  cbn [existsb find]. now destruct (p x).
Qed.

Lemma filter_none {A : Type} (p : A -> bool) (l : list A) :
  (forall x, In x l -> p x = false) -> filter p l = [].
Proof.
  induction l as [|x l IH]; intros H; [reflexivity|].
  cbn [filter]. rewrite (H x (or_introl eq_refl)). apply IH.
  intros y Hy. apply H. now right.
Qed.

Lemma status_header_nodup : NoDup STATUS_HEADER.
Proof.
  unfold STATUS_HEADER, MONTH_ABBR.
  repeat (constructor;
          [cbn [In]; intros H;
           repeat (destruct H as [H|H]; [discriminate H|]); exact H|]).
  constructor.
Qed.

(** X23: the header of the status table of Rincian Data Tahunan.  For a
    status sheet that is not empty, with its header cleaned and the
    columns LAT and LON dropped, the table has the column "Nama Stasiun"
    when the sheet has [station_name], then "WMO ID" when it has [wmoid],
    then one column for each month, Jan to Des, that is the prefix (first
    three characters, any case) of some header: no other column, no
    duplicate, and in this order whatever the order of the sheet.  Headers
    that hold a month code only further inside give no month column. *)
Theorem status_display_header_columns (src_cols : list string) :
  let cols := drop_column "LON" (drop_column "LAT" (clean_columns src_cols)) in
  status_display_header src_cols
  = ((if mem "station_name" cols then ["Nama Stasiun"] else [])
     ++ (if mem "wmoid" cols then ["WMO ID"] else [])
     ++ filter (fun m => existsb (month_prefix m) cols) MONTH_ABBR)%list.
Proof.
  intros cols. unfold status_display_header. fold cols.
  rewrite (flat_map_ext_in (keep_month (month_map cols) cols)
             (fun m => first_with_prefix m cols))
    by (intros m Hm; now apply keep_month_first).
  set (keep := ((if mem "station_name" cols then ["station_name"] else [])
                ++ (if mem "wmoid" cols then ["wmoid"] else [])
                ++ flat_map (fun m => first_with_prefix m cols) MONTH_ABBR)%list).
  assert (K : forall x, In x keep <->
                (x = "station_name" /\ In x cols) \/
                (x = "wmoid" /\ In x cols) \/
                exists m, In m MONTH_ABBR /\
                          find (month_prefix m) cols = Some x).
  { intros x. unfold keep. rewrite !in_app_iff, in_flat_map. split.
    - intros [H|[H|(m & Hm & H)]].
      + left. destruct (mem "station_name" cols) eqn:E; [|contradiction].
        destruct H as [<-|[]]. split; [reflexivity | now apply mem_In].
      + right. left. destruct (mem "wmoid" cols) eqn:E; [|contradiction].
        destruct H as [<-|[]]. split; [reflexivity | now apply mem_In].
      + right. right. exists m. split; [exact Hm|].
        unfold first_with_prefix in H.
        destruct (find (month_prefix m) cols); [|contradiction].
        destruct H as [<-|[]]. reflexivity.
    - intros [[-> H]|[[-> H]|(m & Hm & H)]].
      + left. rewrite (proj2 (mem_In _ _) H). now left.
      + right. left. rewrite (proj2 (mem_In _ _) H). now left.
      + right. right. exists m. split; [exact Hm|].
        unfold first_with_prefix. rewrite H. now left. }
  assert (KC : forall x, In x keep -> In x cols).
  { intros x Hx. apply K in Hx.
    destruct Hx as [[_ H]|[[_ H]|(m & _ & H)]]; try exact H.
    now apply find_some in H. }
  set (res := select cols keep).
  assert (R : forall x, In x res <-> In x keep).
  { intros x. unfold res. rewrite select_In. split; [now intros [H _]|].
    intros H. split; [exact H | now apply KC]. }
  assert (Rs : mem "station_name" res = mem "station_name" cols).
  { destruct (mem "station_name" cols) eqn:E.
    - apply mem_In, R, K. left. split; [reflexivity | now apply mem_In].
    - apply mem_false. intros I. apply R, KC, mem_In in I. congruence. }
  assert (Rw : mem "wmoid" res = mem "wmoid" cols).
  { destruct (mem "wmoid" cols) eqn:E.
    - apply mem_In, R, K. right. left. split; [reflexivity | now apply mem_In].
    - apply mem_false. intros I. apply R, KC, mem_In in I. congruence. }
  rewrite Rs, Rw.
  set (rm1 := if mem "wmoid" cols
              then dict_set (if mem "station_name" cols
                             then dict_set [] "station_name" "Nama Stasiun"
                             else []) "wmoid" "WMO ID"
              else if mem "station_name" cols
                   then dict_set [] "station_name" "Nama Stasiun"
                   else []).
  set (rm := fold_left (rename_step (month_map cols) res) MONTH_ABBR rm1).
  assert (F : forall k,
             dict_find rm k
             = match find (fun m => match find (month_prefix m) cols with
                                    | Some s => String.eqb s k
                                    | None => false
                                    end) MONTH_ABBR with
               | Some m => Some m
               | None => dict_find rm1 k
               end).
  { intros k. unfold rm. apply rename_fold.
    - intros m s Hm S. apply R, K. right. right. now exists m.
    - now intros m Hm.
    - apply (NoDup_map_inv month_code), month_codes_distinct. }
  assert (Fm : forall m s, In m MONTH_ABBR ->
                           find (month_prefix m) cols = Some s ->
                           dict_find rm s = Some m).
  { intros m s Hm S. rewrite F.
    destruct (find _ MONTH_ABBR) as [m'|] eqn:E.
    - apply find_some in E. destruct E as [Hm' E].
      destruct (find (month_prefix m') cols) as [s'|] eqn:S'; [|discriminate].
      apply String.eqb_eq in E. subst s'.
      now rewrite (month_src_unique cols m m' s Hm Hm' S S').
    - exfalso. apply (proj1 (find_none_iff _ _) E m) in Hm.
      rewrite S, String.eqb_refl in Hm. discriminate. }
  assert (Fn : forall k, (k = "station_name" \/ k = "wmoid") ->
                         dict_find rm k = dict_find rm1 k).
  { intros k Hk. rewrite F.
    destruct (find _ MONTH_ABBR) as [m'|] eqn:E; [exfalso | reflexivity].
    apply find_some in E. destruct E as [Hm' E].
    destruct (find (month_prefix m') cols) as [s'|] eqn:S'; [|discriminate].
    apply String.eqb_eq in E. subst s'.
    apply find_some in S'. destruct S' as [_ P].
    destruct (month_abbr_not_station m' Hm') as [P1 P2].
    destruct Hk as [->| ->]; congruence. }
  set (res2 := rename res rm).
  assert (M : forall y, In y res2 <->
                (y = "Nama Stasiun" /\ In "station_name" cols) \/
                (y = "WMO ID" /\ In "wmoid" cols) \/
                (In y MONTH_ABBR /\ existsb (month_prefix y) cols = true)).
  { intros y. unfold res2, rename. rewrite in_map_iff. split.
    - intros (x & E & Hx). apply R in Hx. apply K in Hx.
      destruct Hx as [[-> H]|[[-> H]|(m & Hm & H)]].
      + left. rewrite Fn in E by now left. unfold rm1 in E.
        rewrite (proj2 (mem_In _ _) H) in E.
        destruct (mem "wmoid" cols); cbn in E; now split.
      + right. left. rewrite Fn in E by now right. unfold rm1 in E.
        rewrite (proj2 (mem_In _ _) H) in E.
        destruct (mem "station_name" cols); cbn in E; now split.
      + right. right. rewrite (Fm m x Hm H) in E. subst y.
        split; [exact Hm|]. now rewrite existsb_find, H.
    - intros [[-> H]|[[-> H]|[Hm H]]].
      + exists "station_name". split.
        * rewrite Fn by now left. unfold rm1.
          rewrite (proj2 (mem_In _ _) H).
          now destruct (mem "wmoid" cols).
        * apply R, K. left. now split.
      + exists "wmoid". split.
        * rewrite Fn by now right. unfold rm1.
          rewrite (proj2 (mem_In _ _) H).
          now destruct (mem "station_name" cols).
        * apply R, K. right. left. now split.
      + rewrite existsb_find in H.
        destruct (find (month_prefix y) cols) as [s|] eqn:S; [|discriminate].
        exists s. split; [now rewrite (Fm y s Hm S)|].
        apply R, K. right. right. now exists y. }
  assert (Ms : mem "Nama Stasiun" res2 = mem "station_name" cols).
  { destruct (mem "station_name" cols) eqn:E.
    - apply mem_In, M. left. split; [reflexivity | now apply mem_In].
    - apply mem_false. intros I. apply M in I.
      destruct I as [[_ H]|[[H _]|[H _]]].
      + apply mem_In in H. congruence.
      + discriminate H.
      + cbn in H. repeat (destruct H as [H|H]; [discriminate H|]). exact H. }
  assert (Mw : mem "WMO ID" res2 = mem "wmoid" cols).
  { destruct (mem "wmoid" cols) eqn:E.
    - apply mem_In, M. right. left. split; [reflexivity | now apply mem_In].
    - apply mem_false. intros I. apply M in I.
      destruct I as [[H _]|[[_ H]|[H _]]].
      + discriminate H.
      + apply mem_In in H. congruence.
      + cbn in H. repeat (destruct H as [H|H]; [discriminate H|]). exact H. }
  assert (Mm : forall m, In m MONTH_ABBR ->
                         mem m res2 = existsb (month_prefix m) cols).
  { intros m Hm. destruct (existsb (month_prefix m) cols) eqn:E.
    - apply mem_In, M. right. right. now split.
    - apply mem_false. intros I. apply M in I.
      destruct I as [[H _]|[[H _]|[_ H]]]; [| |congruence];
        subst m; cbn in Hm;
        repeat (destruct Hm as [Hm|Hm]; [discriminate Hm|]); exact Hm. }
  set (order := ((if mem "Nama Stasiun" res2 then ["Nama Stasiun"] else [])
                 ++ (if mem "WMO ID" res2 then ["WMO ID"] else [])
                 ++ filter (fun m => mem m res2) MONTH_ABBR)%list).
  assert (O : order = filter (fun y => mem y res2) STATUS_HEADER).
  { unfold order, STATUS_HEADER. cbn [filter].
    now destruct (mem "Nama Stasiun" res2), (mem "WMO ID" res2). }
  assert (Rem : filter (fun c => negb (mem c order)) res2 = []).
  { assert (A : forall c, In c res2 -> negb (mem c order) = false).
    { intros c Hc. apply negb_false_iff, mem_In. rewrite O.
      apply filter_In. split; [|now apply mem_In].
      apply M in Hc. destruct Hc as [[-> _]|[[-> _]|[H _]]].
      - now left.
      - right. now left.
      - right. now right. }
    now apply filter_none. }
  rewrite Rem, app_nil_r.
  rewrite unique_from_select.
  - unfold order. rewrite Ms, Mw.
    rewrite (filter_ext_in _ (fun m => existsb (month_prefix m) cols))
      by exact Mm.
    reflexivity.
  - rewrite O. apply NoDup_filter, status_header_nodup.
  - intros k Hk. rewrite O in Hk. apply filter_In in Hk.
    destruct Hk as [_ Hk]. split; [now apply mem_In | intros []].
Qed.

(** ** The worksheets of a spreadsheet *)

Lemma int_py_canonical (g : string) (v : Z) :
  int_py g = Some v -> 0 <= v /\ int_py (str_of_int v) = Some v.
Proof.
  intros H. unfold int_py in H.
  destruct (Nat.ltb_spec MAX_STR_DIGITS (String.length g)) as [L|L];
    [discriminate|].
  destruct (NilZero.uint_of_string g) as [d|] eqn:U; [|discriminate].
  cbn [option_map] in H. injection H as H. subst v.
  assert (Nd : d <> Decimal.Nil).
  { intros ->. now apply (NilZero.uint_of_string_nonnil g). }
  apply NilZero.sus in U.
  assert (Lg : String.length g = Decimal.nb_digits d).
  { rewrite <- U. replace (NilZero.string_of_uint d)
      with (NilEmpty.string_of_uint d) by now destruct d.
    apply digits_length. }
  unfold Z.of_uint. split; [lia|].
  destruct (Pos.of_uint d) as [|p] eqn:P.
  - reflexivity.
  - pose proof (DecimalPos.Unsigned.to_of d) as T. rewrite P in T.
    cbn [N.to_uint] in T.
    destruct (str_of_int_shape (Z.pos p)) as (d' & N' & V' & S' & _).
    cbn [Z.of_N].
    assert (E : str_of_int (Z.pos p) = NilEmpty.string_of_uint (Pos.to_uint p)).
    { unfold str_of_int. cbn.
      pose proof (DecimalPos.Unsigned.to_uint_nonnil p).
      now destruct (Pos.to_uint p). }
    rewrite E, int_py_digits.
    + unfold Z.of_uint. now rewrite DecimalPos.Unsigned.of_to.
    + apply DecimalPos.Unsigned.to_uint_nonnil.
    + rewrite digits_length, T.
      pose proof (DecimalFacts.nb_digits_unorm d Nd). lia.
Qed.

Lemma printed_nil : printed [].
Proof. split; [constructor | intros x []]. Qed.

Lemma set_add_printed (x : string) (gids : list string) :
  printed gids ->
  (exists k, 0 <= k /\ x = str_of_int k /\ int_py x = Some k) ->
  printed (set_add x gids).
Proof.
  intros [N P] Hx. unfold set_add. destruct (mem x gids) eqn:E.
  - now split.
  - apply mem_false in E. split.
    + apply NoDup_app; [exact N | repeat constructor; intros [] | ].
      intros y Hy [<-|[]]. contradiction.
    + intros y Hy. apply in_app_iff in Hy. destruct Hy as [Hy|[<-|[]]];
        [now apply P | exact Hx].
Qed.

Lemma add_all_printed (found gids : list string) :
  printed gids -> printed (fst (add_all found gids)).
Proof.
  revert gids. induction found as [|g r IH]; intros gids P; [exact P|].
  cbn [add_all]. destruct (int_py g) as [v|] eqn:E; [|exact P].
  apply IH, set_add_printed; [exact P|].
  apply int_py_canonical in E. destruct E as [E1 E2].
  now exists v.
Qed.

Lemma fallback_printed :
  printed (set_add "1493298409" (set_add "172027705" (set_add "0" []))).
Proof.
  apply set_add_printed;
    [apply set_add_printed; [apply set_add_printed; [apply printed_nil|]|]|].
  - exists 0. split; [lia | split; reflexivity].
  - exists 172027705. split; [lia | split; reflexivity].
  - exists 1493298409. split; [lia | split; reflexivity].
Qed.

Lemma with_keys_printed (gids : list string) :
  printed gids ->
  exists kl, with_keys gids = Some kl /\ map snd kl = gids /\
             Forall keyed kl /\ NoDup (map fst kl).
Proof.
  intros [N P]. induction gids as [|x r IH].
  - exists []. repeat split; constructor.
  - inversion N as [|? ? Nx Nr]. subst.
    destruct IH as (kr & W & S & F & D);
      [exact Nr | intros y Hy; apply P; now right |].
    destruct (P x (or_introl eq_refl)) as (k & K0 & Kx & Ki).
    exists ((k, x) :: kr). cbn [with_keys]. rewrite Ki, W.
    split; [reflexivity|]. split; [cbn [map snd]; now rewrite S|].
    split; [constructor; [now repeat split | exact F]|].
    cbn [map fst]. constructor; [|exact D].
    intros I. apply in_map_iff in I. destruct I as ([k' y] & E & Hy).
    cbn [fst] in E. subst k'.
    apply Nx. rewrite <- S. apply in_map_iff. exists (k, y).
    split; [|exact Hy]. cbn [snd].
    apply (proj1 (Forall_forall _ _) F) in Hy. destruct Hy as (_ & Hy & _).
    cbn [fst snd] in Hy. congruence.
Qed.

Lemma insert_key_In (p q : Z * string) (l : list (Z * string)) :
  In q (insert_key p l) <-> q = p \/ In q l.
Proof.
  induction l as [|a l IH]; cbn [insert_key].
  - cbn. intuition.
  - destruct (fst p <=? fst a); cbn [In]; [intuition|].
    rewrite IH. intuition.
Qed.

Lemma insert_key_increasing (p : Z * string) (l : list (Z * string)) :
  increasing (map fst l) -> ~ In (fst p) (map fst l) ->
  increasing (map fst (insert_key p l)).
Proof.
  induction l as [|a l IH]; intros I N; [exact I|].
  cbn [insert_key]. destruct (Z.leb_spec (fst p) (fst a)) as [L|L].
  - cbn [map]. split; [|exact I].
    assert (fst p <> fst a) by (intros E; apply N; now left). lia.
  - assert (N' : ~ In (fst p) (map fst l)) by (intros H; apply N; now right).
    assert (I' : increasing (map fst l)).
    { cbn [map] in I. destruct (map fst l); [exact Logic.I | now destruct I]. }
    specialize (IH I' N'). cbn [map].
    destruct l as [|b l].
    + cbn [insert_key map]. split; [exact L | exact Logic.I].
    + cbn [insert_key] in *. cbn [map] in I. destruct I as [Iab _].
      destruct (fst p <=? fst b); cbn [map] in *; split; assumption || lia.
Qed.

Lemma isort_In (q : Z * string) (l : list (Z * string)) :
  In q (isort l) <-> In q l.
Proof.
  induction l as [|a l IH]; [reflexivity|].
  cbn [isort]. rewrite insert_key_In, IH. cbn. intuition.
Qed.

Lemma isort_increasing (l : list (Z * string)) :
  NoDup (map fst l) -> increasing (map fst (isort l)).
Proof.
  induction l as [|a l IH]; intros N; [exact I|].
  cbn [map] in N. inversion N as [|? ? Na Nl]. subst.
  cbn [isort]. apply insert_key_increasing; [exact (IH Nl)|].
  intros H. apply Na. apply in_map_iff in H. destruct H as (q & E & Hq).
  apply (proj1 (isort_In q l)) in Hq. apply in_map_iff. exists q.
  split; assumption.
Qed.

Lemma isort_not_nil (l : list (Z * string)) : l <> [] -> isort l <> [].
Proof.
  destruct l as [|a l]; [contradiction|]. intros _ E.
  assert (H : In a (isort (a :: l))) by (apply isort_In; now left).
  rewrite E in H. contradiction.
Qed.

Lemma sorted_printed (gids : list string) :
  printed gids -> gids <> [] ->
  exists l ks, sorted_by_int gids = Some l /\ l <> [] /\
               l = map str_of_int ks /\ map int_py l = map Some ks /\
               increasing ks /\ Forall (fun k => 0 <= k) ks /\
               (forall x, In x l <-> In x gids).
Proof.
  intros P Ne.
  destruct (with_keys_printed gids P) as (kl & W & S & F & D).
  unfold sorted_by_int. rewrite W. cbn [option_map].
  exists (map snd (isort kl)), (map fst (isort kl)).
  assert (F' : Forall keyed (isort kl)).
  { apply Forall_forall. intros q Hq. apply (proj1 (isort_In q kl)) in Hq.
    exact (proj1 (Forall_forall _ _) F q Hq). }
  split; [reflexivity|]. split.
  { intros E. apply map_eq_nil in E. revert E. apply isort_not_nil.
    intros ->. cbn in S. now subst. }
  split.
  { rewrite map_map. apply map_ext_in. intros q Hq.
    now apply (proj1 (Forall_forall _ _) F') in Hq as (_ & Hq & _). }
  split.
  { rewrite !map_map. apply map_ext_in. intros q Hq.
    now apply (proj1 (Forall_forall _ _) F') in Hq as (_ & _ & Hq). }
  split; [now apply isort_increasing|]. split.
  { apply Forall_map, Forall_forall. intros q Hq.
    now apply (proj1 (Forall_forall _ _) F') in Hq as (Hq & _). }
  intros x. rewrite <- S, !in_map_iff. split; intros (q & E & Hq);
    exists q; (split; [exact E|]); now apply (isort_In q kl).
Qed.

Lemma findall_absent (here : string -> option (string * nat))
  (lit : string) (t : string) :
  (forall s, prefix lit s = false -> here s = None) ->
  contains lit t = false ->
  forall skip, findall_from here skip t = [].
Proof.
  intros Hh. induction t as [|c r IH]; intros C skip; [reflexivity|].
  cbn [contains] in C. apply orb_false_elim in C. destruct C as [P C].
  cbn [findall_from]. destruct skip as [|k]; [|now apply IH].
  rewrite (Hh _ P). now apply IH.
Qed.

Lemma findall_gid_absent (t : string) :
  contains "gid=" t = false -> findall gid_here t = [].
Proof.
  intros C. apply (findall_absent gid_here "gid=" t); [|exact C].
  intros s P. unfold gid_here, group_here. now rewrite P.
Qed.

Lemma findall_sheet_id_absent (t : string) :
  contains SHEET_ID_KEY t = false -> findall sheet_id_here t = [].
Proof.
  intros C. apply (findall_absent sheet_id_here SHEET_ID_KEY t); [|exact C].
  intros s P. unfold sheet_id_here. now rewrite P.
Qed.

(** X24: the worksheet ids found by [discover_gids_for_sheet].  With an
    empty sheet id the list is empty.  With any other sheet id, whatever
    the two responses are (also none at all), the call does not raise, the
    list is not empty, and its elements are printed non-negative integers
    without leading zeros, in strictly increasing numerical order, so
    without repetition.  When no response that was read holds "gid=" and
    the second one does not hold the key "sheetId" either (a sheet that
    is private, or no response at all), the list is the fallback "0",
    "172027705", "1493298409". *)
Theorem discover_gids_sorted :
  (forall page gviz, discover_gids_for_sheet "" page gviz = Some []) /\
  (forall sheet_id page gviz,
     sheet_id <> "" ->
     exists l ks,
       discover_gids_for_sheet sheet_id page gviz = Some l /\ l <> [] /\
       l = map str_of_int ks /\ map int_py l = map Some ks /\
       increasing ks /\ Forall (fun k => 0 <= k) ks) /\
  (forall sheet_id page gviz,
     sheet_id <> "" ->
     (forall text, page = Some text -> contains "gid=" text = false) ->
     (forall txt, gviz = Some txt ->
        contains SHEET_ID_KEY txt = false /\ contains "gid=" txt = false) ->
     discover_gids_for_sheet sheet_id page gviz
     = Some ["0"; "172027705"; "1493298409"]).
Proof.
  split; [reflexivity|]. split.
  - intros sheet_id page gviz N. unfold discover_gids_for_sheet.
    destruct (String.eqb_spec sheet_id ""); [contradiction|].
    set (g0 := match page with
               | Some text => fst (add_all (findall gid_here text) [])
               | None => []
               end).
    assert (P0 : printed g0).
    { unfold g0. destruct page; [apply add_all_printed|]; apply printed_nil. }
    set (g1 := match gviz with
               | Some txt =>
                   let '(g1, ok) := add_all (findall sheet_id_here txt) g0 in
                   if ok then fst (add_all (findall gid_here txt) g1) else g1
               | None => g0
               end).
    assert (P1 : printed g1).
    { unfold g1. destruct gviz as [txt|]; [|exact P0].
      pose proof (add_all_printed (findall sheet_id_here txt) g0 P0) as P.
      destruct (add_all (findall sheet_id_here txt) g0) as [g ok].
      cbn [fst] in P. destruct ok; [now apply add_all_printed | exact P]. }
    set (g2 := match g1 with
               | [] => set_add "1493298409"
                         (set_add "172027705" (set_add "0" []))
               | _ => g1
               end).
    assert (P2 : printed g2 /\ g2 <> []).
    { unfold g2. destruct g1; [split; [apply fallback_printed | discriminate]|].
      split; [exact P1 | discriminate]. }
    destruct P2 as [P2 N2].
    destruct (sorted_printed g2 P2 N2) as (l & ks & H1 & H2 & H3 & H4 & H5 & H6 & _).
    now exists l, ks.
  - intros sheet_id page gviz N Hp Hg. unfold discover_gids_for_sheet.
    destruct (String.eqb_spec sheet_id ""); [contradiction|].
    assert (E0 : match page with
                 | Some text => fst (add_all (findall gid_here text) [])
                 | None => []
                 end = []).
    { destruct page as [text|]; [|reflexivity].
      now rewrite (findall_gid_absent text (Hp text eq_refl)). }
    rewrite E0.
    assert (E1 : match gviz with
                 | Some txt =>
                     let '(g1, ok) := add_all (findall sheet_id_here txt) [] in
                     if ok then fst (add_all (findall gid_here txt) g1) else g1
                 | None => []
                 end = []).
    { destruct gviz as [txt|]; [|reflexivity].
      destruct (Hg txt eq_refl) as [C1 C2].
      now rewrite (findall_sheet_id_absent txt C1), (findall_gid_absent txt C2). }
    rewrite E1. reflexivity.
Qed.

(** ** The loader: which worksheet is which *)

Lemma prefix_map_str (f : ascii -> ascii) (w s : string) :
  prefix w s = true -> prefix (map_str f w) (map_str f s) = true.
Proof.
  intros H. apply prefix_split in H. destruct H as [r ->].
  assert (E : map_str f (w ++ r) = map_str f w ++ map_str f r).
  { clear. induction w as [|c w IH]; [reflexivity|].
    cbn [append map_str]. now rewrite IH. }
  rewrite E. apply prefix_app.
Qed.

Lemma contains_map_str (f : ascii -> ascii) (w s : string) :
  contains w s = true -> contains (map_str f w) (map_str f s) = true.
Proof.
  induction s as [|c s IH]; cbn [contains map_str]; intros H;
    apply orb_prop in H; apply orb_true_iff.
  - destruct H as [H|H]; [|discriminate]. left.
    exact (prefix_map_str f w "" H).
  - destruct H as [H|H].
    + left. exact (prefix_map_str f w (String c s) H).
    + right. now apply IH.
Qed.

Lemma lower_upper (s : string) : lower (upper s) = lower s.
Proof.
  unfold upper, lower. induction s as [|c r IH]; [reflexivity|].
  cbn [map_str]. now rewrite lower_upper_char, IH.
Qed.

Lemma prefix_app_more (w a b : string) :
  prefix w a = true -> prefix w (a ++ b) = true.
Proof.
  intros H. apply prefix_split in H. destruct H as [r ->].
  rewrite app_assoc_str. apply prefix_app.
Qed.

Lemma contains_app_more (w a b : string) :
  contains w a = true -> contains w (a ++ b) = true.
Proof.
  induction a as [|c a IH]; intros H.
  - cbn [contains] in H. apply orb_prop in H.
    destruct H as [H|H]; [|discriminate].
    apply contains_prefix. exact (prefix_app_more w "" b H).
  - cbn [contains] in H. apply orb_prop in H. cbn [append contains].
    apply orb_true_iff. destruct H as [H|H].
    + left. exact (prefix_app_more w (String c a) b H).
    + right. now apply IH.
Qed.

Lemma rstrip_split (s : string) : exists t, s = rstrip s ++ t.
Proof.
  induction s as [|c s [t IH]]; [now exists ""|].
  rewrite rstrip_cons. destruct (rstrip s) as [|c' r'] eqn:E.
  - destruct (is_space c).
    + now exists (String c s).
    + exists s. reflexivity.
  - exists t. cbn [append] in IH |- *. now rewrite <- IH.
Qed.

Lemma contains_strip (w s : string) :
  contains w (strip s) = true -> contains w s = true.
Proof.
  unfold strip. intros H.
  destruct (rstrip_split (lstrip s)) as [t E].
  assert (L : contains w (lstrip s) = true)
    by (rewrite E; now apply contains_app_more).
  clear H. unfold lstrip in L.
  rewrite (span_eq is_space s).
  generalize (fst (span is_space s)). intros a.
  induction a as [|c a IH]; [exact L|].
  cbn [append]. now apply contains_cons.
Qed.

Lemma status_word_seen (W v : string) :
  contains W (upper (strip v)) = true ->
  contains (lower W) (lower v) = true.
Proof.
  intros H. apply (contains_map_str lower_char) in H.
  fold (lower W) in H. fold (lower (upper (strip v))) in H.
  rewrite lower_upper in H.
  unfold strip in H. rewrite <- rstrip_lower, <- lstrip_lower in H.
  now apply contains_strip.
Qed.

Lemma norm_cell_status_word (v : string) :
  In (norm_cell (Text v)) [ON_TIME; LATE; NOT_SENT] ->
  any_in ["tepat"; "terlambat"; "tidak"] v = true.
Proof.
  rewrite norm_cell_text. cbv zeta. unfold any_in. cbn [existsb].
  destruct (contains "TEPAT" (upper (strip v))) eqn:A.
  { intros _. pose proof (status_word_seen "TEPAT" v A) as H.
    change (lower "TEPAT") with "tepat" in H. now rewrite H. }
  destruct (contains "TERLAMBAT" (upper (strip v))) eqn:B.
  { intros _. pose proof (status_word_seen "TERLAMBAT" v B) as H.
    change (lower "TERLAMBAT") with "terlambat" in H. rewrite H.
    apply orb_true_r. }
  destruct (contains "TIDAK" (upper (strip v))) eqn:C.
  { intros _. pose proof (status_word_seen "TIDAK" v C) as H.
    change (lower "TIDAK") with "tidak" in H. rewrite H.
    rewrite !orb_true_r. reflexivity. }
  intros [E|[E|[E|[]]]]; rewrite <- E in A, B, C; discriminate.
Qed.

Lemma contains_after_digits (k : string) (ds r : string) :
  match k with String c _ => is_digit c = false | EmptyString => False end ->
  all_chars is_digit ds = true ->
  contains k (ds ++ r) = contains k r.
Proof.
  destruct k as [|c k]; [contradiction|]. intros K.
  induction ds as [|d ds IH]; intros A; [reflexivity|].
  cbn [all_chars] in A. apply andb_prop in A. destruct A as [D A].
  cbn [append contains]. rewrite IH by exact A.
  rewrite prefix_head_neq; [reflexivity|]. intros ->. congruence.
Qed.

Lemma lower_digits (ds : string) :
  all_chars is_digit ds = true -> lower ds = ds.
Proof.
  unfold lower. induction ds as [|d ds IH]; [reflexivity|].
  cbn [all_chars map_str]. intros A. apply andb_prop in A.
  destruct A as [D A]. rewrite IH by exact A. f_equal.
  revert D. by_all_chars d.
Qed.

Lemma lower_app (a b : string) : lower (a ++ b) = lower a ++ lower b.
Proof.
  unfold lower. induction a as [|c a IH]; [reflexivity|].
  cbn [append map_str]. now rewrite IH.
Qed.

Lemma any_in_after_digits (keys : list string) (d : Decimal.uint) (r : string) :
  Forall (fun k => match k with
                   | String c _ => is_digit c = false
                   | EmptyString => False
                   end) keys ->
  any_in keys (NilEmpty.string_of_uint d ++ r) = any_in keys r.
Proof.
  intros F. unfold any_in.
  rewrite lower_app, (lower_digits _ (digits_all d)).
  induction F as [|k keys K F IH]; [reflexivity|].
  cbn [existsb]. rewrite IH.
  now rewrite (contains_after_digits k _ _ K (digits_all d)).
Qed.

Lemma classify_station (df : sheet) (v : string) :
  station_sheet df -> sample_val df = Some v ->
  classify df
  = if any_in ["tepat"; "terlambat"; "tidak"] v then Some "status"
    else if any_in ["hari"; "jam"; "mnt"; "dtk"; "detik"] v
         then Some "deltahours" else Some "status".
Proof.
  intros (S1 & S2 & S3) V. unfold classify. cbv zeta in S1, S2 |- *.
  rewrite S1, S2, V.
  destruct (filter (fun c => month_like (fst c)) df); [contradiction|].
  reflexivity.
Qed.

Lemma letter_heads (keys : list string) :
  forallb (fun k => match k with
                    | String c _ => negb (is_digit c)
                    | EmptyString => false
                    end) keys = true ->
  Forall (fun k => match k with
                   | String c _ => is_digit c = false
                   | EmptyString => False
                   end) keys.
Proof.
  intros H. apply Forall_forall. intros k Hk.
  apply (proj1 (forallb_forall _ _) H) in Hk.
  destruct k as [|c k]; [discriminate|]. now apply negb_true_iff.
Qed.

(** X25: the loader and the parser do not know the same units.  For a
    sheet with a station column and a month column (and not a monthly
    summary), classified from its first month cell that is not missing,
    a text of ASCII characters: the class is "deltahours" exactly when
    the cell holds one of hari, jam, mnt, dtk, detik and none of tepat,
    terlambat, tidak (any case), and "status" otherwise; a cell the
    status normaliser maps to one of the three statuses always gives
    "status".  But a cell "n hrs", which the parser reads as n hours (for
    n below 2^53, where the conversion to float is exact), gives "status",
    and a cell "n detik" gives "deltahours" although the parser reads it
    as zero hours. *)
Theorem classify_station_sheet (df : sheet) (v : string) :
  station_sheet df -> sample_val df = Some v -> is_ascii v = true ->
  (classify df = Some "deltahours" <->
     any_in ["hari"; "jam"; "mnt"; "dtk"; "detik"] v = true /\
     any_in ["tepat"; "terlambat"; "tidak"] v = false) /\
  (classify df = Some "status" \/ classify df = Some "deltahours") /\
  (In (norm_cell (Text v)) [ON_TIME; LATE; NOT_SENT] ->
     classify df = Some "status") /\
  (forall n, 0 <= n < 2 ^ 53 -> v = str_of_int n ++ " hrs" ->
     classify df = Some "status" /\
     parse_delta_to_hours (Text v) = Ret (Some (z2q n))) /\
  (forall n, 0 <= n -> v = str_of_int n ++ " detik" ->
     classify df = Some "deltahours" /\
     parse_delta_to_hours (Text v) = Ret (Some (z2q 0))).
Proof.
  intros S V _. rewrite (classify_station df v S V).
  split; [|split; [|split; [|split]]].
  - destruct (any_in ["tepat"; "terlambat"; "tidak"] v);
      [split; [discriminate | intros [_ H]; discriminate]|].
    destruct (any_in ["hari"; "jam"; "mnt"; "dtk"; "detik"] v);
      [split; [now split | reflexivity]|].
    split; [discriminate | intros [H _]; discriminate].
  - destruct (any_in ["tepat"; "terlambat"; "tidak"] v); [now left|].
    destruct (any_in ["hari"; "jam"; "mnt"; "dtk"; "detik"] v);
      [now right | now left].
  - intros H. now rewrite (norm_cell_status_word v H).
  - intros n [N0 N1] ->.
    apply exact_below_limit in N1.
    destruct (nonneg_number n N0) as (d & Nd & Vd & -> & L).
    specialize (L N1).
    rewrite !any_in_after_digits by (apply letter_heads; reflexivity).
    split; [reflexivity|].
    pose proof (parse_number_hrs false d Nd L) as P.
    change (dash_of false ++ ?x) with x in P. rewrite P, Vd.
    rewrite total_hours_small by lia. cbn [bind].
    rewrite hours_formula_hours. do 3 f_equal. lia.
  - intros n N0 ->.
    destruct (nonneg_number n N0) as (d & Nd & Vd & -> & _).
    rewrite !any_in_after_digits by (apply letter_heads; reflexivity).
    split; [reflexivity|].
    assert (ES : strip (NilEmpty.string_of_uint d ++ " detik")
                 = NilEmpty.string_of_uint d ++ " detik")
      by exact (strip_number false d " deti" "k" Nd eq_refl).
    apply parse_no_unit.
    + rewrite ES. intros E. apply app_eq_nil_str in E. destruct E as [E _].
      now apply (digits_nonempty d Nd).
    + intros t Ht. rewrite ES.
      pose proof (normalise_number false d " detik") as Nm.
      change (dash_of false ++ ?x) with x in Nm.
      change (normalise " detik") with " detik" in Nm. rewrite Nm.
      rewrite lower_app, (lower_digits _ (digits_all d)).
      rewrite contains_after_digits; [| |apply digits_all].
      * cbn in Ht.
        repeat (destruct Ht as [<-|Ht]; [reflexivity|]). contradiction.
      * cbn in Ht.
        repeat (destruct Ht as [<-|Ht]; [reflexivity|]). contradiction.
Qed.

Lemma classify_station_sheet_detik :
  let df := [("station_name", [Text "Stasiun A"]);
             ("Jan", [NA; Text "5 detik"])] in
  let v := "5 detik" in
  (classify df = Some "deltahours" <->
     any_in ["hari"; "jam"; "mnt"; "dtk"; "detik"] v = true /\
     any_in ["tepat"; "terlambat"; "tidak"] v = false) /\
  (classify df = Some "status" \/ classify df = Some "deltahours") /\
  (In (norm_cell (Text v)) [ON_TIME; LATE; NOT_SENT] ->
     classify df = Some "status") /\
  (forall n, 0 <= n < 2 ^ 53 -> v = str_of_int n ++ " hrs" ->
     classify df = Some "status" /\
     parse_delta_to_hours (Text v) = Ret (Some (z2q n))) /\
  (forall n, 0 <= n -> v = str_of_int n ++ " detik" ->
     classify df = Some "deltahours" /\
     parse_delta_to_hours (Text v) = Ret (Some (z2q 0))).
Proof.
  apply classify_station_sheet.
  - split; [reflexivity | split; [reflexivity | discriminate]].
  - reflexivity.
  - reflexivity.
Defined.

(** ** Rincian Data Tahunan: the short text of a cell *)

Lemma number_here_no_digit (s : string) :
  all_chars (fun c => negb (is_digit c)) s = true -> number_here s = None.
Proof.
  intros A. unfold number_here.
  destruct s as [|c r]; [reflexivity|].
  cbn [all_chars] in A. apply andb_prop in A. destruct A as [Hc A].
  apply negb_true_iff in Hc.
  destruct (Ascii.eqb c "-").
  - destruct r as [|c' r']; [reflexivity|].
    cbn [all_chars] in A. apply andb_prop in A. destruct A as [Hc' _].
    apply negb_true_iff in Hc'. cbn [span]. now rewrite Hc'.
  - cbn [span]. now rewrite Hc.
Qed.

Lemma re_search_number_no_digit (s : string) :
  all_chars (fun c => negb (is_digit c)) s = true ->
  re_search_number s = None.
Proof.
  induction s as [|c r IH]; intros A.
  - reflexivity.
  - cbn [re_search_number]. rewrite (number_here_no_digit _ A).
    cbn [all_chars] in A. apply andb_prop in A. now apply IH.
Qed.

Lemma take_length (n : nat) (s : string) : (String.length (take n s) <= n)%nat.
Proof.
  revert s. induction n as [|n IH]; intros s; [apply Nat.le_refl|].
  destruct s as [|c r]; cbn [take String.length]; [lia|].
  specialize (IH r). lia.
Qed.

Lemma number_here_digits (d : Decimal.uint) (c : ascii) (r : string) :
  d <> Decimal.Nil -> is_digit c = false -> c <> "."%char ->
  number_here (NilEmpty.string_of_uint d ++ String c r)
  = Some (NilEmpty.string_of_uint d).
Proof.
  intros N C P. unfold number_here.
  assert (H : exists a s, NilEmpty.string_of_uint d = String a s /\
                          is_digit a = true).
  { pose proof (digits_all d) as A.
    destruct (NilEmpty.string_of_uint d) as [|a s] eqn:E;
      [now apply digits_nonempty in E|].
    exists a, s. cbn [all_chars] in A. apply andb_prop in A. now split. }
  destruct H as (a & s & E & Da).
  assert (Na : Ascii.eqb a "-" = false).
  { destruct (Ascii.eqb_spec a "-") as [->|_]; [discriminate Da | reflexivity]. }
  rewrite E. cbn [append]. rewrite Na.
  change (String a (s ++ String c r)) with (String a s ++ String c r).
  rewrite <- E.
  rewrite (span_app_all is_digit _ (String c r) (digits_all d))
    by (cbn [span]; now rewrite C).
  rewrite E. destruct (Ascii.eqb_spec c "."); [contradiction|].
  cbn [append]. now rewrite app_nil_r_str.
Qed.

(** X26: the short text that stands in for a cell of a month column
    without hours.  A missing cell gives the empty text; a text of ASCII
    characters without any digit gives the first twelve characters of its
    first word; and a text "D hari H jam M mnt S dtk" gives the number of
    days alone, the hours, minutes and seconds being left out. *)
Theorem simplify_text_cell_cases :
  simplify_text_cell NA = "" /\
  (forall t,
     is_ascii t = true ->
     all_chars (fun c => negb (is_digit c)) (strip t) = true ->
     simplify_text_cell (Text t)
     = match split_ws (strip t) with
       | w :: _ => take 12 w
       | [] => ""
       end /\
     (String.length (simplify_text_cell (Text t)) <= 12)%nat) /\
  (forall days hours mins secs,
     0 <= days -> 0 <= hours -> 0 <= mins -> 0 <= secs ->
     simplify_text_cell (Text (four_units days hours mins secs))
     = str_of_int days).
Proof.
  split; [reflexivity|]. split.
  - intros t _ A.
    assert (E : simplify_text_cell (Text t)
                = match split_ws (strip t) with
                  | w :: _ => take 12 w
                  | [] => ""
                  end).
    { cbn [simplify_text_cell]. cbv zeta.
      now rewrite (re_search_number_no_digit _ A). }
    split; [exact E|]. rewrite E.
    destruct (split_ws (strip t)); [cbn; lia | apply take_length].
  - intros days hours mins secs H1 H2 H3 H4. unfold four_units.
    destruct (nonneg_number days H1) as (d1 & N1 & _ & -> & _).
    destruct (nonneg_number hours H2) as (d2 & _ & _ & -> & _).
    destruct (nonneg_number mins H3) as (d3 & _ & _ & -> & _).
    destruct (nonneg_number secs H4) as (d4 & _ & _ & -> & _).
    cbn [simplify_text_cell]. cbv zeta.
    rewrite (strip_four_units d1 d2 d3 d4 N1).
    assert (R : re_search_number
                  (NilEmpty.string_of_uint d1 ++ " hari "
                   ++ NilEmpty.string_of_uint d2 ++ " jam "
                   ++ NilEmpty.string_of_uint d3 ++ " mnt "
                   ++ NilEmpty.string_of_uint d4 ++ " dtk")
                = Some (NilEmpty.string_of_uint d1)).
    { pose proof (number_here_digits d1 " "
                    ("hari " ++ NilEmpty.string_of_uint d2 ++ " jam "
                     ++ NilEmpty.string_of_uint d3 ++ " mnt "
                     ++ NilEmpty.string_of_uint d4 ++ " dtk")
                    N1 eq_refl ltac:(discriminate)) as H.
      change (String " " ("hari " ++ ?x)) with (" hari " ++ x) in H.
      destruct (NilEmpty.string_of_uint d1 ++ _) eqn:E;
        cbn [re_search_number]; now rewrite H. }
    now rewrite R.
Qed.

(** ** The yearly map and Performa Stasiun on the same row *)

Lemma count_eq_map_le (f g : cell -> string) (kata : string) (row : list cell) :
  (forall x, String.eqb (f x) kata = true -> String.eqb (g x) kata = true) ->
  (count_eq (map f row) kata <= count_eq (map g row) kata)%nat.
Proof.
  intros H. induction row as [|x row IH]; [apply Nat.le_refl|].
  cbn [map]. rewrite !count_eq_cons.
  specialize (H x). destruct (String.eqb (f x) kata).
  - rewrite (H eq_refl). lia.
  - destruct (String.eqb (g x) kata); lia.
Qed.

Lemma count_eq_map_eq (f g : cell -> string) (kata : string) (row : list cell) :
  (forall x, String.eqb (f x) kata = String.eqb (g x) kata) ->
  count_eq (map f row) kata = count_eq (map g row) kata.
Proof.
  intros H. induction row as [|x row IH]; [reflexivity|].
  cbn [map]. now rewrite !count_eq_cons, H, IH.
Qed.

Lemma normalisers_agree (x : cell) :
  String.eqb (norm_cell x) ON_TIME = String.eqb (norm_status_cell x) ON_TIME /\
  String.eqb (norm_cell x) LATE = String.eqb (norm_status_cell x) LATE /\
  (String.eqb (norm_cell x) NOT_SENT = true ->
   String.eqb (norm_status_cell x) NOT_SENT = true).
Proof.
  destruct x as [|t]; [now repeat split|].
  rewrite norm_cell_text, norm_status_cell_text. cbv zeta.
  destruct (contains "TEPAT" (upper (strip t))) eqn:A; [now repeat split|].
  destruct (contains "TERLAMBAT" (upper (strip t))) eqn:B; [now repeat split|].
  destruct (contains "TIDAK" (upper (strip t))) eqn:C; [now repeat split|].
  assert (N1 : String.eqb (upper (strip t)) ON_TIME = false).
  { destruct (String.eqb_spec (upper (strip t)) ON_TIME) as [E|_];
      [rewrite E in A; discriminate | reflexivity]. }
  assert (N2 : String.eqb (upper (strip t)) LATE = false).
  { destruct (String.eqb_spec (upper (strip t)) LATE) as [E|_];
      [rewrite E in B; discriminate | reflexivity]. }
  assert (N3 : String.eqb (upper (strip t)) NOT_SENT = false).
  { destruct (String.eqb_spec (upper (strip t)) NOT_SENT) as [E|_];
      [rewrite E in C; discriminate | reflexivity]. }
  rewrite N1, N2, N3.
  destruct (mem (upper (strip t)) [""; "-"; "N/A"; "NA"]);
    [|now rewrite N1, N2].
  split; [reflexivity | split; [reflexivity | discriminate]].
Qed.

Lemma pct_tepat_performa_value (a b c : nat) :
  pct_tepat_performa a b c
  = Finite (if Nat.eqb (a + b + c) 0 then z2q 0
            else (z2q (Z.of_nat a) / z2q (Z.of_nat (a + b + c)))%Qc).
Proof.
  unfold pct_tepat_performa, float_of_count, replace_zero_nan.
  rewrite z2q_eq_zero.
  destruct (Nat.eqb_spec (a + b + c) 0) as [E|E].
  - rewrite E. cbn [Z.of_nat Z.eqb fillna_zero column_div].
    assert (a = 0)%nat as -> by lia. reflexivity.
  - destruct (Z.eqb_spec (Z.of_nat (a + b + c)) 0) as [Z|Z]; [lia|].
    cbn [fillna_zero column_div]. rewrite z2q_eq_zero.
    destruct (Z.eqb_spec (Z.of_nat (a + b + c)) 0); [lia | reflexivity].
Qed.

Lemma ratio_antitone (a t1 t2 : Z) :
  0 <= a -> 0 < t1 <= t2 -> (z2q a / z2q t2 <= z2q a / z2q t1)%Qc.
Proof.
  intros Ha [H1 H2]. unfold Qcle. rewrite !Qcdiv_this, !z2q_this.
  destruct t1 as [|p1|p1]; try lia. destruct t2 as [|p2|p2]; try lia.
  unfold Qle, Qdiv, Qmult, Qinv, inject_Z. cbn. nia.
Qed.

(** X27: the same station on the yearly map and in Performa Stasiun.
    For the month cells of one row, the two pages count the same number of
    on-time months and of late months, and the yearly map counts at most as
    many not-sent months as Performa Stasiun, which also takes blank, "-",
    "N/A" and "NA" cells as not sent; so the on-time share shown by
    Performa Stasiun is never above the one behind the marker of the map. *)
Theorem yearly_map_and_performa (row : list cell) :
  let tepat := hitung (map norm_cell row) ON_TIME in
  let terlambat := hitung (map norm_cell row) LATE in
  let tidak := hitung (map norm_cell row) NOT_SENT in
  let tepat' := count_eq (map norm_status_cell row) ON_TIME in
  let terlambat' := count_eq (map norm_status_cell row) LATE in
  let tidak' := count_eq (map norm_status_cell row) NOT_SENT in
  tepat = tepat' /\ terlambat = terlambat' /\ (tidak <= tidak')%nat /\
  exists q q',
    pct_tepat_tahunan tepat terlambat tidak = Finite q /\
    pct_tepat_performa tepat' terlambat' tidak' = Finite q' /\
    (q' <= q)%Qc.
Proof.
  intros a b c a' b' c'.
  assert (H : forall kata,
             hitung (map norm_cell row) kata
             = count_eq (map norm_cell row) kata).
  { intros kata. unfold hitung, count_eq.
    induction row as [|x r IH]; [reflexivity|].
    cbn [map filter]. rewrite norm_cell_upper_strip.
    destruct (String.eqb (norm_cell x) kata); cbn [List.length];
      now rewrite IH. }
  assert (Ea : a = a').
  { unfold a, a'. rewrite H. apply count_eq_map_eq.
    intros x. apply normalisers_agree. }
  assert (Eb : b = b').
  { unfold b, b'. rewrite H. apply count_eq_map_eq.
    intros x. apply normalisers_agree. }
  assert (Ec : (c <= c')%nat).
  { unfold c, c'. rewrite H. apply count_eq_map_le.
    intros x. apply normalisers_agree. }
  split; [exact Ea|]. split; [exact Eb|]. split; [exact Ec|].
  rewrite pct_tepat_value, pct_tepat_performa_value, <- Ea, <- Eb.
  eexists _, _. split; [reflexivity|]. split; [reflexivity|].
  destruct (Nat.eqb_spec (a + b + c') 0) as [Z'|Z'].
  - destruct (Nat.eqb_spec (a + b + c) 0) as [Z|Z]; [apply Qcle_refl | lia].
  - destruct (Nat.eqb_spec (a + b + c) 0) as [Z|Z].
    + assert (a = 0)%nat as -> by lia. cbn [Z.of_nat].
      rewrite z2q_zero_div. apply Qcle_refl.
    + apply ratio_antitone; lia.
Qed.
